(** * SensorFlow: the analytical core, embedded and verified

    The development follows the Python sources:
    - [src/anomaly_insights.py]: event extraction, reliability metrics,
      root-cause ranking and financial risk;
    - [src/data_quality.py]: the sensor health monitor;
    - [etl_pipeline.py]: gap filling, scaling and reduction.

    Numbers are idealised: a Python float is a rational [Q], a missing
    value (NaN) is [None], and the square root is an operation known only
    through the laws of the class [SquareRoot].  The idealisation changes
    the last digits of a result, and it must not decide a test of the
    program: where the health monitor compares a deviation with 0, the
    deviation is the rounded one of the class [Deviation], which the
    module [Binary64] computes as pandas does.  Exceptions are values of
    the type [result]. *)

From Stdlib Require Import String Ascii ZArith QArith Qabs List Bool Lia Lqa.
From Stdlib Require Import Permutation Sorted.
From Stdlib Require Import Floats.SpecFloat.
Import ListNotations.

Local Open Scope string_scope.
Local Open Scope Z_scope.
Local Open Scope list_scope.

(** ** Exceptions *)

Inductive exn : Type :=
| KeyError (key : string)
| IndexError
| TypeError
| ValueError.

Inductive result (A : Type) : Type :=
| Ok (a : A)
| Raise (e : exn).

Arguments Ok {A} a.
Arguments Raise {A} e.

Definition bind {A B : Type} (m : result A) (k : A -> result B) : result B :=
  match m with
  | Ok a => k a
  | Raise e => Raise e
  end.

Notation "x <- m ;; k" := (bind m (fun x => k))
  (at level 61, m at next level, right associativity).

Definition raises {A : Type} (m : result A) : Prop :=
  exists e, m = Raise e.

(** [try: m except: d] is Python's [try: ... except: ...] around [m]. *)
Definition try_except {A : Type} (m : result A) (handler : A) : A :=
  match m with
  | Ok a => a
  | Raise _ => handler
  end.

(** ** Strings *)

(** Python's [needle in haystack] on strings. *)
Fixpoint contains (needle haystack : string) : bool :=
  if String.prefix needle haystack then true
  else match haystack with
       | EmptyString => false
       | String _ rest => contains needle rest
       end.

(** Python's [x in [..]] on a list of strings. *)
Definition isin (s : string) (l : list string) : bool :=
  existsb (String.eqb s) l.

(** ** Numbers *)

(** A float cell: [None] is NaN. *)
Definition float := option Q.

Definition Qltb (a b : Q) : bool := negb (Qle_bool b a).

Definition Qmaxb (a b : Q) : Q := if Qle_bool a b then b else a.

Definition Qsum (l : list Q) : Q := fold_right Qplus 0%Q l.

(** The square root of the floats, kept abstract: the laws are the ones
    the program relies on. *)
Class SquareRoot : Type := {
  sqrtQ : Q -> Q;
  sqrtQ_nonneg : forall q, (0 <= sqrtQ q)%Q;
  sqrtQ_zero : (sqrtQ 0 == 0)%Q;
  sqrtQ_pos : forall q, (0 < q)%Q -> (0 < sqrtQ q)%Q;
  sqrtQ_compat : forall p q, (p == q)%Q -> (sqrtQ p == sqrtQ q)%Q
}.

(** An instance that computes: the square root rounded up to six
    decimals. *)
Definition sqrt_up6 (q : Q) : Q :=
  let r := Qred q in
  Z.sqrt_up (Qnum r * Zpos (Qden r) * 1000000000000) # (Qden r * 1000000).

(** ** The part of pandas the program uses *)

Module Pandas.

(** A column of a frame: numeric with missing values, or of dtype
    object (strings). *)
Inductive column : Type :=
| Float64 (xs : list float)
| Object (xs : list string).

(** The values that are present ([skipna=True] is the default of every
    reduction). *)
Fixpoint dropna (xs : list float) : list Q :=
  match xs with
  | [] => []
  | Some q :: r => q :: dropna r
  | None :: r => dropna r
  end.

(** [Series.mean()]: NaN when no value is present. *)
Definition mean (xs : list float) : float :=
  match dropna xs with
  | [] => None
  | v => Some (Qsum v / inject_Z (Z.of_nat (length v)))%Q
  end.

(** [Series.max()]: NaN when no value is present. *)
Definition max (xs : list float) : float :=
  match dropna xs with
  | [] => None
  | q :: v => Some (fold_left Qmaxb v q)
  end.

(** [Series.var()] with the default [ddof=1]: NaN with fewer than two
    values. *)
Definition var (xs : list float) : float :=
  match dropna xs with
  | [] => None
  | [_] => None
  | v =>
      let m := (Qsum v / inject_Z (Z.of_nat (length v)))%Q in
      Some (Qsum (map (fun x => (x - m) * (x - m)) v)
            / inject_Z (Z.of_nat (length v - 1)))%Q
  end.

(** [Series.std()], exact: the deviation before any rounding. *)
Definition std `{SquareRoot} (xs : list float) : float :=
  option_map sqrtQ (var xs).

(** [Series.std()] as the program gets it, rounded in binary64.  It is 0
    on some constant series (10, 10, 10) and not on others (0.1, 0.1, 0.1
    gives 1.7e-17), so a test [std() == 0] is a test of this operation and
    not of the exact deviation.  The operation is abstract; its law is
    the one every version of the computation obeys: with [ddof=1] fewer
    than two values give NaN. *)
Class Deviation : Type := {
  std64 : list float -> float;
  std64_few : forall xs, (length (dropna xs) < 2)%nat -> std64 xs = None
}.

(** [Series.isna().mean()]: NaN on an empty series. *)
Definition isna_mean (xs : list float) : float :=
  match xs with
  | [] => None
  | _ =>
      Some (inject_Z (Z.of_nat (length (filter (fun x => match x with None => true | Some _ => false end) xs)))
            / inject_Z (Z.of_nat (length xs)))%Q
  end.

(** [Series.shift()]: every value moves one place down, the first place
    becomes missing. *)
Definition shift {A : Type} (xs : list A) : list (option A) :=
  match xs with
  | [] => []
  | _ => None :: map Some (removelast xs)
  end.

(** [Series.cumsum()] of a boolean series. *)
Fixpoint cumsum_from (acc : nat) (bs : list bool) : list nat :=
  match bs with
  | [] => []
  | b :: r =>
      let acc' := if b then S acc else acc in
      acc' :: cumsum_from acc' r
  end.

Definition cumsum (bs : list bool) : list nat := cumsum_from 0 bs.

(** Boolean indexing [xs[mask]]. *)
Fixpoint select {A : Type} (mask : list bool) (xs : list A) : list A :=
  match mask, xs with
  | true :: m, x :: r => x :: select m r
  | false :: m, _ :: r => select m r
  | _, _ => []
  end.

(** [groupby(keys)]: the groups in ascending key order, the members of
    a group in their original order. *)
Fixpoint add_to_group {A : Type} (k : nat) (r : A)
         (gs : list (nat * list A)) : list (nat * list A) :=
  match gs with
  | [] => [(k, [r])]
  | (k', g) :: rest =>
      if Nat.eqb k k' then (k', g ++ [r]) :: rest
      else if Nat.ltb k k' then (k, [r]) :: gs
      else (k', g) :: add_to_group k r rest
  end.

Definition groupby {A : Type} (keys : list nat) (rows : list A)
  : list (nat * list A) :=
  fold_left (fun gs kr => add_to_group (fst kr) (snd kr) gs)
            (combine keys rows) [].

(** [xs.tail(n)]: the last [n] values, or all but the first [-n] when
    [n] is negative. *)
Definition tail {A : Type} (n : Z) (xs : list A) : list A :=
  if n <? 0 then skipn (Z.to_nat (- n)) xs
  else skipn (length xs - Z.to_nat n) xs.

(** [xs.iloc[-1]]. *)
Definition iloc_last {A : Type} (xs : list A) : result A :=
  match rev xs with
  | [] => Raise IndexError
  | x :: _ => Ok x
  end.

(** [Series.ffill()]: a missing value takes the last value seen. *)
Fixpoint ffill_from (last : float) (xs : list float) : list float :=
  match xs with
  | [] => []
  | Some q :: r => Some q :: ffill_from (Some q) r
  | None :: r => last :: ffill_from last r
  end.

Definition ffill (xs : list float) : list float := ffill_from None xs.

(** [Series.bfill()]: a missing value takes the next value to come. *)
Fixpoint bfill (xs : list float) : list float :=
  match xs with
  | [] => []
  | Some q :: r => Some q :: bfill r
  | None :: r =>
      let r' := bfill r in
      match r' with
      | Some q :: _ => Some q :: r'
      | _ => None :: r'
      end
  end.

End Pandas.

Import Pandas.

(** ** Binary64 *)

(** The arithmetic of the Python floats, as IEEE 754 specifies it, and
    the deviation of a series as [pandas.core.nanops.nanvar] computes it
    with it. *)
Module Binary64.

Definition prec : Z := 53.

Definition emax : Z := 1024.

Definition add : spec_float -> spec_float -> spec_float := SFadd prec emax.

Definition sub : spec_float -> spec_float -> spec_float := SFsub prec emax.

Definition mul : spec_float -> spec_float -> spec_float := SFmul prec emax.

Definition div : spec_float -> spec_float -> spec_float := SFdiv prec emax.

Definition sqrt : spec_float -> spec_float := SFsqrt prec emax.

(** The float nearest to an integer. *)
Definition of_Z (z : Z) : spec_float := binary_normalize prec emax z 0 false.

(** The float of a reading: the correctly rounded quotient, for a
    numerator and a denominator below 2^53. *)
Definition of_Q (q : Q) : spec_float :=
  div (of_Z (Qnum q)) (of_Z (Zpos (Qden q))).

(** The value of a float; NaN and the infinities have none. *)
Definition to_Q (x : spec_float) : float :=
  match x with
  | S754_zero _ => Some 0%Q
  | S754_finite s m e =>
      let z := if s then Zneg m else Zpos m in
      Some (if 0 <=? e then inject_Z (z * 2 ^ e)
            else z # (Z.to_pos (2 ^ (- e))))
  | S754_infinity _ => None
  | S754_nan => None
  end.

(** [values.sum()], left to right (numpy's order for fewer than eight
    values). *)
Definition sum (values : list spec_float) : spec_float :=
  fold_left add values (S754_zero false).

(** [nanstd(values, ddof=1)]:
    [avg = values.sum() / count],
    [sqr = (avg - values) ** 2],
    [sqrt(sqr.sum() / (count - ddof))],
    over the values that are present, and NaN when [count <= ddof]. *)
Definition nanstd (xs : list float) : float :=
  let values := map of_Q (dropna xs) in
  let count := length values in
  if Nat.leb count 1 then None
  else
    let avg := div (sum values) (of_Z (Z.of_nat count)) in
    let sqr := map (fun v => mul (sub avg v) (sub avg v)) values in
    to_Q (sqrt (div (sum sqr) (of_Z (Z.of_nat (count - 1))))).

End Binary64.

(** ** Frames *)

(** The dataset the analysis works on: the two columns every function
    reads by name, the anomaly score when the frame went through the
    pipeline, and the remaining columns in frame order.  Timestamps count
    seconds.  Every value of the type has the columns [timestamp] and
    [machine_status], with or without rows: a frame without them, on
    which [df['machine_status']] raises a KeyError, is not a value of
    the type. *)
Record DataFrame : Type := mkDataFrame {
  timestamp : list Z;
  machine_status : list string;
  anomaly_score : option (list float);
  columns : list (string * column)
}.

(** The dataset without rows: the two columns are there and hold
    nothing.  A function that returns at its test [df.empty] treats
    [pd.DataFrame()] in the same way. *)
Definition no_data : DataFrame := mkDataFrame [] [] None [].

Definition len (df : DataFrame) : nat := length (machine_status df).

(** [df.empty]. *)
Definition empty (df : DataFrame) : bool := Nat.eqb (len df) 0.

Definition select_column (mask : list bool) (c : column) : column :=
  match c with
  | Float64 xs => Float64 (select mask xs)
  | Object xs => Object (select mask xs)
  end.

(** [df[mask]]: the rows where the mask holds. *)
Definition select_rows (mask : list bool) (df : DataFrame) : DataFrame :=
  {| timestamp := select mask (timestamp df);
     machine_status := select mask (machine_status df);
     anomaly_score := option_map (select mask) (anomaly_score df);
     columns := map (fun nc => (fst nc, select_column mask (snd nc))) (columns df) |}.

(** [[c for c in df.columns if 'sensor' in c]], each name with the column
    it selects. *)
Definition sensor_cols (df : DataFrame) : list (string * column) :=
  filter (fun nc => contains "sensor" (fst nc)) (columns df).

(** A frame built from a list of records: [pd.DataFrame(records)] has the
    records' keys as columns, and no column at all when the list is
    empty. *)
Inductive Frame (A : Type) : Type :=
| NoColumns
| Records (rows : list A).

Arguments NoColumns {A}.
Arguments Records {A} rows.

Definition pd_DataFrame {A : Type} (records : list A) : Frame A :=
  match records with
  | [] => NoColumns
  | _ => Records records
  end.

Definition frame_rows {A : Type} (f : Frame A) : list A :=
  match f with
  | NoColumns => []
  | Records rows => rows
  end.

Definition frame_empty {A : Type} (f : Frame A) : bool :=
  match frame_rows f with
  | [] => true
  | _ => false
  end.

(** [f[name]]: the column must exist. *)
Definition frame_column {A B : Type} (name : string) (field : A -> B)
           (f : Frame A) : result (list B) :=
  match f with
  | NoColumns => Raise (KeyError name)
  | Records rows => Ok (map field rows)
  end.

(** [f[mask]]. *)
Definition frame_select {A : Type} (mask : list bool) (f : Frame A) : Frame A :=
  match f with
  | NoColumns => NoColumns
  | Records rows => Records (select mask rows)
  end.

(** Stable insertion sort; [leb x y] says that [x] may stand before [y].
    The records come out in the order of their keys; the order of
    records with the same key is the model's (the default sort of pandas
    is not stable). *)
Fixpoint insert_by {A : Type} (leb : A -> A -> bool) (x : A) (l : list A)
  : list A :=
  match l with
  | [] => [x]
  | y :: r => if leb x y then x :: l else y :: insert_by leb x r
  end.

Definition sort_by {A : Type} (leb : A -> A -> bool) (l : list A) : list A :=
  fold_right (insert_by leb) [] l.

(** [f.sort_values(name, ...)]: a KeyError when the frame has no such
    column. *)
Definition sort_values {A : Type} (name : string) (leb : A -> A -> bool)
           (f : Frame A) : result (Frame A) :=
  match f with
  | NoColumns => Raise (KeyError name)
  | Records rows => Ok (Records (sort_by leb rows))
  end.

(** A [for] loop whose body appends at most one record and may raise. *)
Fixpoint collect {A B : Type} (body : A -> result (option B)) (l : list A)
  : result (list B) :=
  match l with
  | [] => Ok []
  | a :: r =>
      o <- body a ;;
      rest <- collect body r ;;
      Ok (match o with Some b => b :: rest | None => rest end)
  end.

(** ** Exceptions of arithmetic *)

(** What a computation on Python numbers may raise besides the
    exceptions above: the division of an integer by zero. *)
Inductive raised : Type :=
| Exception (e : exn)
| ZeroDivisionError.

Inductive outcome (A : Type) : Type :=
| Return (a : A)
| Throw (e : raised).

Arguments Return {A} a.
Arguments Throw {A} e.

Definition and_then {A B : Type} (m : outcome A) (k : A -> outcome B)
  : outcome B :=
  match m with
  | Return a => k a
  | Throw e => Throw e
  end.

Notation "x <~ m ;; k" := (and_then m (fun x => k))
  (at level 61, m at next level, right associativity).

(** A call of a function that raises only the exceptions above. *)
Definition call {A : Type} (m : result A) : outcome A :=
  match m with
  | Ok a => Return a
  | Raise e => Throw (Exception e)
  end.

(** ** src/anomaly_insights.py *)

Module AnomalyInsights.

Definition failure_statuses : list string := ["BROKEN"; "RECOVERING"].

Record Event : Type := mkEvent {
  start_time : Z;
  end_time : Z;
  duration_mins : Q;
  status : string;
  max_anomaly_score : float
}.

(** One row of the frame, as the groups of [groupby] hold them. *)
Record Row : Type := mkRow {
  row_timestamp : Z;
  row_machine_status : string;
  row_anomaly_score : float
}.

Definition itertuples (df : DataFrame) : list Row :=
  match anomaly_score df with
  | Some scores =>
      map (fun tsa => mkRow (fst tsa) (fst (snd tsa)) (snd (snd tsa)))
          (combine (timestamp df) (combine (machine_status df) scores))
  | None =>
      map (fun ts => mkRow (fst ts) (snd ts) None)
          (combine (timestamp df) (machine_status df))
  end.

(** [s.shift() != s]: a missing value differs from everything. *)
Definition ne_shifted (shifted : list (option string)) (s : list string)
  : list bool :=
  map (fun pc => match fst pc with
                 | Some p => negb (String.eqb p (snd pc))
                 | None => true
                 end)
      (combine shifted s).

(** The body of the loop over the groups. *)
Definition event_of_group (has_score : bool) (group : list Row)
  : result (option Event) :=
  match group with
  | [] => Raise IndexError
  | first :: _ =>
      let status := row_machine_status first in
      if isin status failure_statuses then
        let ts := map row_timestamp group in
        let t_min := fold_left Z.min ts (row_timestamp first) in
        let t_max := fold_left Z.max ts (row_timestamp first) in
        Ok (Some {| start_time := t_min;
                    end_time := t_max;
                    duration_mins := (inject_Z (t_max - t_min) / 60)%Q;
                    status := status;
                    max_anomaly_score :=
                      if has_score
                      then Pandas.max (map row_anomaly_score group)
                      else Some 0%Q |})
      else Ok None
  end.

Definition newest_first (a b : Event) : bool :=
  start_time b <=? start_time a.

Definition get_anomaly_events (df : DataFrame) (threshold : Q)
  : result (Frame Event) :=
  if empty df then Ok NoColumns
  else
    let status_change :=
      ne_shifted (shift (machine_status df)) (machine_status df) in
    let state_groups := groupby (cumsum status_change) (itertuples df) in
    events <- collect
                (event_of_group
                   (match anomaly_score df with Some _ => true | None => false end))
                (map snd state_groups) ;;
    sort_values "start_time" newest_first (pd_DataFrame events).


(** A float that may be [float('inf')]. *)
Inductive metric : Type :=
| Infinity
| Finite (q : Q).

Record Reliability : Type := mkReliability {
  MTBF : metric;
  MTTR : metric
}.

Definition calculate_reliability_metrics
           (events_df : Frame Event) (total_duration_hours : Q)
  : result Reliability :=
  if frame_empty events_df then
    Ok {| MTBF := Infinity; MTTR := Finite 0 |}
  else
    statuses <- frame_column "status" status events_df ;;
    let failures :=
      frame_select (map (fun s => isin s failure_statuses) statuses)
                   events_df in
    let num_failures := length (frame_rows failures) in
    if Nat.eqb num_failures 0 then
      Ok {| MTBF := Infinity; MTTR := Finite 0 |}
    else
      durations <- frame_column "duration_mins" duration_mins failures ;;
      let total_downtime_hours := (Qsum durations / 60)%Q in
      let total_uptime_hours :=
        (total_duration_hours - total_downtime_hours)%Q in
      let n := inject_Z (Z.of_nat num_failures) in
      let mtbf :=
        if Nat.ltb 0 num_failures then (total_uptime_hours / n)%Q
        else 0%Q in
      let mttr := ((total_downtime_hours / n) * 60)%Q in
      Ok {| MTBF := Finite mtbf; MTTR := Finite mttr |}.

Definition calculate_financial_risk
           (events_df : Frame Event) (cost_per_minute : Q) : result Q :=
  if frame_empty events_df then Ok 0%Q
  else
    durations <- frame_column "duration_mins" duration_mins events_df ;;
    let total_downtime_minutes := Qsum durations in
    Ok (total_downtime_minutes * cost_per_minute)%Q.

(** Reductions of a column: a column of strings cannot be averaged, with
    or without rows.  The deviation is the exact one: the baselines the
    theorems evaluate are constant series of integers, where the rounded
    deviation is 0 as well, and the order of a ranking is stated for
    whatever scores it holds. *)
Definition column_mean (c : column) : result float :=
  match c with
  | Float64 xs => Ok (mean xs)
  | Object _ => Raise TypeError
  end.

Definition column_std `{SquareRoot} (c : column) : result float :=
  match c with
  | Float64 xs => Ok (std xs)
  | Object _ => Raise TypeError
  end.

(** Float arithmetic: NaN is absorbing, and no comparison holds of it. *)
Definition fsub (a b : float) : float :=
  match a, b with
  | Some x, Some y => Some (x - y)%Q
  | _, _ => None
  end.

Definition fabs (a : float) : float := option_map Qabs a.

(** The quotient by zero (an infinity or NaN of the floats) is outside
    the rationals; the program divides after its test [sigma == 0]. *)
Definition fdiv (a b : float) : float :=
  match a, b with
  | Some x, Some y => if Qeq_bool y 0 then None else Some (x / y)%Q
  | _, _ => None
  end.

Definition feq0 (a : float) : bool :=
  match a with
  | Some x => Qeq_bool x 0
  | None => false
  end.

Record Contribution : Type := mkContribution {
  sensor : string;
  deviation_score : float;
  event_mean : float;
  baseline_mean : float
}.

(** The body of the [try] block for one sensor; [None] is [continue]. *)
Definition sensor_contribution `{SquareRoot}
           (baseline_mask window_mask : list bool) (sc : string * column)
  : result (option Contribution) :=
  mu_baseline <- column_mean (select_column baseline_mask (snd sc)) ;;
  sigma_baseline <- column_std (select_column baseline_mask (snd sc)) ;;
  if feq0 sigma_baseline then Ok None
  else
    mu_event <- column_mean (select_column window_mask (snd sc)) ;;
    let score := fdiv (fabs (fsub mu_event mu_baseline)) sigma_baseline in
    Ok (Some {| sensor := fst sc;
                deviation_score := score;
                event_mean := mu_event;
                baseline_mean := mu_baseline |}).

(** Descending order of the score, NaN last. *)
Definition highest_first (a b : Contribution) : bool :=
  match deviation_score a, deviation_score b with
  | Some x, Some y => Qle_bool y x
  | Some _, None => true
  | None, Some _ => false
  | None, None => true
  end.

Definition analyze_root_cause `{SquareRoot}
           (df : DataFrame) (event_row : Event) (top_n : nat)
  : result (list Contribution) :=
  if empty df then Ok []
  else
    let baseline_mask := map (String.eqb "NORMAL") (machine_status df) in
    let baseline_df := select_rows baseline_mask df in
    if empty baseline_df then Ok []
    else
      let event_start := start_time event_row in
      let event_end := end_time event_row in
      let window_mask :=
        map (fun t => (event_start <=? t) && (t <=? event_end))
            (timestamp df) in
      let event_window_df := select_rows window_mask df in
      if empty event_window_df then Ok []
      else
        let contributions :=
          flat_map
            (fun sc =>
               try_except
                 (c <- sensor_contribution baseline_mask window_mask sc ;;
                  Ok (match c with Some c => [c] | None => [] end))
                 [])
            (sensor_cols df) in
        results_df <- sort_values "deviation_score" highest_first
                                  (pd_DataFrame contributions) ;;
        Ok (firstn top_n (frame_rows results_df)).

Record SystemHealth : Type := mkSystemHealth {
  uptime_pct : Q;
  total_failures : nat;
  recovery_events : nat
}.

(** The points are counted as Python integers; their quotient is a
    float, and the quotient by zero points raises.  The frame has its
    column [machine_status], as every value of [DataFrame]. *)
Definition get_system_health_metrics (df : DataFrame) : outcome SystemHealth :=
  let total_points := len df in
  let broken_points :=
    len (select_rows (map (fun s => String.eqb s "BROKEN") (machine_status df)) df) in
  let recovering_points :=
    len (select_rows (map (fun s => String.eqb s "RECOVERING") (machine_status df)) df) in
  if Nat.eqb total_points 0 then Throw ZeroDivisionError
  else
    let uptime_pct :=
      ((inject_Z (Z.of_nat total_points - Z.of_nat broken_points
                  - Z.of_nat recovering_points)
        / inject_Z (Z.of_nat total_points)) * 100)%Q in
    Return {| uptime_pct := uptime_pct;
              total_failures := broken_points;
              recovery_events := recovering_points |}.

(** What [render_anomaly_insights] computes before it draws: the events,
    the span of the dataset in hours, the reliability, the risk and the
    health metrics.  The configuration values are parameters, the
    drawing is left out, and a frame with rows has a first timestamp.
    The quotients are exact here and rounded in the program: the sign of
    a difference of two of them that is 0 here (an MTBF of 0 hours) is
    not the program's. *)
Record Insights : Type := mkInsights {
  insights_events : Frame Event;
  insights_total_duration_hours : Q;
  insights_reliability : Reliability;
  insights_total_risk : Q;
  insights_metrics : SystemHealth
}.

Definition render_anomaly_insights
           (df : DataFrame) (threshold cost_per_min : Q)
  : outcome (option Insights) :=
  if empty df then Return None
  else
    events_df <~ call (get_anomaly_events df threshold) ;;
    let t0 := hd 0 (timestamp df) in
    let t_max := fold_left Z.max (timestamp df) t0 in
    let t_min := fold_left Z.min (timestamp df) t0 in
    let total_duration_hours := (inject_Z (t_max - t_min) / 3600)%Q in
    reliability <~ call (calculate_reliability_metrics events_df
                                                        total_duration_hours) ;;
    total_risk <~ call (calculate_financial_risk events_df cost_per_min) ;;
    metrics <~ get_system_health_metrics df ;;
    Return (Some {| insights_events := events_df;
                    insights_total_duration_hours := total_duration_hours;
                    insights_reliability := reliability;
                    insights_total_risk := total_risk;
                    insights_metrics := metrics |}).

End AnomalyInsights.

(** ** src/data_quality.py *)

Module DataQuality.

Inductive cell : Type :=
| Number (x : float)
| Text (s : string).

Record SensorHealth : Type := mkSensorHealth {
  sensor : string;
  status : string;
  details : string;
  current_value : cell
}.

Definition tail_column (n : Z) (c : column) : column :=
  match c with
  | Float64 xs => Float64 (tail n xs)
  | Object xs => Object (tail n xs)
  end.

(** [df.tail(n)]. *)
Definition tail_rows (n : Z) (df : DataFrame) : DataFrame :=
  {| timestamp := tail n (timestamp df);
     machine_status := tail n (machine_status df);
     anomaly_score := option_map (tail n) (anomaly_score df);
     columns := map (fun nc => (fst nc, tail_column n (snd nc))) (columns df) |}.

(** [Series.std()] of the window, as the program gets it: the rounded
    deviation; a column of strings has none. *)
Definition column_std `{Deviation} (c : column) : result float :=
  match c with
  | Float64 xs => Ok (std64 xs)
  | Object _ => Raise TypeError
  end.

(** [Series.isna().mean()]; strings are never missing. *)
Definition column_isna_mean (c : column) : float :=
  match c with
  | Float64 xs => isna_mean xs
  | Object [] => None
  | Object _ => Some 0%Q
  end.

Definition column_iloc_last (c : column) : result cell :=
  match c with
  | Float64 xs => x <- iloc_last xs ;; Ok (Number x)
  | Object xs => s <- iloc_last xs ;; Ok (Text s)
  end.

(** [x > 0.1] on floats: false of NaN. *)
Definition fgt (a : float) (b : Q) : bool :=
  match a with
  | Some x => Qltb b x
  | None => false
  end.

(** The body of the loop for one sensor of the recent window. *)
Definition sensor_health `{Deviation} (sc : string * column)
  : result SensorHealth :=
  sigma <- column_std (snd sc) ;;
  let verdict :=
    if AnomalyInsights.feq0 sigma then
      ("CRITICAL", "Flatline (Zero Variance)")
    else if fgt (column_isna_mean (snd sc)) (1 # 10) then
      ("WARNING", "High Missing Data Rate")
    else ("HEALTHY", "Normal operation") in
  last <- column_iloc_last (snd sc) ;;
  Ok {| sensor := fst sc;
        status := fst verdict;
        details := snd verdict;
        current_value := last |}.

Fixpoint for_each {A B : Type} (body : A -> result B) (l : list A)
  : result (list B) :=
  match l with
  | [] => Ok []
  | a :: r =>
      b <- body a ;;
      rest <- for_each body r ;;
      Ok (b :: rest)
  end.

Definition check_sensor_health `{Deviation}
           (df : DataFrame) (lookback_window : Z)
  : result (Frame SensorHealth) :=
  if empty df then Ok NoColumns
  else
    let recent_df :=
      if Z.of_nat (len df) >? lookback_window
      then tail_rows lookback_window df
      else df in
    health_report <- for_each sensor_health (sensor_cols recent_df) ;;
    Ok (pd_DataFrame health_report).

Record QualityMetrics : Type := mkQualityMetrics {
  quality_score : Q;
  total_sensors : nat;
  rows : nat
}.

(** [Series.isna().sum()]; strings are never missing. *)
Definition column_isna_sum (c : column) : nat :=
  match c with
  | Float64 xs =>
      length (filter (fun x => match x with None => true | Some _ => false end) xs)
  | Object _ => 0%nat
  end.

Definition get_data_quality_metrics (df : DataFrame) : QualityMetrics :=
  let sensor_cols := sensor_cols df in
  let total_cells := (len df * length sensor_cols)%nat in
  let missing_cells :=
    fold_right Nat.add 0%nat (map (fun nc => column_isna_sum (snd nc)) sensor_cols) in
  let quality_score :=
    if Nat.ltb 0 total_cells
    then (100 * (1 - inject_Z (Z.of_nat missing_cells)
                     / inject_Z (Z.of_nat total_cells)))%Q
    else 0%Q in
  {| quality_score := quality_score;
     total_sensors := length sensor_cols;
     rows := len df |}.

End DataQuality.

(** ** etl_pipeline.py *)

Module EtlPipeline.

Definition is_missing (x : float) : bool :=
  match x with
  | None => true
  | Some _ => false
  end.

(** Gap filling of one column.  A column of strings has no missing
    value in this model. *)
Definition ffill_column (c : column) : column :=
  match c with
  | Float64 xs => Float64 (ffill xs)
  | Object xs => Object xs
  end.

Definition bfill_column (c : column) : column :=
  match c with
  | Float64 xs => Float64 (bfill xs)
  | Object xs => Object xs
  end.

(** [df.ffill()] and [df.bfill()]. *)
Definition df_ffill (df : DataFrame) : DataFrame :=
  {| timestamp := timestamp df;
     machine_status := machine_status df;
     anomaly_score := option_map ffill (anomaly_score df);
     columns := map (fun nc => (fst nc, ffill_column (snd nc))) (columns df) |}.

Definition df_bfill (df : DataFrame) : DataFrame :=
  {| timestamp := timestamp df;
     machine_status := machine_status df;
     anomaly_score := option_map bfill (anomaly_score df);
     columns := map (fun nc => (fst nc, bfill_column (snd nc))) (columns df) |}.

(** A column with no value at all. *)
Definition all_missing (c : column) : bool :=
  match c with
  | Float64 xs => forallb is_missing xs
  | Object xs => match xs with [] => true | _ => false end
  end.

(** [df.dropna(axis=1, how='all')]. *)
Definition dropna_columns (df : DataFrame) : DataFrame :=
  {| timestamp := timestamp df;
     machine_status := machine_status df;
     anomaly_score :=
       match anomaly_score df with
       | Some xs => if forallb is_missing xs then None else Some xs
       | None => None
       end;
     columns := filter (fun nc => negb (all_missing (snd nc))) (columns df) |}.

(** The matrix handed to scikit-learn, column by column. *)
Definition matrix : Type := list (list float).

Definition n_features (X : matrix) : nat := length X.

Definition n_samples (X : matrix) : nat :=
  match X with
  | [] => 0%nat
  | c :: _ => length c
  end.

(** The conversion of the selected columns to a numeric array.  A
    column of strings is refused: the strings of the data model are not
    numerals (a string that reads as a number would be converted). *)
Fixpoint as_float_array (cols : list (string * column)) : result matrix :=
  match cols with
  | [] => Ok []
  | (_, Float64 xs) :: r => X <- as_float_array r ;; Ok (xs :: X)
  | (_, Object []) :: r => X <- as_float_array r ;; Ok ([] :: X)
  | (_, Object (_ :: _)) :: r => Raise ValueError
  end.

(** The variance scikit-learn scales by ([ddof=0]). *)
Definition population_var (xs : list float) : float :=
  match dropna xs with
  | [] => None
  | v =>
      let m := (Qsum v / inject_Z (Z.of_nat (length v)))%Q in
      Some (Qsum (map (fun x => (x - m) * (x - m)) v)
            / inject_Z (Z.of_nat (length v)))%Q
  end.

(** [StandardScaler] on one feature: a feature of zero variance keeps
    the scale 1. *)
Definition scale_feature `{SquareRoot} (xs : list float) : list float :=
  match mean xs, population_var xs with
  | Some m, Some v =>
      let s := sqrtQ v in
      let scale := if Qeq_bool s 0 then 1%Q else s in
      map (option_map (fun x => ((x - m) / scale)%Q)) xs
  | _, _ => xs
  end.

(** [StandardScaler().fit_transform(X)]: the input validation refuses an
    array with no sample or no feature; missing values pass. *)
Definition scaler_fit_transform `{SquareRoot} (cols : list (string * column))
  : result matrix :=
  X <- as_float_array cols ;;
  if Nat.eqb (n_features X) 0 then Raise ValueError
  else if Nat.eqb (n_samples X) 0 then Raise ValueError
  else Ok (map scale_feature X).

(** The projection onto the two principal directions is not computed
    in the rationals: it is an operation of the class. *)
Class Projection : Type := {
  principal_components : list (list Q) -> list Q * list Q
}.

(** [PCA(n_components=2).fit_transform(X)]: the input validation refuses
    missing values and an array with fewer than two samples or
    features. *)
Definition pca_fit_transform `{Projection} (X : matrix)
  : result (list Q * list Q) :=
  if existsb (existsb is_missing) X then Raise ValueError
  else if Nat.ltb (Nat.min (n_samples X) (n_features X)) 2 then
    Raise ValueError
  else Ok (principal_components (map dropna X)).

(** [df[name] = values]. *)
Fixpoint set_column (name : string) (c : column)
         (cols : list (string * column)) : list (string * column) :=
  match cols with
  | [] => [(name, c)]
  | (n, c') :: r =>
      if String.eqb n name then (n, c) :: r
      else (n, c') :: set_column name c r
  end.

(** The first two statements of [preprocess]. *)
Definition fill_gaps (df : DataFrame) : DataFrame :=
  dropna_columns (df_bfill (df_ffill df)).

Definition preprocess `{SquareRoot} `{Projection} (df : DataFrame)
  : result DataFrame :=
  let df := fill_gaps df in
  let sensor_cols := sensor_cols df in
  x_scaled <- scaler_fit_transform sensor_cols ;;
  pcs <- pca_fit_transform x_scaled ;;
  let pca_1 := fst pcs in
  let pca_2 := snd pcs in
  let score :=
    map (fun p => Some (sqrtQ (fst p * fst p + snd p * snd p))%Q)
        (combine pca_1 pca_2) in
  Ok {| timestamp := timestamp df;
        machine_status := machine_status df;
        anomaly_score := Some score;
        columns :=
          set_column "PCA_2" (Float64 (map Some pca_2))
            (set_column "PCA_1" (Float64 (map Some pca_1)) (columns df)) |}.

End EtlPipeline.

(** ** src/processing.py *)

Module Processing.

Fixpoint string_map (f : ascii -> ascii) (s : string) : string :=
  match s with
  | EmptyString => EmptyString
  | String c r => String (f c) (string_map f r)
  end.

(** [str.lower()] on the ASCII letters: the model of [str.lower()] for
    a name of ASCII characters.  On other names Python lower-cases more,
    and can change the number of characters. *)
Definition lower_char (c : ascii) : ascii :=
  let n := nat_of_ascii c in
  if (Nat.leb 65 n && Nat.leb n 90)%bool then ascii_of_nat (n + 32) else c.

(** [str.replace(' ', '_')], character by character. *)
Definition underscore_char (c : ascii) : ascii :=
  if Ascii.eqb c " "%char then "_"%char else c.

(** [c.lower().replace(' ', '_')]. *)
Definition clean_name (c : string) : string :=
  string_map underscore_char (string_map lower_char c).

(** [df.columns = [...]]: every column held by name is renamed; the
    timestamp, the status and the anomaly score are fields of the model. *)
Definition clean_column_names (df : DataFrame) : DataFrame :=
  {| timestamp := timestamp df;
     machine_status := machine_status df;
     anomaly_score := anomaly_score df;
     columns := map (fun nc => (clean_name (fst nc), snd nc)) (columns df) |}.

Definition get_sensor_columns (df : DataFrame) : list string :=
  map fst (sensor_cols df).

End Processing.

(** ** The event extractor in the words of the specification *)

Module EventSpec.

Import AnomalyInsights.

(** Walk the sequence: [current] is the group being built and [prev] the
    status of the previous row; a row whose status differs from the
    previous row starts a new group. *)
Fixpoint runs_from (current : list Row) (prev : string) (l : list Row)
  : list (list Row) :=
  match l with
  | [] => [current]
  | r :: l' =>
      if String.eqb prev (row_machine_status r)
      then runs_from (current ++ [r]) (row_machine_status r) l'
      else current :: runs_from [r] (row_machine_status r) l'
  end.

(** The first row starts a group. *)
Definition runs (l : list Row) : list (list Row) :=
  match l with
  | [] => []
  | r :: l' => runs_from [r] (row_machine_status r) l'
  end.

(** All rows of a group carry the status [s]. *)
Definition has_status (s : string) (g : list Row) : Prop :=
  Forall (fun r => row_machine_status r = s) g.

(** The status of a group is the status of its first row. *)
Definition group_status (g : list Row) : string :=
  match g with
  | [] => ""
  | r :: _ => row_machine_status r
  end.

Definition is_failure (g : list Row) : bool :=
  isin (group_status g) failure_statuses.

(** The event of a run: first and last timestamp, the minutes between
    them, the status, the peak score. *)
Definition event_of_run (g : list Row) : Event :=
  let first_t := hd 0 (map row_timestamp g) in
  let last_t := last (map row_timestamp g) 0 in
  {| start_time := first_t;
     end_time := last_t;
     duration_mins := (inject_Z (last_t - first_t) / 60)%Q;
     status := group_status g;
     max_anomaly_score := Pandas.max (map row_anomaly_score g) |}.

(** Every column of the frame has one value per row. *)
Definition well_formed (df : DataFrame) : Prop :=
  length (timestamp df) = length (machine_status df) /\
  match anomaly_score df with
  | Some scores => length scores = length (machine_status df)
  | None => True
  end.

(** The comparison [s.shift() != s], row by row. *)
Fixpoint changes_from (prev : option string) (s : list string) : list bool :=
  match s with
  | [] => []
  | x :: r =>
      match prev with
      | Some p => negb (String.eqb p x)
      | None => true
      end :: changes_from (Some x) r
  end.

End EventSpec.

(** ** Reliability and risk in the words of the specification *)

Module MetricsSpec.

Import AnomalyInsights.

(** The failures of an event list: the events whose status is in the
    failure set. *)
Definition failures (events : list Event) : list Event :=
  filter (fun e => isin (status e) failure_statuses) events.

Definition num_failures (events : list Event) : Q :=
  inject_Z (Z.of_nat (length (failures events))).

(** sum(duration_mins)/60 over the failures. *)
Definition total_downtime_hours (events : list Event) : Q :=
  (Qsum (map duration_mins (failures events)) / 60)%Q.

Definition metric_eq (a b : metric) : Prop :=
  match a, b with
  | Infinity, Infinity => True
  | Finite x, Finite y => (x == y)%Q
  | _, _ => False
  end.

(** Every event lasts [c] times as long. *)
Definition scale_durations (c : Q) (f : Frame Event) : Frame Event :=
  match f with
  | NoColumns => NoColumns
  | Records rows =>
      Records (map (fun e => {| start_time := start_time e;
                                end_time := end_time e;
                                duration_mins := (c * duration_mins e)%Q;
                                status := status e;
                                max_anomaly_score := max_anomaly_score e |})
                   rows)
  end.

End MetricsSpec.

(** ** The health monitor in the words of the specification *)

Module HealthSpec.

(** The trailing window: the last [n] readings, all of them when there
    are fewer. *)
Definition trailing_window {A : Type} (n : nat) (xs : list A) : list A :=
  skipn (length xs - n) xs.

Fixpoint count_missing (xs : list float) : nat :=
  match xs with
  | [] => 0%nat
  | None :: r => Datatypes.S (count_missing r)
  | Some _ :: r => count_missing r
  end.

(** The fraction of the readings that are missing. *)
Definition missing_fraction (xs : list float) : Q :=
  (inject_Z (Z.of_nat (count_missing xs)) / inject_Z (Z.of_nat (length xs)))%Q.

(** The standard deviation of the readings, as it is computed, is
    exactly 0. *)
Definition flatline `{Deviation} (xs : list float) : Prop :=
  exists s, std64 xs = Some s /\ (s == 0)%Q.

(** The frame of the repository's test. *)
Definition test_frame : DataFrame :=
  mkDataFrame [0; 1; 2; 3; 4]
              ["NORMAL"; "NORMAL"; "NORMAL"; "NORMAL"; "NORMAL"]
              None
              [("sensor_00",
                Float64 [Some 10%Q; Some 10%Q; Some 10%Q; Some 10%Q; Some 10%Q]);
               ("sensor_01",
                Float64 [Some 1%Q; Some 2%Q; Some 3%Q; Some 4%Q; Some 5%Q])].

(** A sensor stuck at 0.1. *)
Definition tenths_frame : DataFrame :=
  mkDataFrame [0; 1; 2]
              ["NORMAL"; "NORMAL"; "NORMAL"]
              None
              [("sensor_00", Float64 [Some (1 # 10); Some (1 # 10); Some (1 # 10)])].

End HealthSpec.

(** ** Gap filling in the words of the specification *)

Module FillSpec.

(** The most recent reading of a series, if it has one. *)
Fixpoint last_reading (xs : list float) : float :=
  match xs with
  | [] => None
  | x :: r =>
      match last_reading r with
      | Some v => Some v
      | None => x
      end
  end.

(** The earliest reading of a series, if it has one. *)
Fixpoint first_reading (xs : list float) : float :=
  match xs with
  | [] => None
  | Some v :: _ => Some v
  | None :: r => first_reading r
  end.

(** Forward fill first, backward fill second: position [i] takes its own
    reading or the nearest earlier one, and only when there is none the
    nearest later one. *)
Definition gap_filled (xs : list float) (i : nat) : float :=
  match last_reading (firstn (Datatypes.S i) xs) with
  | Some v => Some v
  | None => first_reading (skipn (Datatypes.S i) xs)
  end.

(** The series has no reading at all. *)
Definition entirely_empty (xs : list float) : bool :=
  forallb EtlPipeline.is_missing xs.

(** The series has a reading at every position. *)
Definition complete (xs : list float) : bool :=
  negb (existsb EtlPipeline.is_missing xs).

(** Some sensor column of the frame has variance exactly 0. *)
Definition zero_variance_sensor (df : DataFrame) : Prop :=
  exists name xs v,
    In (name, Float64 xs) (sensor_cols df)
    /\ EtlPipeline.population_var xs = Some v /\ (v == 0)%Q.

(** A frame of three rows whose second sensor never moves. *)
Definition flat_sensor_frame : DataFrame :=
  mkDataFrame [0; 60; 120] ["NORMAL"; "NORMAL"; "NORMAL"] None
              [("sensor_00", Float64 [Some 1%Q; Some 2%Q; Some 3%Q]);
               ("sensor_01", Float64 [Some 5%Q; Some 5%Q; Some 5%Q])].

(** A frame of six rows with gaps: the second sensor has no reading. *)
Definition gap_frame : DataFrame :=
  mkDataFrame [0; 1; 2; 3; 4; 5] ["A"; "A"; "A"; "A"; "A"; "A"] None
              [("sensor_00", Float64 [None; Some 1%Q; None; None; Some 2%Q; None]);
               ("sensor_01", Float64 [None; None; None; None; None; None]);
               ("sensor_02", Float64 [Some 3%Q; None; Some 4%Q; Some 5%Q; None; Some 6%Q])].

(** A frame of three rows without any sensor column. *)
Definition no_sensor_frame : DataFrame :=
  mkDataFrame [0; 60; 120] ["NORMAL"; "NORMAL"; "NORMAL"] None
              [("pressure", Float64 [Some 1%Q; Some 2%Q; Some 3%Q])].

End FillSpec.

(** ** Counting rows and cells *)

Module CountSpec.

(** The number of rows whose status is [v]. *)
Definition status_count (v : string) (df : DataFrame) : nat :=
  count_occ string_dec (machine_status df) v.

(** The number of values a column holds. *)
Definition column_rows (c : column) : nat :=
  match c with
  | Float64 xs => length xs
  | Object xs => length xs
  end.

(** The number of missing cells of the sensor columns. *)
Definition missing_cells (df : DataFrame) : nat :=
  fold_right Nat.add 0%nat
             (map (fun nc => match snd nc with
                             | Float64 xs => HealthSpec.count_missing xs
                             | Object _ => 0%nat
                             end)
                  (sensor_cols df)).

(** The span of a series of timestamps: last minus first. *)
Definition span (ts : list Z) : Z := last ts 0 - hd 0 ts.

(** The seconds the events last, from their timestamps. *)
Definition downtime_seconds (events : list AnomalyInsights.Event) : Z :=
  fold_right Z.add 0
             (map (fun e => AnomalyInsights.end_time e
                            - AnomalyInsights.start_time e) events).

End CountSpec.

(** ** A projection that computes *)

Module ProjectionSpec.

(** The first two features of the scaled array: an instance of the
    class that evaluates, for the examples. *)
Definition first_two_features : EtlPipeline.Projection :=
  {| EtlPipeline.principal_components :=
       fun X => (hd [] X, hd [] (List.tl X)) |}.

(** The anomaly score in the words of the specification: the distance
    of the two components from the origin, row by row. *)
Definition distance_from_origin `{SquareRoot} (pca_1 pca_2 : list Q)
  : list float :=
  map (fun p => Some (sqrtQ (fst p * fst p + snd p * snd p))%Q)
      (combine pca_1 pca_2).

(** [c] is an upper-case ASCII letter. *)
Definition is_upper (c : ascii) : bool :=
  (Nat.leb 65 (nat_of_ascii c) && Nat.leb (nat_of_ascii c) 90)%bool.

(** Every character of the name is an ASCII character. *)
Definition is_ascii (name : string) : bool :=
  forallb (fun c => Nat.ltb (nat_of_ascii c) 128) (list_ascii_of_string name).

(** The first column of the frame called [name]. *)
Definition lookup (name : string) (cols : list (string * column))
  : option column :=
  option_map snd (find (fun nc => String.eqb (fst nc) name) cols).

End ProjectionSpec.

(** * Verification *)

(** ** The computing square root obeys the laws *)

Lemma sqrt_up6_nonneg : forall q, (0 <= sqrt_up6 q)%Q.
Proof.
  intro q. unfold sqrt_up6, Qle. cbn [Qnum Qden].
  rewrite Z.mul_1_r. pose proof (Z.sqrt_up_nonneg (Qnum (Qred q) * Zpos (Qden (Qred q)) * 1000000000000)).
  lia.
Qed.

Lemma sqrt_up6_zero : (sqrt_up6 0 == 0)%Q.
Proof. reflexivity. Qed.

Lemma sqrt_up6_pos : forall q, (0 < q)%Q -> (0 < sqrt_up6 q)%Q.
Proof.
  intros q Hq. rewrite <- (Qred_correct q) in Hq.
  unfold sqrt_up6, Qlt in *. cbn [Qnum Qden] in *.
  rewrite Z.mul_1_r in *. rewrite Z.mul_0_l in *.
  apply Z.sqrt_up_pos. lia.
Qed.

Lemma sqrt_up6_compat : forall p q, (p == q)%Q -> (sqrt_up6 p == sqrt_up6 q)%Q.
Proof.
  intros p q Hpq. unfold sqrt_up6.
  rewrite (Qred_complete p q Hpq). reflexivity.
Qed.

#[export] Instance sqrt_up6_SquareRoot : SquareRoot :=
  {| sqrtQ := sqrt_up6;
     sqrtQ_nonneg := sqrt_up6_nonneg;
     sqrtQ_zero := sqrt_up6_zero;
     sqrtQ_pos := sqrt_up6_pos;
     sqrtQ_compat := sqrt_up6_compat |}.

(** ** The deviation of pandas obeys the law *)

Lemma nanstd_few :
  forall xs, (length (dropna xs) < 2)%nat -> Binary64.nanstd xs = None.
Proof.
  intros xs H. unfold Binary64.nanstd. rewrite length_map.
  destruct (Nat.leb_spec (length (dropna xs)) 1) as [_|Hgt]; [reflexivity|lia].
Qed.

Definition binary64_Deviation : Deviation :=
  {| std64 := Binary64.nanstd;
     std64_few := nanstd_few |}.

(** ** Generic facts: sorting, grouping, loops *)

Section Sorting.

Context {A : Type} (leb : A -> A -> bool).

Lemma insert_by_perm : forall x l, Permutation (x :: l) (insert_by leb x l).
Proof.
  intros x l. induction l as [|y r IH]; simpl.
  - apply Permutation_refl.
  - destruct (leb x y).
    + apply Permutation_refl.
    + eapply perm_trans; [apply perm_swap|].
      apply perm_skip. exact IH.
Qed.

Lemma sort_by_perm : forall l, Permutation l (sort_by leb l).
Proof.
  induction l as [|x l IH]; simpl.
  - constructor.
  - eapply perm_trans; [apply perm_skip; exact IH|].
    apply insert_by_perm.
Qed.

Lemma sort_by_length : forall l, length (sort_by leb l) = length l.
Proof.
  intro l. symmetry. apply Permutation_length, sort_by_perm.
Qed.

Hypothesis leb_total : forall x y, leb x y = true \/ leb y x = true.

Lemma insert_by_sorted :
  forall x l,
    Sorted (fun a b => leb a b = true) l ->
    Sorted (fun a b => leb a b = true) (insert_by leb x l).
Proof.
  intros x l Hs. induction Hs as [|y r Hr IH Hhd]; simpl.
  - repeat constructor.
  - destruct (leb x y) eqn:E.
    + constructor; [constructor; assumption|]. constructor. exact E.
    + constructor; [exact IH|].
      destruct r as [|z r']; simpl.
      * constructor. destruct (leb_total x y) as [H|H]; congruence.
      * destruct (leb x z).
        -- constructor. destruct (leb_total x y) as [H|H]; congruence.
        -- inversion Hhd; subst. constructor. assumption.
Qed.

Lemma sort_by_sorted :
  forall l, Sorted (fun a b => leb a b = true) (sort_by leb l).
Proof.
  induction l as [|x l IH]; simpl.
  - constructor.
  - apply insert_by_sorted. exact IH.
Qed.

End Sorting.

Section Grouping.

Context {A : Type}.

(** Every group that [add_to_group] leaves is inhabited and holds only
    old members or the new one. *)
Lemma add_to_group_members :
  forall (P : A -> Prop) k r gs,
    P r ->
    Forall (fun kg => snd kg <> [] /\ Forall P (snd kg)) gs ->
    Forall (fun kg => snd kg <> [] /\ Forall P (snd kg))
           (add_to_group k r gs).
Proof.
  intros P k r gs Hr Hgs. induction Hgs as [|[k' g] rest [Hne HP] Hrest IH]; simpl.
  - constructor; [|constructor]. simpl. split; [discriminate|].
    constructor; [exact Hr|constructor].
  - destruct (Nat.eqb k k').
    + constructor; [|exact Hrest]. simpl in *. split.
      * destruct g; discriminate.
      * apply Forall_app. split; [exact HP|]. constructor; [exact Hr|constructor].
    + destruct (Nat.ltb k k').
      * constructor; [|constructor; [split; assumption| exact Hrest]].
        simpl. split; [discriminate|]. constructor; [exact Hr|constructor].
      * constructor; [split; assumption | exact IH].
Qed.

Lemma fold_add_to_group_members :
  forall (P : A -> Prop) (krs : list (nat * A)) gs,
    Forall (fun kr => P (snd kr)) krs ->
    Forall (fun kg => snd kg <> [] /\ Forall P (snd kg)) gs ->
    Forall (fun kg => snd kg <> [] /\ Forall P (snd kg))
           (fold_left (fun gs kr => add_to_group (fst kr) (snd kr) gs) krs gs).
Proof.
  intros P krs. induction krs as [|[k r] krs IH]; intros gs Hk Hgs; simpl.
  - exact Hgs.
  - inversion Hk; subst. apply IH; [assumption|].
    apply add_to_group_members; assumption.
Qed.

Lemma groupby_members :
  forall (P : A -> Prop) keys rows,
    Forall P rows ->
    Forall (fun kg => snd kg <> [] /\ Forall P (snd kg)) (groupby keys rows).
Proof.
  intros P keys rows HP. unfold groupby.
  apply fold_add_to_group_members; [|constructor].
  rewrite Forall_forall in *. intros [k r] Hin. simpl.
  apply HP. eapply in_combine_r. exact Hin.
Qed.

(** A key above every key present opens a new last group; the key of
    the last group extends that group. *)
Lemma add_to_group_new :
  forall k (r : A) gs,
    Forall (fun kg => (fst kg < k)%nat) gs ->
    add_to_group k r gs = gs ++ [(k, [r])].
Proof.
  intros k r gs H. induction H as [|[k' g] rest Hlt _ IH]; simpl.
  - reflexivity.
  - simpl in Hlt.
    destruct (Nat.eqb_spec k k') as [->|_]; [lia|].
    destruct (Nat.ltb_spec k k') as [Hc|_]; [lia|].
    rewrite IH. reflexivity.
Qed.

Lemma add_to_group_last :
  forall k (r : A) gs g,
    Forall (fun kg => (fst kg < k)%nat) gs ->
    add_to_group k r (gs ++ [(k, g)]) = gs ++ [(k, g ++ [r])].
Proof.
  intros k r gs g H. induction H as [|[k' g'] rest Hlt _ IH]; simpl.
  - rewrite Nat.eqb_refl. reflexivity.
  - simpl in Hlt.
    destruct (Nat.eqb_spec k k') as [->|_]; [lia|].
    destruct (Nat.ltb_spec k k') as [Hc|_]; [lia|].
    rewrite IH. reflexivity.
Qed.

End Grouping.


(** ** The event extractor *)

Section EventExtractor.

Import AnomalyInsights EventSpec.

Lemma collect_none :
  forall {A B : Type} (body : A -> result (option B)) l,
    Forall (fun a => body a = Ok None) l -> collect body l = Ok [].
Proof.
  intros A B body l H. induction H as [|a r Ha _ IH]; simpl.
  - reflexivity.
  - rewrite Ha, IH. reflexivity.
Qed.

Lemma itertuples_status_in :
  forall df r, In r (itertuples df) -> In (row_machine_status r) (machine_status df).
Proof.
  intros df r. unfold itertuples.
  destruct (anomaly_score df) as [scores|]; intro H;
    apply in_map_iff in H; destruct H as [x [<- Hx]]; simpl.
  - destruct x as [t [s a]]. simpl.
    apply in_combine_r in Hx. apply in_combine_l in Hx. exact Hx.
  - destruct x as [t s]. simpl. apply in_combine_r in Hx. exact Hx.
Qed.

Lemma event_of_group_not_failure :
  forall has_score g,
    g <> [] ->
    Forall (fun r => isin (row_machine_status r) failure_statuses = false) g ->
    event_of_group has_score g = Ok None.
Proof.
  intros has_score [|r g] Hne Hall; [congruence|].
  inversion Hall as [|? ? Hr _]; subst. unfold event_of_group.
  rewrite Hr. reflexivity.
Qed.

(** C10.  A dataset that has rows but no row whose status is BROKEN or
    RECOVERING makes the extractor raise: the frame built from the empty
    list of events has no column [start_time] to sort by.  A dataset
    without rows returns the empty frame. *)
Theorem get_anomaly_events_raises_without_failures :
  forall df threshold,
    empty df = false ->
    Forall (fun s => isin s failure_statuses = false) (machine_status df) ->
    get_anomaly_events df threshold = Raise (KeyError "start_time") /\
    (forall df0,
        empty df0 = true -> get_anomaly_events df0 threshold = Ok NoColumns).
Proof.
  intros df threshold Hne Hst. split.
  - unfold get_anomaly_events. rewrite Hne.
    rewrite collect_none; [reflexivity|].
    apply Forall_map.
    eapply Forall_impl;
      [| apply (groupby_members
                  (fun r => isin (row_machine_status r) failure_statuses = false))].
    + intros [k g] [Hg HP]. simpl in *.
      apply event_of_group_not_failure; assumption.
    + rewrite Forall_forall in *. intros r Hr.
      apply Hst. apply itertuples_status_in. exact Hr.
  - intros df0 H0. unfold get_anomaly_events. rewrite H0. reflexivity.
Qed.

Lemma get_anomaly_events_raises_without_failures_witness :
  get_anomaly_events (mkDataFrame [0; 60] ["NORMAL"; "NORMAL"] None []) 2
  = Raise (KeyError "start_time") /\
  get_anomaly_events no_data 2 = Ok NoColumns.
Proof.
  destruct (get_anomaly_events_raises_without_failures
              (mkDataFrame [0; 60] ["NORMAL"; "NORMAL"] None []) 2)
    as [Hraise Hempty].
  - reflexivity.
  - repeat constructor.
  - split; [exact Hraise|]. apply Hempty. reflexivity.
Defined.

(** *** The groups of [groupby] are the runs *)

Lemma ne_shifted_shift :
  forall s, ne_shifted (shift s) s = changes_from None s.
Proof.
  intros [|x r]; [reflexivity|].
  unfold shift, ne_shifted. cbn [combine map fst snd changes_from]. f_equal.
  revert x. induction r as [|y r IH]; intro x.
  - reflexivity.
  - change (removelast (x :: y :: r)) with (x :: removelast (y :: r)).
    cbn [combine map fst snd changes_from]. f_equal. apply IH.
Qed.

Lemma fold_groups_runs :
  forall l acc k current prev,
    Forall (fun kg : nat * list Row => (fst kg < k)%nat) acc ->
    map snd
        (fold_left (fun gs kr => add_to_group (fst kr) (snd kr) gs)
                   (combine (cumsum_from k
                               (changes_from (Some prev)
                                             (map row_machine_status l)))
                            l)
                   (acc ++ [(k, current)]))
    = map snd acc ++ runs_from current prev l.
Proof.
  induction l as [|r l IH]; intros acc k current prev Hacc.
  - simpl. rewrite map_app. reflexivity.
  - cbn [map changes_from cumsum_from combine fold_left fst snd runs_from].
    destruct (String.eqb prev (row_machine_status r)); cbn [negb].
    + rewrite add_to_group_last by exact Hacc.
      apply IH. exact Hacc.
    + rewrite add_to_group_new.
      * rewrite IH.
        -- rewrite map_app, <- app_assoc. reflexivity.
        -- apply Forall_app. split.
           ++ eapply Forall_impl; [|exact Hacc]. intros a Ha. simpl in *. lia.
           ++ constructor; [simpl; lia|constructor].
      * apply Forall_app. split.
        -- eapply Forall_impl; [|exact Hacc]. intros a Ha. simpl in *. lia.
        -- constructor; [simpl; lia|constructor].
Qed.

Lemma groupby_runs :
  forall rows,
    map snd (groupby (cumsum (changes_from None (map row_machine_status rows)))
                     rows)
    = runs rows.
Proof.
  intros [|r l]; [reflexivity|].
  unfold groupby, cumsum, runs.
  cbn [map changes_from cumsum_from combine fold_left fst snd add_to_group].
  apply (fold_groups_runs l [] 1%nat [r] (row_machine_status r)).
  constructor.
Qed.

Lemma map_combine_fst :
  forall {A B : Type} (l : list A) (l' : list B),
    length l = length l' -> map fst (combine l l') = l.
Proof.
  induction l as [|a l IH]; intros [|b l'] H; simpl in *; try congruence.
  f_equal. apply IH. congruence.
Qed.

Lemma map_combine_snd :
  forall {A B : Type} (l : list A) (l' : list B),
    length l = length l' -> map snd (combine l l') = l'.
Proof.
  induction l as [|a l IH]; intros [|b l'] H; simpl in *; try congruence.
  f_equal. apply IH. congruence.
Qed.

Lemma itertuples_statuses :
  forall df,
    well_formed df ->
    map row_machine_status (itertuples df) = machine_status df.
Proof.
  intros df [Hts Hsc]. unfold itertuples.
  destruct (anomaly_score df) as [scores|]; rewrite map_map; simpl.
  - rewrite <- (map_map snd fst), map_combine_snd.
    + apply map_combine_fst. congruence.
    + rewrite length_combine, Hsc, Nat.min_id. exact Hts.
  - change (fun x : Z * string => snd x) with (@snd Z string).
    apply map_combine_snd. exact Hts.
Qed.

Lemma itertuples_timestamps :
  forall df,
    well_formed df ->
    map row_timestamp (itertuples df) = timestamp df.
Proof.
  intros df [Hts Hsc]. unfold itertuples.
  destruct (anomaly_score df) as [scores|]; rewrite map_map; simpl.
  - change (fun x : Z * (string * float) => fst x) with (@fst Z (string * float)).
    apply map_combine_fst.
    rewrite length_combine, Hsc, Nat.min_id. exact Hts.
  - change (fun x : Z * string => fst x) with (@fst Z string).
    apply map_combine_fst. exact Hts.
Qed.

Lemma state_groups_runs :
  forall df,
    well_formed df ->
    map snd
        (groupby (cumsum (ne_shifted (shift (machine_status df))
                                     (machine_status df)))
                 (itertuples df))
    = runs (itertuples df).
Proof.
  intros df Hwf. rewrite ne_shifted_shift.
  rewrite <- (itertuples_statuses df Hwf). apply groupby_runs.
Qed.


(** *** The runs partition the rows into maximal same-status groups *)

Lemma runs_from_concat :
  forall l current prev, concat (runs_from current prev l) = current ++ l.
Proof.
  induction l as [|r l IH]; intros current prev; simpl.
  - reflexivity.
  - destruct (String.eqb prev (row_machine_status r)); simpl; rewrite IH.
    + rewrite <- app_assoc. reflexivity.
    + reflexivity.
Qed.

Lemma runs_concat : forall l, concat (runs l) = l.
Proof.
  intros [|r l]; [reflexivity|]. unfold runs. apply runs_from_concat.
Qed.

Lemma group_status_of :
  forall g s, g <> [] -> has_status s g -> group_status g = s.
Proof.
  intros [|r g] s Hne H; [congruence|]. inversion H; subst. reflexivity.
Qed.

Lemma runs_from_uniform :
  forall l current prev,
    current <> [] -> has_status prev current ->
    Forall (fun g => g <> [] /\ has_status (group_status g) g)
           (runs_from current prev l).
Proof.
  induction l as [|r l IH]; intros current prev Hne Hst; simpl.
  - constructor; [|constructor].
    rewrite (group_status_of current prev Hne Hst). split; assumption.
  - destruct (String.eqb_spec prev (row_machine_status r)) as [E|E].
    + apply IH.
      * destruct current; discriminate.
      * apply Forall_app. split; [rewrite <- E; exact Hst|].
        constructor; [reflexivity|constructor].
    + constructor.
      * rewrite (group_status_of current prev Hne Hst). split; assumption.
      * apply IH; [discriminate|]. constructor; [reflexivity|constructor].
Qed.

Lemma runs_uniform :
  forall l,
    Forall (fun g => g <> [] /\ has_status (group_status g) g) (runs l).
Proof.
  intros [|r l]; [constructor|]. unfold runs.
  apply runs_from_uniform; [discriminate|].
  constructor; [reflexivity|constructor].
Qed.

Lemma runs_from_head :
  forall l current prev,
    current <> [] -> has_status prev current ->
    exists g rest, runs_from current prev l = g :: rest /\ group_status g = prev.
Proof.
  induction l as [|r l IH]; intros current prev Hne Hst; simpl.
  - exists current, []. split; [reflexivity|]. apply group_status_of; assumption.
  - destruct (String.eqb_spec prev (row_machine_status r)) as [E|E].
    + rewrite E. apply IH.
      * destruct current; discriminate.
      * apply Forall_app. split; [rewrite <- E; exact Hst|].
        constructor; [reflexivity|constructor].
    + eexists _, _. split; [reflexivity|]. apply group_status_of; assumption.
Qed.

(** Maximality: a group and the next one never share their status. *)
Lemma runs_from_maximal :
  forall l current prev,
    current <> [] -> has_status prev current ->
    Sorted (fun g g' => group_status g <> group_status g')
           (runs_from current prev l).
Proof.
  induction l as [|r l IH]; intros current prev Hne Hst; simpl.
  - repeat constructor.
  - destruct (String.eqb_spec prev (row_machine_status r)) as [E|E].
    + apply IH.
      * destruct current; discriminate.
      * apply Forall_app. split; [rewrite <- E; exact Hst|].
        constructor; [reflexivity|constructor].
    + assert (Hr : has_status (row_machine_status r) [r])
        by (constructor; [reflexivity|constructor]).
      constructor.
      * apply IH; [discriminate|exact Hr].
      * destruct (runs_from_head l [r] (row_machine_status r)) as [g [rest [-> Hg]]];
          [discriminate|exact Hr|].
        constructor. rewrite Hg.
        rewrite (group_status_of current prev Hne Hst). exact E.
Qed.

Lemma runs_maximal :
  forall l,
    Sorted (fun g g' => group_status g <> group_status g') (runs l).
Proof.
  intros [|r l]; [constructor|]. unfold runs.
  apply runs_from_maximal; [discriminate|].
  constructor; [reflexivity|constructor].
Qed.

(** *** The events of the runs *)

Lemma fold_min_lower_bound :
  forall l a, Forall (fun x => a <= x) l -> fold_left Z.min l a = a.
Proof.
  induction l as [|b l IH]; intros a H; simpl.
  - reflexivity.
  - inversion H; subst. rewrite Z.min_l by assumption. apply IH. assumption.
Qed.

Lemma fold_max_sorted :
  forall l a, StronglySorted Z.le (a :: l) -> fold_left Z.max l a = last (a :: l) 0.
Proof.
  induction l as [|b l IH]; intros a H.
  - reflexivity.
  - inversion H as [|? ? Hs Hall]; subst. inversion Hall; subst.
    cbn [fold_left]. rewrite Z.max_r by assumption.
    rewrite IH by exact Hs. reflexivity.
Qed.

Lemma StronglySorted_app_parts :
  forall {A : Type} (R : A -> A -> Prop) l l',
    StronglySorted R (l ++ l') -> StronglySorted R l /\ StronglySorted R l'.
Proof.
  intros A R l l'. induction l as [|a l IH]; simpl; intro H.
  - split; [constructor|exact H].
  - inversion H as [|? ? Hs Hall]; subst.
    destruct (IH Hs) as [H1 H2]. split; [|exact H2].
    constructor; [exact H1|].
    apply Forall_app in Hall. tauto.
Qed.

Lemma sorted_groups :
  forall gs : list (list Row),
    StronglySorted Z.le (map row_timestamp (concat gs)) ->
    Forall (fun g => StronglySorted Z.le (map row_timestamp g)) gs.
Proof.
  induction gs as [|g gs IH]; simpl; intro H.
  - constructor.
  - rewrite map_app in H. apply StronglySorted_app_parts in H.
    destruct H as [H1 H2]. constructor; [exact H1|apply IH; exact H2].
Qed.

Lemma event_of_sorted_group :
  forall g,
    g <> [] ->
    StronglySorted Z.le (map row_timestamp g) ->
    event_of_group true g
    = Ok (if is_failure g then Some (event_of_run g) else None).
Proof.
  intros [|r g] Hne Hs; [congruence|].
  unfold event_of_group, is_failure, event_of_run.
  cbn [group_status].
  destruct (isin (row_machine_status r) failure_statuses); [|reflexivity].
  cbn [map fold_left hd]. rewrite Z.min_id, Z.max_id.
  inversion Hs as [|? ? Hs' Hall]; subst.
  rewrite fold_min_lower_bound by exact Hall.
  change (map row_timestamp (r :: g)) with (row_timestamp r :: map row_timestamp g) in Hs.
  rewrite (fold_max_sorted _ _ Hs). reflexivity.
Qed.

Lemma collect_sorted_groups :
  forall gs,
    Forall (fun g => g <> []) gs ->
    Forall (fun g => StronglySorted Z.le (map row_timestamp g)) gs ->
    collect (event_of_group true) gs
    = Ok (map event_of_run (filter is_failure gs)).
Proof.
  induction gs as [|g gs IH]; intros Hne Hs; simpl.
  - reflexivity.
  - inversion Hne; subst. inversion Hs; subst.
    rewrite event_of_sorted_group by assumption.
    rewrite IH by assumption. simpl.
    destruct (is_failure g); reflexivity.
Qed.

Lemma Sorted_weaken :
  forall {A : Type} (R R' : A -> A -> Prop) l,
    (forall a b, R a b -> R' a b) -> Sorted R l -> Sorted R' l.
Proof.
  intros A R R' l HR H. induction H as [|a l Hs IH Hhd].
  - constructor.
  - constructor; [exact IH|]. destruct Hhd; constructor. apply HR. assumption.
Qed.

Lemma newest_first_total :
  forall a b, newest_first a b = true \/ newest_first b a = true.
Proof.
  intros a b. unfold newest_first.
  destruct (Z.leb_spec (start_time b) (start_time a)); [left; reflexivity|].
  right. apply Z.leb_le. lia.
Qed.

Lemma fold_Qmaxb_maximum :
  forall v q,
    In (fold_left Qmaxb v q) (q :: v)
    /\ Forall (fun x => (x <= fold_left Qmaxb v q)%Q) (q :: v).
Proof.
  induction v as [|y v IH]; intro q.
  - split; [left; reflexivity|]. constructor; [apply Qle_refl|constructor].
  - cbn [fold_left]. destruct (IH (Qmaxb q y)) as [Hin Hall].
    inversion Hall as [|? ? Hm Hv]; subst.
    unfold Qmaxb in *. destruct (Qle_bool q y) eqn:E.
    + split; [right; exact Hin|].
      constructor; [|constructor; assumption].
      apply Qle_bool_iff in E. eapply Qle_trans; eassumption.
    + split.
      * destruct Hin as [Hin|Hin]; [left; exact Hin|right; right; exact Hin].
      * constructor; [exact Hm|]. constructor; [|exact Hv].
        assert (Hyq : (y <= q)%Q).
        { destruct (Qlt_le_dec y q) as [H|H]; [apply Qlt_le_weak; exact H|].
          apply Qle_bool_iff in H. congruence. }
        eapply Qle_trans; eassumption.
Qed.

Lemma In_dropna :
  forall xs x, In x (dropna xs) <-> In (Some x) xs.
Proof.
  intros xs x. induction xs as [|[q|] r IH]; simpl.
  - tauto.
  - rewrite IH. split; intros [E|E]; auto; left; congruence.
  - rewrite IH. split; [auto|]. intros [E|E]; [discriminate|exact E].
Qed.

(** The peak score of a run is one of its scores and bounds them all. *)
Lemma max_is_maximum :
  forall xs m,
    Pandas.max xs = Some m ->
    In (Some m) xs /\ forall x, In (Some x) xs -> (x <= m)%Q.
Proof.
  intros xs m H. unfold Pandas.max in H.
  pose proof (In_dropna xs) as Hd.
  destruct (dropna xs) as [|q v]; [discriminate|]. injection H as <-.
  destruct (fold_Qmaxb_maximum v q) as [Hin Hall]. split.
  - apply Hd. exact Hin.
  - intros x Hx. apply Hd in Hx. rewrite Forall_forall in Hall.
    apply Hall. exact Hx.
Qed.

(** What the extractor computes on a sorted frame that holds at least one
    failure row: the groups of the scan are the runs, which cut the rows
    into maximal stretches of one status; every failure run gives one
    event (first and last timestamp, minutes between them, status, peak
    score), and the events come newest first. *)
Lemma get_anomaly_events_on_failures :
  forall df threshold scores,
    well_formed df ->
    anomaly_score df = Some scores ->
    Sorted Z.le (timestamp df) ->
    Exists (fun s => isin s failure_statuses = true) (machine_status df) ->
    concat (runs (itertuples df)) = itertuples df
    /\ Forall (fun g => g <> [] /\ has_status (group_status g) g)
              (runs (itertuples df))
    /\ Sorted (fun g g' => group_status g <> group_status g')
              (runs (itertuples df))
    /\ exists events,
        get_anomaly_events df threshold = Ok (Records events) /\
        Permutation events
                    (map event_of_run (filter is_failure (runs (itertuples df)))) /\
        Sorted (fun a b => start_time b <= start_time a) events.
Proof.
  intros df threshold scores Hwf Hsc Hsorted Hex.
  pose proof (runs_uniform (itertuples df)) as Hu.
  pose proof (runs_concat (itertuples df)) as Hc.
  split; [exact Hc|]. split; [exact Hu|].
  split; [apply runs_maximal|].
  assert (Hgs : Forall (fun g => StronglySorted Z.le (map row_timestamp g))
                       (runs (itertuples df))).
  { apply sorted_groups. rewrite Hc, itertuples_timestamps by exact Hwf.
    apply Sorted_StronglySorted; [|exact Hsorted].
    intros x y z. apply Z.le_trans. }
  assert (Hne : Forall (fun g : list Row => g <> []) (runs (itertuples df))).
  { eapply Forall_impl; [|exact Hu]. intros g [H _]. exact H. }
  assert (Hfail : filter is_failure (runs (itertuples df)) <> []).
  { apply Exists_exists in Hex. destruct Hex as [s [Hin Hs]].
    rewrite <- (itertuples_statuses df Hwf) in Hin.
    apply in_map_iff in Hin. destruct Hin as [r [Hr Hin]].
    rewrite <- Hc in Hin. apply in_concat in Hin.
    destruct Hin as [g [Hg Hrg]].
    assert (Hf : is_failure g = true).
    { rewrite Forall_forall in Hu. destruct (Hu g Hg) as [_ Hst].
      unfold has_status in Hst. rewrite Forall_forall in Hst.
      unfold is_failure. rewrite <- (Hst r Hrg), Hr. exact Hs. }
    intro Hnil.
    assert (Hin' : In g (filter is_failure (runs (itertuples df))))
      by (apply filter_In; split; assumption).
    rewrite Hnil in Hin'. exact Hin'. }
  exists (sort_by newest_first
                  (map event_of_run (filter is_failure (runs (itertuples df))))).
  split; [|split].
  - unfold get_anomaly_events.
    assert (Hempty : empty df = false).
    { unfold empty, len. destruct (machine_status df); [|reflexivity].
      inversion Hex. }
    rewrite Hempty, Hsc, (state_groups_runs df Hwf).
    rewrite collect_sorted_groups by assumption.
    cbn [bind].
    destruct (map event_of_run (filter is_failure (runs (itertuples df))))
      as [|e es] eqn:E.
    + apply map_eq_nil in E. contradiction.
    + reflexivity.
  - apply Permutation_sym, sort_by_perm.
  - eapply Sorted_weaken; [|apply sort_by_sorted; apply newest_first_total].
    intros a b H. unfold newest_first in H. apply Z.leb_le. exact H.
Qed.

End EventExtractor.

(** ** The event extractor on the sequences of the claim *)

Section EventExamples.

Import AnomalyInsights EventSpec.

(** C1.  The extractor does not return on every sorted non-empty
    sequence: on rows that are all NORMAL the loop appends no event, the
    frame of the events has no column, and sorting it by [start_time]
    raises a KeyError instead of returning the empty list of events.  (On
    the sequence NORMAL, NORMAL, BROKEN, BROKEN, NORMAL, BROKEN it returns
    the two BROKEN events, newest first.) *)
Theorem get_anomaly_events_all_normal_raises :
  get_anomaly_events
    (mkDataFrame [0; 60; 120] ["NORMAL"; "NORMAL"; "NORMAL"]
                 (Some [Some 1%Q; Some 2%Q; Some 1%Q]) [])
    2
  = Raise (KeyError "start_time")
  /\
  get_anomaly_events
    (mkDataFrame [0; 60; 120; 180; 240; 300]
                 ["NORMAL"; "NORMAL"; "BROKEN"; "BROKEN"; "NORMAL"; "BROKEN"]
                 (Some [Some 1%Q; Some 2%Q; Some 5%Q; Some 3%Q; Some 1%Q; Some 4%Q])
                 [])
    2
  = Ok (Records [ {| start_time := 300; end_time := 300;
                     duration_mins := (0 # 1) / 60;
                     status := "BROKEN"; max_anomaly_score := Some 4%Q |};
                  {| start_time := 120; end_time := 180;
                     duration_mins := (60 # 1) / 60;
                     status := "BROKEN"; max_anomaly_score := Some 5%Q |} ]).
Proof.
  split; reflexivity.
Qed.

End EventExamples.

(** ** The reliability calculator and the risk estimator *)

Section Metrics.

Import AnomalyInsights MetricsSpec.

Lemma select_map_filter :
  forall {A : Type} (p : A -> bool) (l : list A),
    select (map p l) l = filter p l.
Proof.
  intros A p l. induction l as [|a l IH]; simpl.
  - reflexivity.
  - destruct (p a); rewrite IH; reflexivity.
Qed.

Lemma failures_nonempty :
  forall events,
    Exists (fun e => isin (status e) failure_statuses = true) events ->
    failures events <> [].
Proof.
  intros events H Hnil. apply Exists_exists in H. destruct H as [e [Hin He]].
  assert (Hf : In e (failures events)) by (apply filter_In; split; assumption).
  rewrite Hnil in Hf. exact Hf.
Qed.

Lemma failures_empty :
  forall events,
    Forall (fun e => isin (status e) failure_statuses = false) events ->
    failures events = [].
Proof.
  intros events H. induction H as [|e r He _ IH].
  - reflexivity.
  - unfold failures in *. cbn [filter]. rewrite He. exact IH.
Qed.

(** C2.  With at least one failure event the calculator returns
    MTBF = (total - downtime) / failures in hours and
    MTTR = (downtime / failures) * 60 in minutes, whatever the total: a
    total below the downtime gives a negative MTBF.  One failure of 60
    minutes in 10 hours gives MTBF 9 and MTTR 60. *)
Theorem calculate_reliability_metrics_formula :
  forall events_df total_duration_hours,
    Exists (fun e => isin (status e) failure_statuses = true)
           (frame_rows events_df) ->
    exists mtbf mttr,
      calculate_reliability_metrics events_df total_duration_hours
      = Ok {| MTBF := Finite mtbf; MTTR := Finite mttr |}
      /\ (mtbf == (total_duration_hours
                   - total_downtime_hours (frame_rows events_df))
                  / num_failures (frame_rows events_df))%Q
      /\ (mttr == (total_downtime_hours (frame_rows events_df)
                   / num_failures (frame_rows events_df)) * 60)%Q
      /\ ((total_duration_hours
           < total_downtime_hours (frame_rows events_df))%Q ->
          (mtbf < 0)%Q).
Proof.
  intros events_df total Hex.
  pose proof (failures_nonempty _ Hex) as Hne.
  destruct events_df as [|rows]; [inversion Hex|].
  cbn [frame_rows] in *.
  unfold calculate_reliability_metrics.
  destruct rows as [|e0 rows0] eqn:Erows; [inversion Hex|].
  rewrite <- Erows in *.
  assert (Hfe : frame_empty (Records rows) = false) by (rewrite Erows; reflexivity).
  rewrite Hfe. cbn [frame_column bind frame_select frame_rows].
  rewrite map_map, (select_map_filter (fun e => isin (status e) failure_statuses)).
  fold (failures rows).
  destruct (failures rows) as [|f fs] eqn:Ef; [congruence|].
  cbn [length Nat.eqb Nat.ltb Nat.leb].
  eexists _, _. split; [reflexivity|].
  unfold total_downtime_hours, num_failures. rewrite Ef.
  split; [reflexivity|]. split; [reflexivity|].
  intro Hlt.
  set (n := inject_Z (Z.of_nat (length (f :: fs)))).
  assert (Hn : (0 < n)%Q).
  { unfold n. change 0%Q with (inject_Z 0). rewrite <- Zlt_Qlt.
    simpl length. lia. }
  set (d := (Qsum (map duration_mins (f :: fs)) / 60)%Q) in *.
  apply Qlt_shift_div_r; [exact Hn|]. lra.
Qed.

Lemma calculate_reliability_metrics_formula_witness :
  exists mtbf mttr,
    calculate_reliability_metrics
      (Records [mkEvent 0 3600 60 "BROKEN" None]) 10
    = Ok {| MTBF := Finite mtbf; MTTR := Finite mttr |}
    /\ (mtbf == 9)%Q /\ (mttr == 60)%Q.
Proof.
  destruct (calculate_reliability_metrics_formula
              (Records [mkEvent 0 3600 60 "BROKEN" None]) 10)
    as (mtbf & mttr & Hr & Hmtbf & Hmttr & _).
  - constructor. reflexivity.
  - exists mtbf, mttr. split; [exact Hr|]. split.
    + rewrite Hmtbf. reflexivity.
    + rewrite Hmttr. reflexivity.
Defined.

(** C3.  Without a failure event (the empty list included) the
    calculator returns the sentinel MTBF = infinity, MTTR = 0, and it
    returns: no exception is raised. *)
Theorem calculate_reliability_metrics_sentinel :
  forall events_df total_duration_hours,
    Forall (fun e => isin (status e) failure_statuses = false)
           (frame_rows events_df) ->
    calculate_reliability_metrics events_df total_duration_hours
    = Ok {| MTBF := Infinity; MTTR := Finite 0 |}.
Proof.
  intros events_df total H.
  unfold calculate_reliability_metrics.
  destruct events_df as [|rows]; [reflexivity|].
  cbn [frame_rows] in H.
  destruct rows as [|e0 rows0] eqn:Erows; [reflexivity|].
  rewrite <- Erows in *.
  assert (Hfe : frame_empty (Records rows) = false) by (rewrite Erows; reflexivity).
  rewrite Hfe. cbn [frame_column bind frame_select frame_rows].
  rewrite map_map, (select_map_filter (fun e => isin (status e) failure_statuses)).
  fold (failures rows). rewrite (failures_empty rows H). reflexivity.
Qed.

Lemma calculate_reliability_metrics_sentinel_witness :
  calculate_reliability_metrics
    (Records [mkEvent 0 60 1 "MAINTENANCE" None]) 10
  = Ok {| MTBF := Infinity; MTTR := Finite 0 |}.
Proof.
  apply (calculate_reliability_metrics_sentinel
           (Records [mkEvent 0 60 1 "MAINTENANCE" None]) 10).
  repeat constructor.
Defined.


Lemma Qsum_scaled_durations :
  forall c rows,
    (Qsum (map duration_mins
               (map (fun e => {| start_time := start_time e;
                                 end_time := end_time e;
                                 duration_mins := c * duration_mins e;
                                 status := status e;
                                 max_anomaly_score := max_anomaly_score e |})
                    rows))
     == c * Qsum (map duration_mins rows))%Q.
Proof.
  intros c rows. induction rows as [|e r IH]; simpl.
  - ring.
  - rewrite IH. ring.
Qed.

(** C8.  The risk is the sum of the durations of all events of the list,
    whatever their status, times the cost rate; it is 0 for a list
    without events; and doubling every duration doubles it. *)
Theorem calculate_financial_risk_linear :
  forall events_df cost_per_minute,
    exists risk doubled,
      calculate_financial_risk events_df cost_per_minute = Ok risk
      /\ (risk == Qsum (map duration_mins (frame_rows events_df))
                  * cost_per_minute)%Q
      /\ (frame_rows events_df = [] -> risk = 0%Q)
      /\ calculate_financial_risk (scale_durations 2 events_df) cost_per_minute
         = Ok doubled
      /\ (doubled == 2 * risk)%Q.
Proof.
  intros [|rows] cost.
  - exists 0%Q, 0%Q. cbn. repeat split; try reflexivity; ring.
  - destruct rows as [|e r].
    + exists 0%Q, 0%Q. cbn. repeat split; try reflexivity; ring.
    + exists (Qsum (map duration_mins (e :: r)) * cost)%Q.
      exists (Qsum (map duration_mins
                        (frame_rows (scale_durations 2 (Records (e :: r)))))
              * cost)%Q.
      split; [reflexivity|]. split; [reflexivity|].
      split; [discriminate|]. split; [reflexivity|].
      cbn [scale_durations frame_rows].
      rewrite Qsum_scaled_durations. ring.
Qed.

End Metrics.

(** ** The root-cause analyzer *)

Section RootCause.

Import AnomalyInsights.

Context {sq : SquareRoot}.

Lemma select_all_false :
  forall {A : Type} (mask : list bool) (xs : list A),
    Forall (fun b => b = false) mask -> select mask xs = [].
Proof.
  intros A mask. induction mask as [|b m IH]; intros xs H.
  - destruct xs; reflexivity.
  - inversion H; subst. destruct xs as [|x r]; [reflexivity|].
    simpl. apply IH. assumption.
Qed.

(** The degenerate inputs: no row at all, no NORMAL row, no row in the
    window.  Each returns the empty list. *)
Lemma analyze_root_cause_degenerate :
  forall df event_row top_n,
    empty df = true
    \/ Forall (fun s => s <> "NORMAL") (machine_status df)
    \/ Forall (fun t => ~ (start_time event_row <= t <= end_time event_row))
              (timestamp df) ->
    analyze_root_cause df event_row top_n = Ok [].
Proof.
  intros df ev top_n H. unfold analyze_root_cause.
  destruct (empty df) eqn:E; [reflexivity|].
  destruct H as [H|[H|H]]; [discriminate| |].
  - assert (Hb : empty (select_rows (map (String.eqb "NORMAL") (machine_status df)) df)
                 = true).
    { unfold empty, len, select_rows. cbn [machine_status].
      rewrite select_all_false; [reflexivity|].
      apply Forall_map. eapply Forall_impl; [|exact H].
      intros s Hs. apply String.eqb_neq. congruence. }
    rewrite Hb. reflexivity.
  - destruct (empty (select_rows (map (String.eqb "NORMAL") (machine_status df)) df));
      [reflexivity|].
    assert (Hw : empty (select_rows
                          (map (fun t => (start_time ev <=? t) && (t <=? end_time ev))
                               (timestamp df)) df) = true).
    { unfold empty, len, select_rows. cbn [machine_status].
      rewrite select_all_false; [reflexivity|].
      apply Forall_map. eapply Forall_impl; [|exact H].
      intros t Ht. cbv beta. apply andb_false_iff.
      destruct (Z.leb_spec (start_time ev) t); [|left; reflexivity].
      destruct (Z.leb_spec t (end_time ev)); [|right; reflexivity].
      exfalso. apply Ht. lia. }
    rewrite Hw. reflexivity.
Qed.

(** When the loop keeps no sensor, the frame of the contributions has no
    column to sort by. *)
Lemma analyze_root_cause_no_contribution :
  forall df event_row top_n,
    empty df = false ->
    empty (select_rows (map (String.eqb "NORMAL") (machine_status df)) df) = false ->
    empty (select_rows
             (map (fun t => (start_time event_row <=? t) && (t <=? end_time event_row))
                  (timestamp df)) df) = false ->
    Forall (fun sc =>
              try_except
                (c <- sensor_contribution
                        (map (String.eqb "NORMAL") (machine_status df))
                        (map (fun t => (start_time event_row <=? t)
                                       && (t <=? end_time event_row))
                             (timestamp df))
                        sc ;;
                 Ok (match c with Some c => [c] | None => [] end))
                [] = [])
           (sensor_cols df) ->
    analyze_root_cause df event_row top_n = Raise (KeyError "deviation_score").
Proof.
  intros df ev top_n H1 H2 H3 Hall. unfold analyze_root_cause.
  rewrite H1, H2, H3.
  assert (Hc : forall {A B : Type} (f : A -> list B) l,
             Forall (fun a => f a = []) l -> flat_map f l = []).
  { intros A B f l H. induction H as [|a r Ha _ IH]; simpl; [reflexivity|].
    rewrite Ha, IH. reflexivity. }
  rewrite (Hc _ _ _ _ Hall). reflexivity.
Qed.

Lemma sqrtQ_of_zero : forall q, (q == 0)%Q -> Qeq_bool (sqrtQ q) 0 = true.
Proof.
  intros q Hq. apply Qeq_bool_iff.
  rewrite (sqrtQ_compat q 0 Hq). apply sqrtQ_zero.
Qed.

Lemma sqrtQ_of_pos : forall q, (0 < q)%Q -> Qeq_bool (sqrtQ q) 0 = false.
Proof.
  intros q Hq. destruct (Qeq_bool (sqrtQ q) 0) eqn:E; [|reflexivity].
  apply Qeq_bool_iff in E. pose proof (sqrtQ_pos q Hq) as Hp.
  rewrite E in Hp. exfalso. apply (Qlt_irrefl 0). exact Hp.
Qed.

(** A numeric sensor whose baseline variance is 0 is skipped. *)
Lemma sensor_contribution_flat :
  forall baseline_mask window_mask name xs v,
    var (select baseline_mask xs) = Some v ->
    (v == 0)%Q ->
    sensor_contribution baseline_mask window_mask (name, Float64 xs) = Ok None.
Proof.
  intros bm wm name xs v Hvar Hv. unfold sensor_contribution.
  cbn [snd select_column column_mean column_std bind].
  unfold std. rewrite Hvar. cbn [option_map feq0].
  rewrite (sqrtQ_of_zero v Hv). reflexivity.
Qed.

(** C4.  The analyzer does not return on every dataset with a baseline
    and a window: when every sensor is flat over the baseline, every
    sensor is skipped and sorting the frame of no contribution raises a
    KeyError; and with a single NORMAL row the baseline deviation is NaN,
    not 0, so the sensor is ranked with the score NaN, which is not >= 0. *)
Theorem analyze_root_cause_flat_baseline_raises :
  analyze_root_cause
    (mkDataFrame [0; 60; 120; 180; 240]
                 ["NORMAL"; "NORMAL"; "NORMAL"; "BROKEN"; "BROKEN"]
                 None
                 [("sensor_00",
                   Float64 [Some 10%Q; Some 10%Q; Some 10%Q; Some 12%Q; Some 14%Q])])
    (mkEvent 180 240 1 "BROKEN" None) 3
  = Raise (KeyError "deviation_score")
  /\
  analyze_root_cause
    (mkDataFrame [0; 60; 120] ["NORMAL"; "BROKEN"; "BROKEN"] None
                 [("sensor_00", Float64 [Some 1%Q; Some 5%Q; Some 7%Q])])
    (mkEvent 60 120 1 "BROKEN" None) 3
  = Ok [ {| sensor := "sensor_00";
            deviation_score := None;
            event_mean := mean [Some 5%Q; Some 7%Q];
            baseline_mean := mean [Some 1%Q] |} ].
Proof.
  split.
  - apply analyze_root_cause_no_contribution; try reflexivity.
    constructor; [|constructor].
    erewrite sensor_contribution_flat;
      [reflexivity | vm_compute; reflexivity | vm_compute; reflexivity].
  - reflexivity.
Qed.


(** C5.  A sensor whose computation raises (a column of strings cannot be
    averaged) is dropped by the [except] clause, but the call does not
    return the shorter list: with no sensor left, sorting the frame of no
    contribution raises a KeyError. *)
Theorem analyze_root_cause_sensor_error_raises :
  sensor_contribution [true; true; false; false] [false; false; true; true]
                      ("sensor_00", Object ["ok"; "ok"; "err"; "err"])
  = Raise TypeError
  /\
  analyze_root_cause
    (mkDataFrame [0; 60; 120; 180]
                 ["NORMAL"; "NORMAL"; "BROKEN"; "BROKEN"]
                 None
                 [("sensor_00", Object ["ok"; "ok"; "err"; "err"])])
    (mkEvent 120 180 1 "BROKEN" None) 3
  = Raise (KeyError "deviation_score").
Proof.
  split; reflexivity.
Qed.

(** *** What the analyzer returns when it returns *)

Lemma highest_first_total :
  forall a b, highest_first a b = true \/ highest_first b a = true.
Proof.
  intros a b. unfold highest_first.
  destruct (deviation_score a) as [x|], (deviation_score b) as [y|]; auto.
  destruct (Qle_bool y x) eqn:E; [left; reflexivity|right].
  apply Qle_bool_iff. destruct (Qlt_le_dec x y) as [H|H].
  - apply Qlt_le_weak. exact H.
  - apply Qle_bool_iff in H. congruence.
Qed.

Lemma Sorted_firstn :
  forall {A : Type} (R : A -> A -> Prop) n l,
    Sorted R l -> Sorted R (firstn n l).
Proof.
  intros A R n. induction n as [|n IH]; intros l H.
  - constructor.
  - destruct H as [|a l Hs Hhd]; simpl; [constructor|].
    constructor; [apply IH; exact Hs|].
    destruct Hhd; destruct n; simpl; constructor. assumption.
Qed.

Lemma In_firstn :
  forall {A : Type} n (l : list A) x, In x (firstn n l) -> In x l.
Proof.
  intros A n. induction n as [|n IH]; intros [|a l] x H; simpl in *;
    try contradiction.
  destruct H as [H|H]; [left; exact H|right; apply IH; exact H].
Qed.

Lemma fdiv_fabs_nonneg :
  forall x v q,
    (0 <= v)%Q ->
    fdiv (fabs x) (Some v) = Some q -> (0 <= q)%Q.
Proof.
  intros [x|] v q Hv H; simpl in H; [|discriminate].
  destruct (Qeq_bool v 0) eqn:E; [discriminate|].
  injection H as <-.
  assert (Hpos : (0 < v)%Q).
  { apply Qle_lteq in Hv. destruct Hv as [Hv|Hv]; [exact Hv|].
    assert (Qeq_bool v 0 = true) by (apply Qeq_bool_iff; symmetry; exact Hv).
    congruence. }
  apply Qle_shift_div_l; [exact Hpos|].
  rewrite Qmult_0_l. apply Qabs_nonneg.
Qed.

Lemma column_std_nonneg :
  forall c v, column_std c = Ok (Some v) -> (0 <= v)%Q.
Proof.
  intros [xs|[|s r]] v H; simpl in H; try discriminate.
  injection H as H. unfold std in H.
  destruct (var xs); simpl in H; [|discriminate].
  injection H as <-. apply sqrtQ_nonneg.
Qed.

(** Every ranked entry belongs to a sensor column whose baseline
    deviation is not exactly 0, carries the score
    |event mean - baseline mean| / baseline deviation, and a score that
    is a number is >= 0; the entries are at most [top_n], highest score
    first. *)
Lemma analyze_root_cause_ranking :
  forall df event_row top_n ranked,
    analyze_root_cause df event_row top_n = Ok ranked ->
    let baseline_mask := map (String.eqb "NORMAL") (machine_status df) in
    let window_mask :=
      map (fun t => (start_time event_row <=? t) && (t <=? end_time event_row))
          (timestamp df) in
    Sorted (fun a b => highest_first a b = true) ranked
    /\ (length ranked <= top_n)%nat
    /\ Forall
         (fun c =>
            exists col sigma,
              In (sensor c, col) (sensor_cols df)
              /\ column_std (select_column baseline_mask col) = Ok sigma
              /\ feq0 sigma = false
              /\ column_mean (select_column baseline_mask col)
                 = Ok (baseline_mean c)
              /\ column_mean (select_column window_mask col)
                 = Ok (event_mean c)
              /\ deviation_score c
                 = fdiv (fabs (fsub (event_mean c) (baseline_mean c))) sigma
              /\ (forall q, deviation_score c = Some q -> (0 <= q)%Q))
         ranked.
Proof.
  intros df ev top_n ranked H bm wm.
  unfold analyze_root_cause in H. fold bm wm in H.
  assert (Hnil : Sorted (fun a b => highest_first a b = true) []
                 /\ (length (@nil Contribution) <= top_n)%nat
                 /\ Forall
                      (fun c =>
                         exists col sigma,
                           In (sensor c, col) (sensor_cols df)
                           /\ column_std (select_column bm col) = Ok sigma
                           /\ feq0 sigma = false
                           /\ column_mean (select_column bm col)
                              = Ok (baseline_mean c)
                           /\ column_mean (select_column wm col)
                              = Ok (event_mean c)
                           /\ deviation_score c
                              = fdiv (fabs (fsub (event_mean c) (baseline_mean c)))
                                     sigma
                           /\ (forall q, deviation_score c = Some q -> (0 <= q)%Q))
                      [])
    by (split; [constructor | split; [simpl; lia | constructor]]).
  destruct (empty df); [injection H as <-; exact Hnil|].
  destruct (empty (select_rows bm df)); [injection H as <-; exact Hnil|].
  destruct (empty (select_rows wm df)); [injection H as <-; exact Hnil|].
  clear Hnil.
  set (contributions := flat_map _ (sensor_cols df)) in H.
  destruct (pd_DataFrame contributions) as [|rows] eqn:Ef; [discriminate|].
  cbn [sort_values bind frame_rows] in H. injection H as <-.
  assert (Hrows : rows = contributions).
  { unfold pd_DataFrame in Ef. destruct contributions; [discriminate|].
    injection Ef as <-. reflexivity. }
  subst rows.
  split; [|split].
  - apply Sorted_firstn. apply sort_by_sorted. apply highest_first_total.
  - apply firstn_le_length.
  - apply Forall_forall. intros c Hc.
    apply In_firstn in Hc.
    apply (Permutation_in c (Permutation_sym (sort_by_perm highest_first contributions)))
      in Hc.
    unfold contributions in Hc. apply in_flat_map in Hc.
    destruct Hc as [[name col] [Hsc Hc]].
    unfold sensor_contribution in Hc. cbn [snd fst] in Hc.
    destruct (column_mean (select_column bm col)) as [mu_b|] eqn:Emb;
      [|contradiction].
    destruct (column_std (select_column bm col)) as [sigma|] eqn:Esd;
      [|contradiction].
    cbn [bind] in Hc.
    destruct (feq0 sigma) eqn:Ez; [contradiction|].
    destruct (column_mean (select_column wm col)) as [mu_e|] eqn:Eme;
      [|contradiction].
    cbn [bind try_except] in Hc. destruct Hc as [<-|[]].
    cbn [sensor deviation_score event_mean baseline_mean].
    exists col, sigma. repeat split; try assumption; try reflexivity.
    intros q Hq. destruct sigma as [v|].
    + eapply fdiv_fabs_nonneg; [|exact Hq].
      eapply column_std_nonneg. exact Esd.
    + destruct (fabs (fsub mu_e mu_b)); discriminate.
Qed.

End RootCause.

(** ** The health monitor *)

Section SensorHealthMonitor.

Import DataQuality HealthSpec.

Context {dev : Deviation}.

Lemma sensor_cols_tail_rows :
  forall n df,
    sensor_cols (tail_rows n df)
    = map (fun nc => (fst nc, tail_column n (snd nc))) (sensor_cols df).
Proof.
  intros n df. unfold sensor_cols, tail_rows. cbn [columns].
  induction (columns df) as [|[name c] r IH]; simpl.
  - reflexivity.
  - destruct (contains "sensor" name); simpl; rewrite IH; reflexivity.
Qed.

(** The recent part of a numeric column is its trailing window. *)
Lemma recent_window :
  forall (xs : list float) lookback_window,
    0 < lookback_window ->
    (if Z.of_nat (length xs) >? lookback_window
     then tail lookback_window xs else xs)
    = trailing_window (Z.to_nat lookback_window) xs.
Proof.
  intros xs n Hn. unfold trailing_window, tail.
  destruct (Z.gtb_spec (Z.of_nat (length xs)) n) as [H|H].
  - destruct (Z.ltb_spec n 0); [lia|reflexivity].
  - replace (length xs - Z.to_nat n)%nat with 0%nat by lia. reflexivity.
Qed.

Lemma trailing_window_length :
  forall {A : Type} n (xs : list A),
    length (trailing_window n xs) = Nat.min n (length xs).
Proof.
  intros A n xs. unfold trailing_window. rewrite length_skipn. lia.
Qed.

Lemma isna_mean_fraction :
  forall xs, xs <> [] -> isna_mean xs = Some (missing_fraction xs).
Proof.
  intros xs Hne. unfold isna_mean, missing_fraction.
  destruct xs as [|x r]; [congruence|]. f_equal. f_equal. f_equal. f_equal.
  clear Hne. generalize (x :: r). intro l.
  induction l as [|[q|] l IH]; simpl; congruence.
Qed.

Lemma feq0_std_flatline :
  forall xs, AnomalyInsights.feq0 (std64 xs) = true <-> flatline xs.
Proof.
  intro xs. unfold flatline, AnomalyInsights.feq0. split.
  - destruct (std64 xs) as [s|]; [|discriminate].
    intro H. exists s. split; [reflexivity|]. apply Qeq_bool_iff. exact H.
  - intros [s [-> Hs]]. apply Qeq_bool_iff. exact Hs.
Qed.


Lemma fgt_lt :
  forall x b, fgt (Some x) b = true <-> (b < x)%Q.
Proof.
  intros x b. unfold fgt, Qltb. rewrite negb_true_iff. split.
  - intro H. apply Qnot_le_lt. intro Hle.
    apply Qle_bool_iff in Hle. congruence.
  - intro H. destruct (Qle_bool x b) eqn:E; [|reflexivity].
    apply Qle_bool_iff in E. exfalso. apply (Qlt_not_le _ _ H). exact E.
Qed.

(** The record of one sensor whose recent window [w] holds a reading. *)
Lemma sensor_health_window :
  forall name w,
    w <> [] ->
    exists h,
      sensor_health (name, Float64 w) = Ok h
      /\ sensor h = name
      /\ (status h = "CRITICAL" <-> flatline w)
      /\ (status h = "WARNING"
          <-> ~ flatline w /\ (1 # 10 < missing_fraction w)%Q)
      /\ (status h = "HEALTHY"
          <-> ~ flatline w /\ ~ (1 # 10 < missing_fraction w)%Q).
Proof.
  intros name w Hne. unfold sensor_health.
  cbn [snd fst column_std bind column_isna_mean column_iloc_last].
  assert (Hlast : exists x, iloc_last w = Ok x).
  { unfold iloc_last. destruct (rev w) as [|x r] eqn:E; [|eauto].
    apply (f_equal (@rev float)) in E. rewrite rev_involutive in E.
    simpl in E. congruence. }
  destruct Hlast as [x ->]. cbn [bind].
  rewrite (isna_mean_fraction w Hne).
  pose proof (feq0_std_flatline w) as Hflat.
  pose proof (fgt_lt (missing_fraction w) (1 # 10)) as Hgt.
  destruct (AnomalyInsights.feq0 (std64 w)) eqn:Ez.
  - eexists. split; [reflexivity|]. cbn [sensor status fst].
    assert (flatline w) by (apply Hflat; reflexivity).
    repeat split; try tauto; try discriminate.
  - assert (Hnf : ~ flatline w) by (intro Hf; apply Hflat in Hf; discriminate).
    destruct (fgt (Some (missing_fraction w)) (1 # 10)) eqn:Eg.
    + eexists. split; [reflexivity|]. cbn [sensor status fst].
      assert (1 # 10 < missing_fraction w)%Q by (apply Hgt; reflexivity).
      repeat split; try tauto; try discriminate.
    + eexists. split; [reflexivity|]. cbn [sensor status fst].
      assert (~ (1 # 10 < missing_fraction w)%Q)
        by (intro Hlt; apply Hgt in Hlt; discriminate).
      repeat split; try tauto; try discriminate.
Qed.




End SensorHealthMonitor.


(** A constant sensor is not always a flatline for the program.  The
    sum of 0.1, 0.1 and 0.1 is rounded, their mean is
    0.10000000000000002, the deviation pandas returns is 1.7e-17 and not
    0, and the monitor reports the sensor HEALTHY, although the exact
    variance of the window is 0. *)
Lemma check_sensor_health_constant_tenths :
  (exists v,
      Pandas.var [Some (1 # 10); Some (1 # 10); Some (1 # 10)] = Some v
      /\ (v == 0)%Q)
  /\ exists h,
      @DataQuality.check_sensor_health binary64_Deviation
                                       HealthSpec.tenths_frame 3
      = Ok (Records [h])
      /\ DataQuality.sensor h = "sensor_00"
      /\ DataQuality.status h = "HEALTHY".
Proof.
  split.
  - eexists. split; [vm_compute; reflexivity|reflexivity].
  - eexists. split; [vm_compute; reflexivity|]. split; reflexivity.
Qed.

(** ** Gap filling *)

Section GapFilling.

Import EtlPipeline FillSpec.

Lemma ffill_from_length :
  forall xs last, length (ffill_from last xs) = length xs.
Proof.
  induction xs as [|[q|] r IH]; intro last; simpl; try rewrite IH; reflexivity.
Qed.

Lemma bfill_length : forall xs, length (bfill xs) = length xs.
Proof.
  induction xs as [|[q|] r IH]; simpl.
  - reflexivity.
  - rewrite IH. reflexivity.
  - destruct (bfill r) as [|[v|] t]; simpl in *; rewrite <- IH; reflexivity.
Qed.

Lemma bfill_hd : forall xs, hd None (bfill xs) = first_reading xs.
Proof.
  induction xs as [|[q|] r IH]; simpl.
  - reflexivity.
  - reflexivity.
  - destruct (bfill r) as [|[v|] t]; simpl in *; exact IH.
Qed.

Lemma bfill_missing :
  forall r, bfill (None :: r) = first_reading r :: bfill r.
Proof.
  intro r. simpl. rewrite <- bfill_hd.
  destruct (bfill r) as [|[v|] t]; reflexivity.
Qed.

Lemma ffill_from_nth :
  forall xs last i,
    (i < length xs)%nat ->
    nth_error (ffill_from last xs) i
    = Some (match last_reading (firstn (Datatypes.S i) xs) with
            | Some v => Some v
            | None => last
            end).
Proof.
  induction xs as [|x r IH]; intros last i Hi; [simpl in Hi; lia|].
  destruct i as [|j].
  - destruct x as [q|]; reflexivity.
  - assert (Hj : (j < length r)%nat) by (simpl in Hi; lia).
    change (firstn (Datatypes.S (Datatypes.S j)) (x :: r))
      with (x :: firstn (Datatypes.S j) r).
    cbn [last_reading].
    destruct x as [q|]; cbn [ffill_from nth_error]; rewrite (IH _ j Hj);
      destruct (last_reading (firstn (Datatypes.S j) r)); reflexivity.
Qed.

Lemma bfill_nth :
  forall ys i,
    (i < length ys)%nat ->
    nth_error (bfill ys) i = Some (first_reading (skipn i ys)).
Proof.
  induction ys as [|y r IH]; intros i Hi; [simpl in Hi; lia|].
  destruct y as [q|].
  - destruct i as [|j]; [reflexivity|].
    cbn [bfill nth_error skipn]. apply IH. simpl in Hi. lia.
  - rewrite bfill_missing. destruct i as [|j]; [reflexivity|].
    cbn [nth_error skipn]. apply IH. simpl in Hi. lia.
Qed.

Lemma last_reading_app :
  forall l x,
    last_reading (l ++ [x])
    = match x with
      | Some v => Some v
      | None => last_reading l
      end.
Proof.
  induction l as [|y l IH]; intro x; simpl.
  - destruct x; reflexivity.
  - rewrite IH. destruct x; [reflexivity|]. reflexivity.
Qed.

Lemma skipn_ffill_from :
  forall xs last n,
    skipn n (ffill_from last xs)
    = ffill_from (match last_reading (firstn n xs) with
                  | Some v => Some v
                  | None => last
                  end)
                 (skipn n xs).
Proof.
  induction xs as [|x r IH]; intros last n.
  - destruct n; simpl; destruct last; reflexivity.
  - destruct n as [|n].
    + simpl. destruct last; reflexivity.
    + cbn [firstn last_reading skipn].
      destruct x as [q|]; cbn [ffill_from skipn]; rewrite IH;
        destruct (last_reading (firstn n r)); reflexivity.
Qed.

Lemma first_reading_ffill :
  forall xs, first_reading (ffill_from None xs) = first_reading xs.
Proof.
  induction xs as [|[q|] r IH]; simpl; auto.
Qed.

Lemma firstn_succ_nth :
  forall {A : Type} (xs : list A) i x,
    nth_error xs i = Some x ->
    firstn (Datatypes.S i) xs = firstn i xs ++ [x]
    /\ skipn i xs = x :: skipn (Datatypes.S i) xs.
Proof.
  intros A xs. induction xs as [|a r IH]; intros i x H.
  - destruct i; discriminate.
  - destruct i as [|j].
    + injection H as <-. split; reflexivity.
    + destruct (IH j x H) as [H1 H2]. split.
      * change (firstn (Datatypes.S (Datatypes.S j)) (a :: r))
          with (a :: firstn (Datatypes.S j) r).
        rewrite H1. reflexivity.
      * exact H2.
Qed.

(** Forward fill then backward fill, position by position. *)
Lemma bfill_ffill_nth :
  forall xs i,
    (i < length xs)%nat ->
    nth_error (bfill (ffill xs)) i = Some (gap_filled xs i).
Proof.
  intros xs i Hi. unfold ffill.
  rewrite bfill_nth by (rewrite ffill_from_length; exact Hi).
  f_equal. rewrite skipn_ffill_from. unfold gap_filled.
  destruct (nth_error xs i) as [x|] eqn:Ex;
    [|apply nth_error_None in Ex; lia].
  destruct (firstn_succ_nth xs i x Ex) as [-> ->].
  rewrite last_reading_app.
  destruct x as [q|]; [reflexivity|].
  cbn [ffill_from].
  destruct (last_reading (firstn i xs)) as [v|]; [reflexivity|].
  cbn [first_reading]. apply first_reading_ffill.
Qed.


Lemma last_reading_none :
  forall l, last_reading l = None -> entirely_empty l = true.
Proof.
  induction l as [|x r IH]; simpl; intro H; [reflexivity|].
  destruct (last_reading r); [discriminate|].
  subst x. simpl. apply IH. reflexivity.
Qed.

Lemma first_reading_none :
  forall l, first_reading l = None -> entirely_empty l = true.
Proof.
  induction l as [|[q|] r IH]; simpl; intro H;
    [reflexivity|discriminate|apply IH; exact H].
Qed.

Lemma gap_filled_none :
  forall xs i, gap_filled xs i = None -> entirely_empty xs = true.
Proof.
  intros xs i H. unfold gap_filled in H.
  destruct (last_reading (firstn (Datatypes.S i) xs)) eqn:E; [discriminate|].
  rewrite <- (firstn_skipn (Datatypes.S i) xs).
  unfold entirely_empty. rewrite forallb_app.
  apply last_reading_none in E. apply first_reading_none in H.
  unfold entirely_empty in *. rewrite E, H. reflexivity.
Qed.

(** A series with a reading has no gap left after the two fills. *)
Lemma bfill_ffill_complete :
  forall xs, entirely_empty xs = false -> complete (bfill (ffill xs)) = true.
Proof.
  intros xs H. unfold complete.
  destruct (existsb is_missing (bfill (ffill xs))) eqn:E; [|reflexivity].
  apply existsb_exists in E. destruct E as [[q|] [Hin Hq]]; [discriminate|].
  apply In_nth_error in Hin. destruct Hin as [i Hi].
  assert (Hlt : (i < length xs)%nat).
  { assert (Hsome : nth_error (bfill (ffill xs)) i <> None) by congruence.
    apply nth_error_Some in Hsome.
    unfold ffill in Hsome. rewrite bfill_length, ffill_from_length in Hsome.
    exact Hsome. }
  rewrite (bfill_ffill_nth xs i Hlt) in Hi. injection Hi as Hi.
  apply gap_filled_none in Hi. congruence.
Qed.

(** A series without any reading stays as it is. *)
Lemma bfill_ffill_empty :
  forall xs, entirely_empty xs = true -> bfill (ffill xs) = xs.
Proof.
  intros xs H. unfold ffill.
  assert (Hf : ffill_from None xs = xs).
  { induction xs as [|[q|] r IH]; simpl in *; [reflexivity|discriminate|].
    rewrite IH by exact H. reflexivity. }
  rewrite Hf.
  induction xs as [|[q|] r IH]; [reflexivity|discriminate|].
  rewrite bfill_missing.
  assert (Hr : entirely_empty r = true) by exact H.
  rewrite IH; [|exact Hr|].
  - f_equal. clear - Hr. induction r as [|[q|] r IH]; simpl in *;
      [reflexivity|discriminate|apply IH; exact Hr].
  - clear - Hr. induction r as [|[q|] r IH]; simpl in *;
      [reflexivity|discriminate|]. rewrite IH by exact Hr. reflexivity.
Qed.

Lemma columns_fill_gaps :
  forall df,
    columns (fill_gaps df)
    = filter (fun nc => negb (all_missing (snd nc)))
             (map (fun nc => (fst nc, bfill_column (ffill_column (snd nc))))
                  (columns df)).
Proof.
  intro df. unfold fill_gaps, dropna_columns, df_bfill, df_ffill.
  cbn [columns]. rewrite map_map. reflexivity.
Qed.

(** Every numeric column the gap filling keeps is complete. *)
Lemma fill_gaps_columns_complete :
  forall df name ys,
    In (name, Float64 ys) (columns (fill_gaps df)) -> complete ys = true.
Proof.
  intros df name ys Hys. rewrite columns_fill_gaps in Hys.
  apply filter_In in Hys. destruct Hys as [Hmap Hnot].
  apply in_map_iff in Hmap. destruct Hmap as [[n0 c0] [Heq _]].
  cbn [fst snd] in *. injection Heq as _ Hc.
  destruct c0 as [xs0|ss]; [|discriminate].
  cbn [ffill_column bfill_column] in Hc. injection Hc as <-.
  destruct (entirely_empty xs0) eqn:E.
  - cbn [all_missing] in Hnot. rewrite (bfill_ffill_empty xs0 E) in Hnot.
    unfold entirely_empty in E. rewrite E in Hnot. discriminate.
  - apply bfill_ffill_complete. exact E.
Qed.

End GapFilling.

(** ** The scaler and the reducer *)

Section ScalerReducer.

Import EtlPipeline FillSpec.

Context {sq : SquareRoot} {pr : Projection}.

Lemma sensor_cols_fill_gaps_nil :
  forall df, sensor_cols df = [] -> sensor_cols (fill_gaps df) = [].
Proof.
  intros df H. destruct (sensor_cols (fill_gaps df)) as [|x r] eqn:E;
    [reflexivity|exfalso].
  assert (Hx : In x (sensor_cols (fill_gaps df))) by (rewrite E; left; reflexivity).
  unfold sensor_cols in Hx. apply filter_In in Hx. destruct Hx as [Hx Hs].
  rewrite columns_fill_gaps in Hx. apply filter_In in Hx. destruct Hx as [Hx _].
  apply in_map_iff in Hx. destruct Hx as [[n0 c0] [<- Hin]]. cbn [fst] in Hs.
  assert (Hin' : In (n0, c0) (sensor_cols df))
    by (apply filter_In; split; assumption).
  rewrite H in Hin'. exact Hin'.
Qed.

(** The sensor columns of the filled frame, when every sensor column has a
    reading. *)
Lemma sensor_cols_fill_gaps :
  forall cols : list (string * column),
    Forall (fun nc => all_missing (bfill_column (ffill_column (snd nc))) = false)
           (filter (fun nc => contains "sensor" (fst nc)) cols) ->
    filter (fun nc => contains "sensor" (fst nc))
           (filter (fun nc => negb (all_missing (snd nc)))
                   (map (fun nc => (fst nc, bfill_column (ffill_column (snd nc))))
                        cols))
    = map (fun nc => (fst nc, bfill_column (ffill_column (snd nc))))
          (filter (fun nc => contains "sensor" (fst nc)) cols).
Proof.
  induction cols as [|[name c] cols IH]; intro H; [reflexivity|].
  cbn [map filter fst snd] in *.
  destruct (contains "sensor" name) eqn:Es.
  - inversion H as [|? ? Hc Hrest]; subst. cbn [snd] in Hc.
    rewrite Hc. cbn [negb filter fst]. rewrite Es.
    cbn [map fst snd]. f_equal. apply IH. exact Hrest.
  - destruct (negb (all_missing (bfill_column (ffill_column c))));
      cbn [filter fst]; try rewrite Es; apply IH; exact H.
Qed.

Lemma scale_feature_length :
  forall xs, length (scale_feature xs) = length xs.
Proof.
  intro xs. unfold scale_feature.
  destruct (mean xs), (population_var xs); try reflexivity.
  apply length_map.
Qed.

Lemma scale_feature_missing :
  forall xs, existsb is_missing (scale_feature xs) = existsb is_missing xs.
Proof.
  intro xs. unfold scale_feature.
  destruct (mean xs), (population_var xs); try reflexivity.
  induction xs as [|[x|] r IH]; simpl; [reflexivity|exact IH|reflexivity].
Qed.

(** The array of filled numeric columns. *)
Lemma as_float_array_filled :
  forall cols : list (string * column),
    Forall (fun nc => exists xs, snd nc = Float64 xs) cols ->
    exists X,
      as_float_array
        (map (fun nc => (fst nc, bfill_column (ffill_column (snd nc)))) cols)
      = Ok X
      /\ Forall2 (fun nc x => exists xs, snd nc = Float64 xs /\ x = bfill (ffill xs))
                 cols X.
Proof.
  intros cols H. induction H as [|[name c] r [xs Hc] _ [X [HX HF]]].
  - exists []. split; [reflexivity|constructor].
  - cbn [snd] in Hc. subst c. exists (bfill (ffill xs) :: X).
    cbn [map fst snd ffill_column bfill_column as_float_array].
    rewrite HX. split; [reflexivity|].
    constructor; [|exact HF]. exists xs. split; reflexivity.
Qed.

(** Whatever the variance of the columns, a frame with at least two rows
    and at least two numeric sensor columns, each with a reading and one
    value per row, is processed. *)
Lemma preprocess_accepts :
  forall df,
    Forall (fun nc => exists xs, snd nc = Float64 xs
                                 /\ length xs = len df
                                 /\ entirely_empty xs = false)
           (sensor_cols df) ->
    (2 <= length (sensor_cols df))%nat ->
    (2 <= len df)%nat ->
    exists out, preprocess df = Ok out.
Proof.
  intros df Hcols Hn Hrows.
  assert (Hsc : sensor_cols (fill_gaps df)
                = map (fun nc => (fst nc, bfill_column (ffill_column (snd nc))))
                      (sensor_cols df)).
  { unfold sensor_cols at 1. rewrite columns_fill_gaps.
    apply sensor_cols_fill_gaps.
    eapply Forall_impl; [|exact Hcols].
    intros [name c] [xs [Hc [_ He]]]. cbn [snd] in *. subst c.
    cbn [ffill_column bfill_column all_missing].
    pose proof (bfill_ffill_complete xs He) as Hcomp. unfold complete in Hcomp.
    assert (Hlen : length (bfill (ffill xs)) = length xs)
      by (unfold ffill; rewrite bfill_length, ffill_from_length; reflexivity).
    destruct xs as [|x0 r0]; [discriminate He|].
    destruct (bfill (ffill (x0 :: r0))) as [|[q|] r]; simpl in *;
      [discriminate|reflexivity|discriminate]. }
  destruct (as_float_array_filled (sensor_cols df)) as [X [HX HF]].
  { eapply Forall_impl; [|exact Hcols]. intros nc [xs [Hc _]]. eauto. }
  assert (HXprop : Forall (fun x => length x = len df
                                    /\ existsb is_missing x = false) X).
  { clear HX Hsc Hn. revert Hcols. induction HF as [|nc x cols X' Hx _ IH];
      intro Hcols; [constructor|].
    inversion Hcols as [|? ? [xs [Hc [Hl He]]] Hrest]; subst.
    constructor; [|apply IH; exact Hrest].
    destruct Hx as [xs' [Hc' ->]]. rewrite Hc in Hc'. injection Hc' as <-.
    split.
    - unfold ffill. rewrite bfill_length, ffill_from_length. exact Hl.
    - pose proof (bfill_ffill_complete xs He) as Hcomp. unfold complete in Hcomp.
      destruct (existsb is_missing (bfill (ffill xs))); [discriminate|reflexivity]. }
  assert (HlenX : length X = length (sensor_cols df)).
  { symmetry. eapply Forall2_length. exact HF. }
  unfold preprocess. rewrite Hsc. unfold scaler_fit_transform.
  rewrite HX. cbn [bind].
  destruct X as [|x0 X0]; [simpl in HlenX; lia|].
  inversion HXprop as [|? ? [Hl0 Hm0] HX0]; subst.
  assert (Hnf : Nat.eqb (n_features (x0 :: X0)) 0 = false) by reflexivity.
  assert (Hns : Nat.eqb (n_samples (x0 :: X0)) 0 = false).
  { cbn [n_samples]. rewrite Hl0. apply Nat.eqb_neq. lia. }
  rewrite Hnf, Hns. cbn [bind]. unfold pca_fit_transform.
  assert (Hmiss : existsb (existsb is_missing) (map scale_feature (x0 :: X0)) = false).
  { clear - HXprop. induction HXprop as [|x X [_ Hm] _ IH]; [reflexivity|].
    cbn [map existsb]. rewrite scale_feature_missing, Hm, IH. reflexivity. }
  rewrite Hmiss.
  assert (Hmin : Nat.ltb (Nat.min (n_samples (map scale_feature (x0 :: X0)))
                                  (n_features (map scale_feature (x0 :: X0))))
                         2 = false).
  { cbn [map n_samples]. unfold n_features.
    rewrite scale_feature_length, Hl0. cbn [length]. rewrite length_map.
    apply Nat.ltb_ge. simpl in HlenX. lia. }
  rewrite Hmin. cbn [bind]. eexists. reflexivity.
Qed.


Lemma sensor_cols_set_column :
  forall name c cols,
    contains "sensor" name = false ->
    filter (fun nc : string * column => contains "sensor" (fst nc))
           (set_column name c cols)
    = filter (fun nc => contains "sensor" (fst nc)) cols.
Proof.
  intros name c cols Hn. induction cols as [|[n c'] r IH]; cbn [set_column filter fst].
  - rewrite Hn. reflexivity.
  - destruct (String.eqb_spec n name) as [->|Hne]; cbn [filter fst].
    + rewrite Hn. reflexivity.
    + rewrite IH. reflexivity.
Qed.

(** The sensor columns after the gap filling come from the sensor columns
    before it. *)
Lemma sensor_cols_fill_gaps_general :
  forall df,
    sensor_cols (fill_gaps df)
    = filter (fun nc => negb (all_missing (snd nc)))
             (map (fun nc => (fst nc, bfill_column (ffill_column (snd nc))))
                  (sensor_cols df)).
Proof.
  intro df. unfold sensor_cols at 1. rewrite columns_fill_gaps.
  unfold sensor_cols.
  induction (columns df) as [|[name c] r IH]; [reflexivity|].
  cbn [map filter fst snd].
  destruct (contains "sensor" name) eqn:Es;
    destruct (negb (all_missing (bfill_column (ffill_column c)))) eqn:Eq;
    cbn [map filter fst snd]; rewrite ?Es, ?Eq; rewrite IH; reflexivity.
Qed.

(** The array of the sensor columns the gap filling keeps: the columns
    themselves, all numeric. *)
Lemma as_float_array_kept :
  forall (cols : list (string * column)) X,
    as_float_array cols = Ok X ->
    Forall (fun nc => all_missing (snd nc) = false) cols ->
    Forall2 (fun nc x => snd nc = Float64 x) cols X.
Proof.
  induction cols as [|[name c] r IH]; intros X H Hkept.
  - injection H as <-. constructor.
  - inversion Hkept as [|? ? Hc Hr]; subst. cbn [snd] in Hc.
    cbn [as_float_array] in H.
    destruct c as [xs|[|s ss]]; [|discriminate Hc|discriminate H].
    destruct (as_float_array r) as [X'|e] eqn:E; [|discriminate].
    cbn [bind] in H. injection H as <-.
    constructor; [reflexivity|]. apply IH; [reflexivity|exact Hr].
Qed.

(** What [preprocess] returns when it returns: the array it scales is
    the array of the filled sensor columns, none with a gap, and the
    frame is the filled frame with the two components and their
    distance from the origin. *)
Lemma preprocess_returns :
  forall df out,
    preprocess df = Ok out ->
    exists X,
      Forall2 (fun nc x => snd nc = Float64 x /\ complete x = true)
              (sensor_cols (fill_gaps df)) X
      /\ scaler_fit_transform (sensor_cols (fill_gaps df))
         = Ok (map scale_feature X)
      /\ out
         = {| timestamp := timestamp df;
              machine_status := machine_status df;
              anomaly_score :=
                Some (ProjectionSpec.distance_from_origin
                        (fst (principal_components
                                (map dropna (map scale_feature X))))
                        (snd (principal_components
                                (map dropna (map scale_feature X)))));
              columns :=
                set_column
                  "PCA_2"
                  (Float64 (map Some (snd (principal_components
                                             (map dropna (map scale_feature X))))))
                  (set_column
                     "PCA_1"
                     (Float64 (map Some (fst (principal_components
                                                (map dropna (map scale_feature X))))))
                     (columns (fill_gaps df))) |}.
Proof.
  intros df out H. unfold preprocess in H.
  destruct (scaler_fit_transform (sensor_cols (fill_gaps df))) as [x|e] eqn:Es;
    [|discriminate].
  cbn [bind] in H.
  destruct (pca_fit_transform x) as [pcs|e] eqn:Ep; [|discriminate].
  cbn [bind] in H. injection H as <-.
  unfold scaler_fit_transform in Es.
  destruct (as_float_array (sensor_cols (fill_gaps df))) as [X|e] eqn:EX;
    [|discriminate].
  cbn [bind] in Es.
  destruct (Nat.eqb (n_features X) 0); [discriminate|].
  destruct (Nat.eqb (n_samples X) 0); [discriminate|].
  injection Es as <-.
  unfold pca_fit_transform in Ep.
  destruct (existsb (existsb is_missing) (map scale_feature X)); [discriminate|].
  destruct (Nat.ltb _ 2); [discriminate|].
  injection Ep as <-.
  exists X. split; [|split; reflexivity].
  assert (Hkept : Forall (fun nc : string * column => all_missing (snd nc) = false)
                         (sensor_cols (fill_gaps df))).
  { apply Forall_forall. intros nc Hin. unfold sensor_cols in Hin.
    apply filter_In in Hin. destruct Hin as [Hin _].
    rewrite columns_fill_gaps in Hin. apply filter_In in Hin.
    destruct Hin as [_ Hin]. apply negb_true_iff in Hin. exact Hin. }
  pose proof (as_float_array_kept _ _ EX Hkept) as HF.
  assert (Hin : forall nc, In nc (sensor_cols (fill_gaps df)) ->
                           In nc (columns (fill_gaps df))).
  { intros nc Hnc. unfold sensor_cols in Hnc. apply filter_In in Hnc. tauto. }
  clear - HF Hin. revert Hin.
  induction HF as [|[name c] x cols X' Hx _ IH]; intro Hin; [constructor|].
  constructor.
  - cbn [snd] in *. split; [exact Hx|]. subst c.
    apply (fill_gaps_columns_complete df name). apply Hin. left. reflexivity.
  - apply IH. intros nc Hnc. apply Hin. right. exact Hnc.
Qed.

Lemma as_float_array_numeric :
  forall cols : list (string * column),
    Forall (fun nc => exists xs, snd nc = Float64 xs) cols ->
    exists X,
      as_float_array cols = Ok X
      /\ Forall2 (fun nc x => snd nc = Float64 x) cols X.
Proof.
  intros cols H. induction H as [|[name c] r [xs Hc] _ [X [HX HF]]].
  - exists []. split; [reflexivity|constructor].
  - cbn [snd] in Hc. subst c. exists (xs :: X).
    cbn [as_float_array]. rewrite HX. split; [reflexivity|].
    constructor; [reflexivity|exact HF].
Qed.

(** The frame is processed when what the gap filling leaves of it has at
    least two rows and two sensor columns, numeric and with one value
    per row. *)
Lemma preprocess_accepts_filled :
  forall df,
    Forall (fun nc => exists ys, snd nc = Float64 ys /\ length ys = len df)
           (sensor_cols (fill_gaps df)) ->
    (2 <= length (sensor_cols (fill_gaps df)))%nat ->
    (2 <= len df)%nat ->
    exists out, preprocess df = Ok out.
Proof.
  intros df Hcols Hn Hrows.
  destruct (as_float_array_numeric (sensor_cols (fill_gaps df))) as [X [HX HF]].
  { eapply Forall_impl; [|exact Hcols]. intros nc [ys [Hc _]]. eauto. }
  assert (HXprop : Forall (fun x => length x = len df
                                    /\ existsb is_missing x = false) X).
  { assert (Hin : forall nc, In nc (sensor_cols (fill_gaps df)) ->
                             In nc (columns (fill_gaps df))).
    { intros nc Hnc. unfold sensor_cols in Hnc. apply filter_In in Hnc. tauto. }
    clear HX Hn. revert Hcols Hin.
    induction HF as [|[name c] x cols X' Hx _ IH]; intros Hcols Hin; [constructor|].
    inversion Hcols as [|? ? [ys [Hc Hl]] Hrest].
    cbn [snd] in Hx, Hc. rewrite Hx in Hc. injection Hc as <-.
    constructor.
    - split; [exact Hl|]. rewrite Hx in Hin.
      pose proof (fill_gaps_columns_complete df name x (Hin _ (or_introl eq_refl)))
        as Hcomp.
      unfold complete in Hcomp.
      destruct (existsb is_missing x); [discriminate|reflexivity].
    - apply IH; [exact Hrest|]. intros nc Hnc. apply Hin. right. exact Hnc. }
  assert (HlenX : length X = length (sensor_cols (fill_gaps df))).
  { symmetry. eapply Forall2_length. exact HF. }
  unfold preprocess, scaler_fit_transform.
  rewrite HX. cbn [bind].
  destruct X as [|x0 X0]; [simpl in HlenX; lia|].
  inversion HXprop as [|? ? [Hl0 Hm0] HX0]; subst.
  assert (Hnf : Nat.eqb (n_features (x0 :: X0)) 0 = false) by reflexivity.
  assert (Hns : Nat.eqb (n_samples (x0 :: X0)) 0 = false).
  { cbn [n_samples]. rewrite Hl0. apply Nat.eqb_neq. lia. }
  rewrite Hnf, Hns. cbn [bind]. unfold pca_fit_transform.
  assert (Hmiss : existsb (existsb is_missing) (map scale_feature (x0 :: X0)) = false).
  { clear - HXprop. induction HXprop as [|x X [_ Hm] _ IH]; [reflexivity|].
    cbn [map existsb]. rewrite scale_feature_missing, Hm, IH. reflexivity. }
  rewrite Hmiss.
  assert (Hmin : Nat.ltb (Nat.min (n_samples (map scale_feature (x0 :: X0)))
                                  (n_features (map scale_feature (x0 :: X0))))
                         2 = false).
  { cbn [map n_samples]. unfold n_features.
    rewrite scale_feature_length, Hl0. cbn [length]. rewrite length_map.
    apply Nat.ltb_ge. simpl in HlenX. lia. }
  rewrite Hmin. cbn [bind]. eexists. reflexivity.
Qed.

(** C9.  In [preprocess] a numeric column is filled forward first and
    backward second: every position keeps its reading, a gap takes the
    nearest earlier reading and, only when there is none, the nearest
    later one.  A column with a reading has no gap left and stays in the
    frame; a column that is still entirely empty is dropped.  This
    happens before the scaling and the health computation: when
    [preprocess] returns on a frame of numeric sensor columns, the
    sensor columns of its frame are the filled ones, the array the
    scaler took is the array of these columns, none with a gap, and the
    anomaly score is computed from that array; and [preprocess] does
    return on a frame with at least two rows and two numeric sensor
    columns left by the filling. *)
Theorem fill_gaps_forward_then_backward :
  forall df name xs,
    In (name, Float64 xs) (columns df) ->
    (forall i, (i < length xs)%nat ->
               nth_error (bfill (ffill xs)) i = Some (gap_filled xs i))
    /\ (forall i v, nth_error xs i = Some (Some v) -> gap_filled xs i = Some v)
    /\ (entirely_empty xs = false ->
        complete (bfill (ffill xs)) = true
        /\ In (name, Float64 (bfill (ffill xs))) (columns (fill_gaps df)))
    /\ (entirely_empty xs = true ->
        ~ In (name, Float64 (bfill (ffill xs))) (columns (fill_gaps df)))
    /\ (forall name' ys,
           In (name', Float64 ys) (columns (fill_gaps df)) ->
           complete ys = true)
    /\ (Forall (fun nc => exists ys, snd nc = Float64 ys) (sensor_cols df) ->
        forall out,
           preprocess df = Ok out ->
           sensor_cols out = sensor_cols (fill_gaps df)
           /\ exists X,
               Forall2 (fun nc x => snd nc = Float64 x /\ complete x = true)
                       (sensor_cols (fill_gaps df)) X
               /\ scaler_fit_transform (sensor_cols (fill_gaps df))
                  = Ok (map scale_feature X)
               /\ anomaly_score out
                  = Some (ProjectionSpec.distance_from_origin
                            (fst (principal_components
                                    (map dropna (map scale_feature X))))
                            (snd (principal_components
                                    (map dropna (map scale_feature X))))))
    /\ (Forall (fun nc => exists ys, snd nc = Float64 ys /\ length ys = len df)
               (sensor_cols (fill_gaps df)) ->
        (2 <= length (sensor_cols (fill_gaps df)))%nat ->
        (2 <= len df)%nat ->
        exists out, preprocess df = Ok out).
Proof.
  intros df name xs Hin.
  split; [intros i Hi; apply bfill_ffill_nth; exact Hi|].
  split.
  { intros i v Hv. unfold gap_filled.
    destruct (firstn_succ_nth xs i (Some v) Hv) as [-> _].
    rewrite last_reading_app. reflexivity. }
  split.
  { intro He. pose proof (bfill_ffill_complete xs He) as Hc.
    split; [exact Hc|].
    rewrite columns_fill_gaps. apply filter_In. split.
    - apply in_map_iff. exists (name, Float64 xs). split; [reflexivity|exact Hin].
    - cbn [snd all_missing]. unfold complete in Hc.
      assert (Hlen : length (bfill (ffill xs)) = length xs)
        by (unfold ffill; rewrite bfill_length, ffill_from_length; reflexivity).
      destruct xs as [|x0 r0]; [discriminate He|].
      destruct (bfill (ffill (x0 :: r0))) as [|[q|] r]; simpl in *;
        [discriminate|reflexivity|discriminate]. }
  split.
  { intros He Hf. rewrite columns_fill_gaps in Hf.
    apply filter_In in Hf. destruct Hf as [_ Hf].
    cbn [snd all_missing] in Hf. rewrite (bfill_ffill_empty xs He) in Hf.
    unfold entirely_empty in He. rewrite He in Hf. discriminate. }
  split; [apply fill_gaps_columns_complete|].
  split; [|apply preprocess_accepts_filled].
  intros _ out Hout.
  destruct (preprocess_returns df out Hout) as (X & HX & Hs & ->).
  split.
  - unfold sensor_cols. cbn [columns].
    rewrite !sensor_cols_set_column by reflexivity. reflexivity.
  - exists X. split; [exact HX|]. split; [exact Hs|reflexivity].
Qed.

Lemma flat_sensor_frame_zero_variance : zero_variance_sensor flat_sensor_frame.
Proof.
  exists "sensor_01", [Some 5%Q; Some 5%Q; Some 5%Q].
  eexists. split; [right; left; reflexivity|].
  split; [vm_compute; reflexivity|reflexivity].
Qed.

(** C6, as the code has it.  [preprocess] raises (the scaler refuses an
    array without features) when the frame has no sensor column.  A sensor
    column of zero variance is not refused: the scaler keeps the scale 1
    for it, and a frame with at least two rows and two numeric sensor
    columns, each with a reading, is processed whatever the variance of
    its columns. *)
Theorem preprocess_rejects_no_sensor_only :
  forall df,
    (sensor_cols df = [] -> preprocess df = Raise ValueError)
    /\ (Forall (fun nc => exists xs, snd nc = Float64 xs
                                     /\ length xs = len df
                                     /\ entirely_empty xs = false)
               (sensor_cols df) ->
        (2 <= length (sensor_cols df))%nat ->
        (2 <= len df)%nat ->
        exists out, preprocess df = Ok out).
Proof.
  intro df. split.
  - intro H. unfold preprocess.
    rewrite (sensor_cols_fill_gaps_nil df H). reflexivity.
  - apply preprocess_accepts.
Qed.

End ScalerReducer.

Lemma fill_gaps_forward_then_backward_witness :
  (bfill (ffill [None; Some 1%Q; None; None; Some 2%Q; None])
   = [Some 1%Q; Some 1%Q; Some 1%Q; Some 1%Q; Some 2%Q; Some 2%Q])
  /\ columns (EtlPipeline.fill_gaps FillSpec.gap_frame)
     = [("sensor_00",
         Float64 [Some 1%Q; Some 1%Q; Some 1%Q; Some 1%Q; Some 2%Q; Some 2%Q]);
        ("sensor_02",
         Float64 [Some 3%Q; Some 3%Q; Some 4%Q; Some 5%Q; Some 5%Q; Some 6%Q])]
  /\ FillSpec.complete
       (bfill (ffill [None; Some 1%Q; None; None; Some 2%Q; None])) = true
  /\ exists out,
      @EtlPipeline.preprocess sqrt_up6_SquareRoot
                              ProjectionSpec.first_two_features
                              FillSpec.gap_frame
      = Ok out
      /\ sensor_cols out
         = [("sensor_00",
             Float64 [Some 1%Q; Some 1%Q; Some 1%Q; Some 1%Q; Some 2%Q; Some 2%Q]);
            ("sensor_02",
             Float64 [Some 3%Q; Some 3%Q; Some 4%Q; Some 5%Q; Some 5%Q; Some 6%Q])].
Proof.
  destruct (@fill_gaps_forward_then_backward
              sqrt_up6_SquareRoot ProjectionSpec.first_two_features
              FillSpec.gap_frame
              "sensor_00"
              [None; Some 1%Q; None; None; Some 2%Q; None])
    as (_ & _ & Hfilled & _ & _ & Hout & Hreturns).
  - left. reflexivity.
  - destruct (Hfilled eq_refl) as [Hc _].
    split; [reflexivity|]. split; [reflexivity|]. split; [exact Hc|].
    destruct Hreturns as [out Ho].
    + repeat constructor; eexists; split; reflexivity.
    + apply Nat.leb_le. reflexivity.
    + apply Nat.leb_le. reflexivity.
    + exists out. split; [exact Ho|].
      assert (Hnum : Forall (fun nc : string * column =>
                               exists ys, snd nc = Float64 ys)
                            (sensor_cols FillSpec.gap_frame))
        by (repeat constructor; eexists; reflexivity).
      destruct (Hout Hnum out Ho) as [Hsc _].
      rewrite Hsc. reflexivity.
Defined.

Lemma preprocess_rejects_no_sensor_only_witness :
  (forall pr : EtlPipeline.Projection,
      EtlPipeline.preprocess FillSpec.no_sensor_frame = Raise ValueError)
  /\ (forall pr : EtlPipeline.Projection,
         exists out, EtlPipeline.preprocess FillSpec.flat_sensor_frame = Ok out).
Proof.
  split; intro pr.
  - apply (@preprocess_rejects_no_sensor_only
             sqrt_up6_SquareRoot pr FillSpec.no_sensor_frame).
    reflexivity.
  - apply (@preprocess_rejects_no_sensor_only
             sqrt_up6_SquareRoot pr FillSpec.flat_sensor_frame).
    + repeat constructor; eexists; repeat split; reflexivity.
    + apply Nat.leb_le. reflexivity.
    + apply Nat.leb_le. reflexivity.
Defined.

(** C6, as the claim has it, fails: no square root and no projection make
    [preprocess] refuse every frame with a sensor column of zero
    variance. *)
Lemma preprocess_accepts_zero_variance :
  ~ (exists (sq : SquareRoot) (pr : EtlPipeline.Projection),
        forall df,
          FillSpec.zero_variance_sensor df ->
          raises (EtlPipeline.preprocess df)).
Proof.
  intros [sq [pr H]].
  destruct (H FillSpec.flat_sensor_frame flat_sensor_frame_zero_variance)
    as [e He].
  destruct (@preprocess_accepts sq pr FillSpec.flat_sensor_frame) as [out Hout].
  - repeat constructor; eexists; repeat split; reflexivity.
  - apply Nat.leb_le. reflexivity.
  - apply Nat.leb_le. reflexivity.
  - rewrite Hout in He. discriminate.
Qed.

(** * More of the code *)

(** ** The health metrics of the dataset *)

Section SystemHealthMetrics.

Import AnomalyInsights CountSpec.

Lemma length_select_eqb :
  forall v (st : list string),
    length (select (map (fun s => String.eqb s v) st) st)
    = count_occ string_dec st v.
Proof.
  intros v st. induction st as [|s r IH]; [reflexivity|].
  cbn [map select count_occ].
  destruct (String.eqb_spec s v) as [E|E]; destruct (string_dec s v) as [D|D];
    try congruence; simpl; rewrite IH; reflexivity.
Qed.

Lemma len_select_status :
  forall v df,
    len (select_rows (map (fun s => String.eqb s v) (machine_status df)) df)
    = status_count v df.
Proof.
  intros v df. unfold len, select_rows, status_count. cbn [machine_status].
  apply length_select_eqb.
Qed.

Lemma count_two_statuses :
  forall (st : list string) a b,
    a <> b ->
    (count_occ string_dec st a + count_occ string_dec st b <= length st)%nat.
Proof.
  intros st a b Hab. induction st as [|s r IH]; [simpl; lia|].
  cbn [count_occ length].
  destruct (string_dec s a), (string_dec s b); try congruence; lia.
Qed.

Lemma count_failures_zero :
  forall st : list string,
    (count_occ string_dec st "BROKEN" = 0%nat
     /\ count_occ string_dec st "RECOVERING" = 0%nat)
    <-> Forall (fun s => isin s failure_statuses = false) st.
Proof.
  induction st as [|s r IH].
  - split; [constructor|split; reflexivity].
  - cbn [count_occ]. split.
    + intros [HB HR].
      destruct (string_dec s "BROKEN") as [E|E]; [discriminate|].
      destruct (string_dec s "RECOVERING") as [E'|E']; [discriminate|].
      constructor; [|apply IH; split; assumption].
      unfold isin, failure_statuses. cbn [existsb].
      apply String.eqb_neq in E. apply String.eqb_neq in E'.
      rewrite E, E'. reflexivity.
    + intro H. inversion H as [|? ? Hs Hr]; subst.
      unfold isin, failure_statuses in Hs. cbn [existsb] in Hs.
      apply orb_false_iff in Hs. destruct Hs as [E Hs].
      apply orb_false_iff in Hs. destruct Hs as [E' _].
      apply String.eqb_neq in E. apply String.eqb_neq in E'.
      destruct (string_dec s "BROKEN"); [congruence|].
      destruct (string_dec s "RECOVERING"); [congruence|].
      apply IH. exact Hr.
Qed.

Lemma percentage_bounds :
  forall k t : Z,
    0 <= k <= t -> 0 < t ->
    (0 <= inject_Z k / inject_Z t * 100)%Q
    /\ (inject_Z k / inject_Z t * 100 <= 100)%Q
    /\ ((inject_Z k / inject_Z t * 100 == 100)%Q <-> k = t).
Proof.
  intros k t Hk Ht. destruct t as [|p|p]; try lia.
  unfold Qle, Qeq, Qdiv, Qmult, Qinv, inject_Z. cbn [Qnum Qden].
  rewrite ?Pos.mul_1_l, ?Pos.mul_1_r, ?Z.mul_1_r, ?Z.mul_1_l.
  repeat split; try lia.
Qed.

(** X1.  On a dataset with rows the uptime is a percentage between 0 and
    100, and it is 100 exactly when no row is BROKEN or RECOVERING; the
    two counters count rows, not events.  On a dataset that has its
    column [machine_status] and no row, the division by the number of
    points raises. *)
Theorem get_system_health_metrics_uptime :
  forall df,
    empty df = false ->
    (exists m,
        get_system_health_metrics df = Return m
        /\ (0 <= uptime_pct m)%Q /\ (uptime_pct m <= 100)%Q
        /\ ((uptime_pct m == 100)%Q
            <-> Forall (fun s => isin s failure_statuses = false)
                       (machine_status df))
        /\ total_failures m = status_count "BROKEN" df
        /\ recovery_events m = status_count "RECOVERING" df)
    /\ (forall df0,
           empty df0 = true ->
           get_system_health_metrics df0 = Throw ZeroDivisionError).
Proof.
  intros df Hne. split.
  - unfold get_system_health_metrics.
    unfold empty in Hne. rewrite Hne.
    eexists. split; [reflexivity|].
    cbn [uptime_pct total_failures recovery_events].
    rewrite !len_select_status. unfold status_count.
    pose proof (count_two_statuses (machine_status df) "BROKEN" "RECOVERING")
      as Hcount.
    assert (Hlen : (0 < len df)%nat) by (apply Nat.eqb_neq in Hne; lia).
    unfold len in *.
    set (B := count_occ string_dec (machine_status df) "BROKEN") in *.
    set (R := count_occ string_dec (machine_status df) "RECOVERING") in *.
    set (T := length (machine_status df)) in *.
    assert (HBR : (B + R <= T)%nat) by (apply Hcount; discriminate).
    destruct (percentage_bounds (Z.of_nat T - Z.of_nat B - Z.of_nat R)
                                (Z.of_nat T)) as (H0 & H100 & Heq); try lia.
    split; [exact H0|]. split; [exact H100|].
    split; [|split; reflexivity].
    rewrite Heq. rewrite <- count_failures_zero. fold B R. lia.
  - intros df0 H0. unfold get_system_health_metrics.
    unfold empty in H0. rewrite H0. reflexivity.
Qed.

Lemma get_system_health_metrics_uptime_witness :
  exists m,
    get_system_health_metrics
      (mkDataFrame [0; 60; 120; 180] ["NORMAL"; "BROKEN"; "NORMAL"; "NORMAL"]
                   None [])
    = Return m
    /\ (uptime_pct m == 75)%Q /\ total_failures m = 1%nat.
Proof.
  destruct (get_system_health_metrics_uptime
              (mkDataFrame [0; 60; 120; 180]
                           ["NORMAL"; "BROKEN"; "NORMAL"; "NORMAL"] None []))
    as [(m & Hm & _) _].
  - reflexivity.
  - exists m. split; [exact Hm|].
    injection Hm as <-. split; reflexivity.
Defined.

End SystemHealthMetrics.

(** ** The quality score of the dataset *)

Section QualityScore.

Import DataQuality CountSpec EtlPipeline FillSpec.

Lemma quality_bounds :
  forall m t : Z,
    0 <= m <= t -> 0 < t ->
    (0 <= 100 * (1 - inject_Z m / inject_Z t))%Q
    /\ (100 * (1 - inject_Z m / inject_Z t) <= 100)%Q
    /\ ((100 * (1 - inject_Z m / inject_Z t) == 100)%Q <-> m = 0).
Proof.
  intros m t Hm Ht. destruct t as [|p|p]; try lia.
  unfold Qle, Qeq, Qminus, Qplus, Qopp, Qdiv, Qmult, Qinv, inject_Z.
  cbn [Qnum Qden].
  rewrite ?Pos.mul_1_l, ?Pos.mul_1_r, ?Z.mul_1_r, ?Z.mul_1_l.
  repeat split; try nia.
Qed.

Lemma isna_sum_count_missing :
  forall xs : list float,
    length (filter (fun x => match x with None => true | Some _ => false end) xs)
    = HealthSpec.count_missing xs.
Proof.
  induction xs as [|[q|] r IH]; simpl; congruence.
Qed.

Lemma count_missing_le_length :
  forall xs, (HealthSpec.count_missing xs <= length xs)%nat.
Proof.
  induction xs as [|[q|] r IH]; simpl; lia.
Qed.

Lemma missing_cells_model :
  forall df,
    fold_right Nat.add 0%nat
               (map (fun nc => column_isna_sum (snd nc)) (sensor_cols df))
    = missing_cells df.
Proof.
  intro df. unfold missing_cells. f_equal. apply map_ext.
  intros [name [xs|ss]]; cbn [snd column_isna_sum]; [|reflexivity].
  apply isna_sum_count_missing.
Qed.

Lemma missing_cells_bound :
  forall df,
    Forall (fun nc => column_rows (snd nc) = len df) (sensor_cols df) ->
    (missing_cells df <= len df * length (sensor_cols df))%nat.
Proof.
  intros df. unfold missing_cells.
  induction (sensor_cols df) as [|[name c] r IH]; intro H; [simpl; lia|].
  inversion H as [|? ? Hc Hr]; subst. cbn [snd] in Hc.
  cbn [map fold_right length snd]. specialize (IH Hr).
  destruct c as [xs|ss]; cbn [column_rows] in Hc.
  - pose proof (count_missing_le_length xs). nia.
  - nia.
Qed.

(** X2.  On a frame whose sensor columns hold one value per row the
    quality score is a percentage between 0 and 100; it is 100 exactly
    when no sensor cell is missing; and a frame without rows or without
    sensor columns scores 0 instead of dividing by zero. *)
Theorem get_data_quality_metrics_score :
  forall df,
    Forall (fun nc => column_rows (snd nc) = len df) (sensor_cols df) ->
    (0 <= quality_score (get_data_quality_metrics df))%Q
    /\ (quality_score (get_data_quality_metrics df) <= 100)%Q
    /\ ((0 < len df * length (sensor_cols df))%nat ->
        ((quality_score (get_data_quality_metrics df) == 100)%Q
         <-> missing_cells df = 0%nat))
    /\ ((len df * length (sensor_cols df))%nat = 0%nat ->
        quality_score (get_data_quality_metrics df) = 0%Q).
Proof.
  intros df Hwf. unfold get_data_quality_metrics. cbn [quality_score].
  rewrite missing_cells_model.
  pose proof (missing_cells_bound df Hwf) as Hb.
  destruct (Nat.ltb_spec 0 (len df * length (sensor_cols df))) as [Hpos|Hzero].
  - destruct (quality_bounds (Z.of_nat (missing_cells df))
                             (Z.of_nat (len df * length (sensor_cols df))))
      as (H0 & H100 & Heq); try lia.
    split; [exact H0|]. split; [exact H100|]. split.
    + intros _. rewrite Heq. lia.
    + intro Hz. lia.
  - split; [apply Qle_refl|]. split; [discriminate|].
    split; [intro; lia|reflexivity].
Qed.

Lemma get_data_quality_metrics_score_witness :
  Qle 0 (quality_score
           (get_data_quality_metrics
              (mkDataFrame [0; 60] ["NORMAL"; "NORMAL"] None
                           [("sensor_00", Float64 [Some 1%Q; None]);
                            ("sensor_01", Float64 [Some 2%Q; Some 3%Q])])))
  /\ Qeq (quality_score
            (get_data_quality_metrics
               (mkDataFrame [0; 60] ["NORMAL"; "NORMAL"] None
                            [("sensor_00", Float64 [Some 1%Q; None]);
                             ("sensor_01", Float64 [Some 2%Q; Some 3%Q])])))
         (75 # 1).
Proof.
  destruct (get_data_quality_metrics_score
              (mkDataFrame [0; 60] ["NORMAL"; "NORMAL"] None
                           [("sensor_00", Float64 [Some 1%Q; None]);
                            ("sensor_01", Float64 [Some 2%Q; Some 3%Q])]))
    as (H0 & _).
  - repeat constructor.
  - split; [exact H0|reflexivity].
Defined.

Lemma complete_count_missing :
  forall xs, complete xs = true -> HealthSpec.count_missing xs = 0%nat.
Proof.
  unfold complete. induction xs as [|[q|] r IH]; simpl; intro H;
    [reflexivity|apply IH; exact H|discriminate].
Qed.

(** X3.  After the gap filling of the pipeline no sensor cell is
    missing: the quality score of the filled frame is 100 as soon as it
    has a row and a sensor column, and 0 otherwise. *)
Theorem get_data_quality_metrics_after_fill_gaps :
  forall df,
    missing_cells (fill_gaps df) = 0%nat
    /\ Qeq (quality_score (get_data_quality_metrics (fill_gaps df)))
           (if Nat.ltb 0 (len df * length (sensor_cols (fill_gaps df)))
            then 100 # 1 else 0 # 1).
Proof.
  intro df.
  assert (Hm : missing_cells (fill_gaps df) = 0%nat).
  { unfold missing_cells.
    assert (H : Forall (fun nc : string * column =>
                          match snd nc with
                          | Float64 xs => HealthSpec.count_missing xs
                          | Object _ => 0%nat
                          end = 0%nat)
                       (sensor_cols (fill_gaps df))).
    { apply Forall_forall. intros [name c] Hin. cbn [snd].
      destruct c as [ys|ss]; [|reflexivity].
      apply complete_count_missing.
      apply (fill_gaps_columns_complete df name).
      unfold sensor_cols in Hin. apply filter_In in Hin. tauto. }
    induction H as [|nc r Hnc _ IH]; [reflexivity|].
    cbn [map fold_right]. rewrite Hnc, IH. reflexivity. }
  split; [exact Hm|].
  unfold get_data_quality_metrics. cbn [quality_score].
  rewrite missing_cells_model, Hm.
  change (len (fill_gaps df)) with (len df).
  destruct (Nat.ltb 0 (len df * length (sensor_cols (fill_gaps df))));
    [|reflexivity].
  change (inject_Z (Z.of_nat 0)) with 0%Q.
  unfold Qdiv. rewrite Qmult_0_l. reflexivity.
Qed.

End QualityScore.

(** ** What the event extractor returns *)

Section ExtractorOutcomes.

Import AnomalyInsights EventSpec.

Lemma collect_some :
  forall {A B : Type} (body : A -> result (option B)) l bs a b,
    In a l -> body a = Ok (Some b) -> collect body l = Ok bs -> bs <> [].
Proof.
  intros A B body l. induction l as [|x r IH]; intros bs a b Hin Hb Hc;
    [contradiction|].
  cbn [collect] in Hc.
  destruct (body x) as [o|e] eqn:Ex; [|discriminate]. cbn [bind] in Hc.
  destruct (collect body r) as [rest|e] eqn:Er; [|discriminate].
  cbn [bind] in Hc. injection Hc as <-.
  destruct Hin as [->|Hin].
  - rewrite Hb in Ex. injection Ex as <-. discriminate.
  - destruct o; [discriminate|]. eapply IH; eauto.
Qed.

Lemma collect_Forall :
  forall {A B : Type} (body : A -> result (option B)) (P : B -> Prop) l bs,
    (forall a b, In a l -> body a = Ok (Some b) -> P b) ->
    collect body l = Ok bs -> Forall P bs.
Proof.
  intros A B body P l. induction l as [|x r IH]; intros bs HP Hc.
  - injection Hc as <-. constructor.
  - cbn [collect] in Hc.
    destruct (body x) as [o|e] eqn:Ex; [|discriminate]. cbn [bind] in Hc.
    destruct (collect body r) as [rest|e] eqn:Er; [|discriminate].
    cbn [bind] in Hc. injection Hc as <-.
    assert (Hrest : Forall P rest).
    { apply IH; [|reflexivity]. intros a b Ha. apply HP. right. exact Ha. }
    destruct o as [b|]; [|exact Hrest].
    constructor; [|exact Hrest]. apply (HP x b); [left; reflexivity|exact Ex].
Qed.

Lemma collect_events_total :
  forall has_score (gs : list (list Row)),
    Forall (fun g => g <> []) gs ->
    exists events, collect (event_of_group has_score) gs = Ok events.
Proof.
  intros has_score gs H. induction H as [|g r Hg _ [events IH]].
  - exists []. reflexivity.
  - destruct g as [|first g]; [congruence|].
    cbn [collect]. unfold event_of_group at 1.
    destruct (isin (row_machine_status first) failure_statuses);
      cbn [bind]; rewrite IH; cbn [bind]; eexists; reflexivity.
Qed.

Lemma state_groups_inhabited :
  forall df,
    Forall (fun g : list Row => g <> [])
           (map snd
                (groupby (cumsum (ne_shifted (shift (machine_status df))
                                             (machine_status df)))
                         (itertuples df))).
Proof.
  intro df. apply Forall_map.
  eapply Forall_impl; [|apply (groupby_members (fun _ : Row => True))].
  - intros kg [H _]. exact H.
  - apply Forall_forall. intros. exact I.
Qed.

Lemma fold_min_le :
  forall l a, fold_left Z.min l a <= a.
Proof.
  induction l as [|b l IH]; intro a; simpl; [lia|].
  specialize (IH (Z.min a b)). lia.
Qed.

Lemma fold_max_ge :
  forall l a, a <= fold_left Z.max l a.
Proof.
  induction l as [|b l IH]; intro a; simpl; [lia|].
  specialize (IH (Z.max a b)). lia.
Qed.

(** What every event of a group looks like, sorted group or not. *)
Lemma event_of_group_shape :
  forall has_score g e,
    event_of_group has_score g = Ok (Some e) ->
    start_time e <= end_time e
    /\ duration_mins e = (inject_Z (end_time e - start_time e) / 60)%Q
    /\ (0 <= duration_mins e)%Q
    /\ isin (status e) failure_statuses = true.
Proof.
  intros has_score [|first g] e H; [discriminate|].
  unfold event_of_group in H.
  destruct (isin (row_machine_status first) failure_statuses) eqn:Es;
    [|discriminate].
  injection H as <-. cbn [start_time end_time duration_mins status].
  pose proof (fold_min_le (map row_timestamp (first :: g)) (row_timestamp first)).
  pose proof (fold_max_ge (map row_timestamp (first :: g)) (row_timestamp first)).
  cbn [map fold_left] in *.
  split; [lia|]. split; [reflexivity|]. split; [|exact Es].
  apply Qle_shift_div_l; [reflexivity|].
  rewrite Qmult_0_l. change 0%Q with (inject_Z 0). rewrite <- Zle_Qle. lia.
Qed.

(** The events of a returned frame, before the sort. *)
Lemma get_anomaly_events_inversion :
  forall df threshold f,
    empty df = false ->
    get_anomaly_events df threshold = Ok f ->
    exists events,
      events <> []
      /\ collect (event_of_group
                    (match anomaly_score df with Some _ => true | None => false end))
                 (map snd
                      (groupby (cumsum (ne_shifted (shift (machine_status df))
                                                   (machine_status df)))
                               (itertuples df)))
         = Ok events
      /\ f = Records (sort_by newest_first events).
Proof.
  intros df threshold f Hne H. unfold get_anomaly_events in H. rewrite Hne in H.
  destruct (collect _ _) as [events|e] eqn:Ec; [|discriminate].
  cbn [bind] in H. exists events.
  destruct events as [|e es]; [discriminate|].
  cbn [pd_DataFrame sort_values] in H. injection H as <-.
  split; [discriminate|]. split; reflexivity.
Qed.

(** X4.  On a dataset with rows the extractor has two outcomes only: the
    KeyError of the missing column [start_time], or a frame with at least
    one event; it never returns an empty frame, so a caller's test
    [events_df.empty] can only succeed on a dataset without rows.  When
    every column has one value per row, the KeyError is raised exactly
    when no row is BROKEN or RECOVERING. *)
Theorem get_anomaly_events_never_empty :
  forall df threshold,
    empty df = false ->
    (get_anomaly_events df threshold = Raise (KeyError "start_time")
     \/ exists e es, get_anomaly_events df threshold = Ok (Records (e :: es)))
    /\ (forall f, get_anomaly_events df threshold = Ok f -> frame_empty f = false)
    /\ (well_formed df ->
        (get_anomaly_events df threshold = Raise (KeyError "start_time")
         <-> Forall (fun s => isin s failure_statuses = false)
                    (machine_status df))).
Proof.
  intros df threshold Hne.
  assert (Hcases :
            get_anomaly_events df threshold = Raise (KeyError "start_time")
            \/ exists e es, get_anomaly_events df threshold = Ok (Records (e :: es))).
  { unfold get_anomaly_events. rewrite Hne.
    destruct (collect_events_total
                (match anomaly_score df with Some _ => true | None => false end)
                _ (state_groups_inhabited df)) as [events Hc].
    rewrite Hc. cbn [bind].
    destruct events as [|e es]; [left; reflexivity|right].
    cbn [pd_DataFrame sort_values].
    destruct (sort_by newest_first (e :: es)) as [|e' es'] eqn:Es.
    - pose proof (sort_by_length newest_first (e :: es)) as Hl.
      rewrite Es in Hl. discriminate.
    - eauto. }
  split; [exact Hcases|]. split.
  - intros f Hf. destruct Hcases as [Hr|[e [es He]]]; [congruence|].
    rewrite He in Hf. injection Hf as <-. reflexivity.
  - intro Hwf. split.
    + intro Hraise.
      destruct (forallb (fun s => negb (isin s failure_statuses))
                        (machine_status df)) eqn:Eall.
      * rewrite forallb_forall in Eall. apply Forall_forall. intros s Hs.
        apply Eall in Hs. apply negb_true_iff in Hs. exact Hs.
      * exfalso.
        assert (Hex : exists s, In s (machine_status df)
                                /\ isin s failure_statuses = true).
        { clear - Eall. induction (machine_status df) as [|s r IH];
            [discriminate|].
          cbn [forallb] in Eall. destruct (isin s failure_statuses) eqn:Es.
          - exists s. split; [left; reflexivity|exact Es].
          - cbn [negb andb] in Eall. destruct (IH Eall) as [s' [Hin Hs']].
            exists s'. split; [right; exact Hin|exact Hs']. }
        destruct Hex as [s [Hin Hs]].
        rewrite <- (itertuples_statuses df Hwf) in Hin.
        apply in_map_iff in Hin. destruct Hin as [r [Hr Hin]].
        rewrite <- (runs_concat (itertuples df)) in Hin.
        apply in_concat in Hin. destruct Hin as [g [Hg Hrg]].
        pose proof (runs_uniform (itertuples df)) as Hu.
        rewrite Forall_forall in Hu. destruct (Hu g Hg) as [Hgne Hst].
        unfold has_status in Hst. rewrite Forall_forall in Hst.
        assert (Hev : exists e,
                   event_of_group
                     (match anomaly_score df with Some _ => true | None => false end)
                     g = Ok (Some e)).
        { destruct g as [|first g']; [congruence|].
          unfold event_of_group.
          assert (Hf : isin (row_machine_status first) failure_statuses = true).
          { rewrite <- Hs, <- Hr.
            rewrite (Hst r Hrg). cbn [group_status]. reflexivity. }
          rewrite Hf. eexists. reflexivity. }
        destruct Hev as [e He].
        unfold get_anomaly_events in Hraise. rewrite Hne in Hraise.
        rewrite (state_groups_runs df Hwf) in Hraise.
        destruct (collect _ (runs (itertuples df))) as [events|x] eqn:Ec.
        -- pose proof (collect_some _ _ _ _ _ Hg He Ec) as Hnn.
           cbn [bind] in Hraise. destruct events; [congruence|discriminate].
        -- destruct (collect_events_total
                       (match anomaly_score df with Some _ => true | None => false end)
                       (runs (itertuples df))) as [events Hc].
           ++ eapply Forall_impl; [|exact (runs_uniform (itertuples df))].
              intros g0 [H0 _]. exact H0.
           ++ congruence.
    + intro Hall. unfold get_anomaly_events. rewrite Hne.
      rewrite collect_none; [reflexivity|].
      apply Forall_map.
      eapply Forall_impl;
        [| apply (groupby_members
                    (fun r => isin (row_machine_status r) failure_statuses = false))].
      * intros [k g] [Hg HP]. simpl in *.
        apply event_of_group_not_failure; assumption.
      * rewrite Forall_forall in *. intros r Hr.
        apply Hall. apply itertuples_status_in. exact Hr.
Qed.

Lemma get_anomaly_events_never_empty_witness :
  exists e es,
    get_anomaly_events
      (mkDataFrame [0; 60; 120] ["NORMAL"; "BROKEN"; "NORMAL"] None []) 2
    = Ok (Records (e :: es)).
Proof.
  destruct (get_anomaly_events_never_empty
              (mkDataFrame [0; 60; 120] ["NORMAL"; "BROKEN"; "NORMAL"] None []) 2)
    as [[Hraise|Hok] _].
  - reflexivity.
  - discriminate Hraise.
  - exact Hok.
Defined.

(** X5.  Every event of a returned frame, on sorted input or not, starts
    no later than it ends, lasts the minutes between its two timestamps
    (never a negative number), and carries a failure status. *)
Theorem get_anomaly_events_event_shape :
  forall df threshold f,
    get_anomaly_events df threshold = Ok f ->
    Forall (fun e =>
              start_time e <= end_time e
              /\ duration_mins e = (inject_Z (end_time e - start_time e) / 60)%Q
              /\ (0 <= duration_mins e)%Q
              /\ isin (status e) failure_statuses = true)
           (frame_rows f).
Proof.
  intros df threshold f H.
  destruct (empty df) eqn:Hne.
  - unfold get_anomaly_events in H. rewrite Hne in H. injection H as <-.
    constructor.
  - destruct (get_anomaly_events_inversion df threshold f Hne H)
      as (events & _ & Hc & ->).
    cbn [frame_rows].
    eapply Permutation_Forall; [apply sort_by_perm|].
    eapply collect_Forall; [|exact Hc].
    intros g e _ He. eapply event_of_group_shape. exact He.
Qed.

Lemma get_anomaly_events_event_shape_witness :
  Forall (fun e =>
            start_time e <= end_time e
            /\ duration_mins e = (inject_Z (end_time e - start_time e) / 60)%Q
            /\ (0 <= duration_mins e)%Q
            /\ isin (status e) failure_statuses = true)
         [ {| start_time := 60; end_time := 120;
              duration_mins := (inject_Z (120 - 60) / 60)%Q;
              status := "BROKEN"; max_anomaly_score := Some 0%Q |} ].
Proof.
  apply (get_anomaly_events_event_shape
           (mkDataFrame [120; 60; 0] ["BROKEN"; "BROKEN"; "NORMAL"] None []) 2
           (Records [ {| start_time := 60; end_time := 120;
                         duration_mins := (inject_Z (120 - 60) / 60)%Q;
                         status := "BROKEN"; max_anomaly_score := Some 0%Q |} ])).
  reflexivity.
Defined.

End ExtractorOutcomes.

(** ** From the events to the reliability and the risk *)

Section EventsToMetrics.

Import AnomalyInsights EventSpec MetricsSpec CountSpec.

Lemma calculate_reliability_metrics_records :
  forall rows total_duration_hours,
    failures rows <> [] ->
    calculate_reliability_metrics (Records rows) total_duration_hours
    = Ok {| MTBF :=
              Finite ((total_duration_hours
                       - Qsum (map duration_mins (failures rows)) / 60)
                      / inject_Z (Z.of_nat (length (failures rows))));
            MTTR :=
              Finite (Qsum (map duration_mins (failures rows)) / 60
                      / inject_Z (Z.of_nat (length (failures rows))) * 60) |}.
Proof.
  intros rows total Hne. unfold calculate_reliability_metrics.
  assert (Hfe : frame_empty (Records rows) = false).
  { destruct rows; [exfalso; apply Hne; reflexivity|reflexivity]. }
  rewrite Hfe. cbn [frame_column bind frame_select frame_rows].
  rewrite map_map, (select_map_filter (fun e => isin (status e) failure_statuses)).
  fold (failures rows).
  destruct (failures rows) as [|f fs]; [congruence|]. reflexivity.
Qed.

Lemma failures_all :
  forall events,
    Forall (fun e => isin (status e) failure_statuses = true) events ->
    failures events = events.
Proof.
  intros events H. unfold failures. induction H as [|e r He _ IH].
  - reflexivity.
  - cbn [filter]. rewrite He, IH. reflexivity.
Qed.

Lemma Qsum_nonneg :
  forall l, Forall (fun q => (0 <= q)%Q) l -> (0 <= Qsum l)%Q.
Proof.
  intros l H. induction H as [|q r Hq _ IH]; simpl.
  - apply Qle_refl.
  - replace 0%Q with (0 + 0)%Q by reflexivity. apply Qplus_le_compat; assumption.
Qed.

Lemma Qsum_permutation :
  forall l l', Permutation l l' -> (Qsum l == Qsum l')%Q.
Proof.
  intros l l' H. induction H; simpl.
  - reflexivity.
  - rewrite IHPermutation. reflexivity.
  - ring.
  - rewrite IHPermutation1. exact IHPermutation2.
Qed.

(** The events the extractor returns, read by the two calculators. *)
Lemma returned_events :
  forall df threshold f,
    empty df = false ->
    get_anomaly_events df threshold = Ok f ->
    exists e es,
      f = Records (e :: es)
      /\ Forall (fun e => (0 <= duration_mins e)%Q
                          /\ isin (status e) failure_statuses = true)
                (e :: es).
Proof.
  intros df threshold f Hne H.
  destruct (get_anomaly_events_inversion df threshold f Hne H)
    as (events & Hnn & Ec & ->).
  assert (HF : Forall (fun e => (0 <= duration_mins e)%Q
                                /\ isin (status e) failure_statuses = true)
                      (sort_by newest_first events)).
  { eapply Permutation_Forall; [apply sort_by_perm|].
    eapply collect_Forall; [|exact Ec].
    intros g e _ He. apply event_of_group_shape in He. tauto. }
  destruct (sort_by newest_first events) as [|e es] eqn:Es.
  - pose proof (sort_by_length newest_first events) as Hl.
    rewrite Es in Hl. destruct events; [congruence|discriminate].
  - exists e, es. split; [reflexivity|exact HF].
Qed.

(** X6.  The frame the extractor returns for a dataset with rows never
    gives the sentinel: every event counts as a failure, so the
    calculator returns the finite MTBF = (total - downtime) / events and
    MTTR = the mean duration of the events, which is not negative. *)
Theorem reliability_of_extracted_events :
  forall df threshold f total_duration_hours,
    empty df = false ->
    get_anomaly_events df threshold = Ok f ->
    exists mtbf mttr,
      calculate_reliability_metrics f total_duration_hours
      = Ok {| MTBF := Finite mtbf; MTTR := Finite mttr |}
      /\ failures (frame_rows f) = frame_rows f
      /\ (mtbf == (total_duration_hours
                   - Qsum (map duration_mins (frame_rows f)) / 60)
                  / inject_Z (Z.of_nat (length (frame_rows f))))%Q
      /\ (mttr == Qsum (map duration_mins (frame_rows f))
                  / inject_Z (Z.of_nat (length (frame_rows f))))%Q
      /\ (0 <= mttr)%Q.
Proof.
  intros df threshold f total Hne H.
  destruct (returned_events df threshold f Hne H) as (e & es & -> & HF).
  assert (Hall : failures (e :: es) = e :: es).
  { apply failures_all. eapply Forall_impl; [|exact HF]. intros a [_ Ha]. exact Ha. }
  eexists _, _. split.
  - apply calculate_reliability_metrics_records. rewrite Hall. discriminate.
  - cbn [frame_rows]. rewrite Hall.
    split; [reflexivity|]. split; [reflexivity|].
    assert (Hn : (0 < inject_Z (Z.of_nat (length (e :: es))))%Q).
    { change 0%Q with (inject_Z 0). rewrite <- Zlt_Qlt. simpl length. lia. }
    assert (Hsum : (0 <= Qsum (map duration_mins (e :: es)))%Q).
    { apply Qsum_nonneg. apply Forall_map.
      eapply Forall_impl; [|exact HF]. intros a [Ha _]. exact Ha. }
    assert (Heq : (Qsum (map duration_mins (e :: es)) / 60
                   / inject_Z (Z.of_nat (length (e :: es))) * 60
                   == Qsum (map duration_mins (e :: es))
                      / inject_Z (Z.of_nat (length (e :: es))))%Q).
    { field. intro Hz. rewrite Hz in Hn. apply (Qlt_irrefl 0). exact Hn. }
    split; [exact Heq|]. rewrite Heq.
    apply Qle_shift_div_l; [exact Hn|]. rewrite Qmult_0_l. exact Hsum.
Qed.

Lemma reliability_of_extracted_events_witness :
  exists mtbf mttr,
    calculate_reliability_metrics
      (Records [ {| start_time := 60; end_time := 120;
                    duration_mins := (inject_Z (120 - 60) / 60)%Q;
                    status := "BROKEN"; max_anomaly_score := Some 0%Q |} ])
      10
    = Ok {| MTBF := Finite mtbf; MTTR := Finite mttr |}
    /\ (0 <= mttr)%Q.
Proof.
  destruct (reliability_of_extracted_events
              (mkDataFrame [0; 60; 120] ["NORMAL"; "BROKEN"; "BROKEN"] None []) 2
              (Records [ {| start_time := 60; end_time := 120;
                            duration_mins := (inject_Z (120 - 60) / 60)%Q;
                            status := "BROKEN"; max_anomaly_score := Some 0%Q |} ])
              10)
    as (mtbf & mttr & Hr & _ & _ & _ & Hpos).
  - reflexivity.
  - reflexivity.
  - exists mtbf, mttr. split; assumption.
Defined.

(** X7.  The risk of the events the extractor returns is not negative
    when the cost rate is not. *)
Theorem financial_risk_of_extracted_events :
  forall df threshold f cost_per_minute,
    get_anomaly_events df threshold = Ok f ->
    (0 <= cost_per_minute)%Q ->
    exists risk,
      calculate_financial_risk f cost_per_minute = Ok risk /\ (0 <= risk)%Q.
Proof.
  intros df threshold f cost H Hcost.
  destruct (empty df) eqn:Hne.
  - unfold get_anomaly_events in H. rewrite Hne in H. injection H as <-.
    exists 0%Q. split; [reflexivity|apply Qle_refl].
  - destruct (returned_events df threshold f Hne H) as (e & es & -> & HF).
    eexists. split; [reflexivity|].
    apply Qmult_le_0_compat; [|exact Hcost].
    apply Qsum_nonneg. apply Forall_map.
    eapply Forall_impl; [|exact HF]. intros a [Ha _]. exact Ha.
Qed.

Lemma financial_risk_of_extracted_events_witness :
  exists risk,
    calculate_financial_risk
      (Records [ {| start_time := 60; end_time := 120;
                    duration_mins := (inject_Z (120 - 60) / 60)%Q;
                    status := "BROKEN"; max_anomaly_score := Some 0%Q |} ])
      500
    = Ok risk /\ (0 <= risk)%Q.
Proof.
  apply (financial_risk_of_extracted_events
           (mkDataFrame [0; 60; 120] ["NORMAL"; "BROKEN"; "BROKEN"] None []) 2).
  - reflexivity.
  - discriminate.
Defined.

End EventsToMetrics.

(** ** The figures of the dashboard *)

Section DashboardFigures.

Import AnomalyInsights EventSpec MetricsSpec CountSpec.

Lemma sorted_bounds :
  forall l, StronglySorted Z.le l ->
            forall x, In x l -> hd 0 l <= x /\ x <= last l 0.
Proof.
  induction l as [|a l IH]; intros Hs x Hx; [contradiction|].
  inversion Hs as [|? ? Hs' Hall]; subst. rewrite Forall_forall in Hall.
  destruct l as [|b l'].
  - destruct Hx as [<-|[]]. simpl. lia.
  - change (last (a :: b :: l') 0) with (last (b :: l') 0).
    cbn [hd]. destruct Hx as [<-|Hx].
    + split; [lia|].
      destruct (IH Hs' b (or_introl eq_refl)) as [_ Hb].
      specialize (Hall b (or_introl eq_refl)). lia.
    + destruct (IH Hs' x Hx) as [_ Hb]. specialize (Hall x Hx). lia.
Qed.

Lemma sorted_app_le :
  forall A B, StronglySorted Z.le (A ++ B) ->
              forall a b, In a A -> In b B -> a <= b.
Proof.
  induction A as [|x A IH]; intros B Hs a b Ha Hb; [contradiction|].
  inversion Hs as [|? ? Hs' Hall]; subst. rewrite Forall_forall in Hall.
  destruct Ha as [<-|Ha].
  - apply Hall. apply in_or_app. right. exact Hb.
  - eapply IH; eassumption.
Qed.

Lemma last_in :
  forall (l : list Z), l <> [] -> In (last l 0) l.
Proof.
  induction l as [|a l IH]; intro H; [congruence|].
  destruct l as [|b l']; [left; reflexivity|].
  right. apply IH. discriminate.
Qed.

Lemma last_app_cons :
  forall (A : list Z) b B, last (A ++ b :: B) 0 = last (b :: B) 0.
Proof.
  induction A as [|x A IH]; intros b B; [reflexivity|].
  rewrite <- app_comm_cons.
  destruct (A ++ b :: B) as [|y l] eqn:E.
  - destruct A; discriminate.
  - change (last (x :: y :: l) 0) with (last (y :: l) 0).
    rewrite <- E. apply IH.
Qed.

(** Two stretches of a sorted series span no more than the whole. *)
Lemma span_app :
  forall A B,
    A <> [] -> StronglySorted Z.le (A ++ B) ->
    0 <= span A /\ span A + span B <= span (A ++ B).
Proof.
  intros A B HA Hs. unfold span.
  destruct (StronglySorted_app_parts Z.le A B Hs) as [HsA HsB].
  destruct (sorted_bounds A HsA (last A 0) (last_in A HA)) as [HA1 _].
  split; [lia|].
  destruct A as [|a A']; [congruence|].
  destruct B as [|b B'].
  - rewrite app_nil_r. simpl hd at 2. simpl last at 2. lia.
  - pose proof (last_app_cons (a :: A') b B') as Hlast.
    rewrite Hlast. cbn [hd app].
    assert (Hle : last (a :: A') 0 <= b).
    { apply (sorted_app_le (a :: A') (b :: B') Hs);
        [apply last_in; discriminate|left; reflexivity]. }
    destruct (sorted_bounds (b :: B') HsB b (or_introl eq_refl)) as [_ Hb].
    cbn [hd] in *. lia.
Qed.


Lemma event_of_group_sorted_duration :
  forall has_score g e,
    StronglySorted Z.le (map row_timestamp g) ->
    event_of_group has_score g = Ok (Some e) ->
    duration_mins e = (inject_Z (span (map row_timestamp g)) / 60)%Q.
Proof.
  intros has_score [|first g] e Hs H; [discriminate|].
  unfold event_of_group in H.
  destruct (isin (row_machine_status first) failure_statuses); [|discriminate].
  injection H as <-. cbn [duration_mins]. unfold span.
  cbn [map fold_left hd]. rewrite Z.min_id, Z.max_id.
  inversion Hs as [|? ? Hs' Hall]; subst.
  rewrite fold_min_lower_bound by exact Hall.
  change (map row_timestamp (first :: g))
    with (row_timestamp first :: map row_timestamp g) in Hs.
  rewrite (fold_max_sorted _ _ Hs). reflexivity.
Qed.

(** The minutes of all events of a sorted scan fit in the span of the
    rows. *)
Lemma collect_durations_bound :
  forall has_score gs events,
    Forall (fun g : list Row => g <> []) gs ->
    StronglySorted Z.le (map row_timestamp (concat gs)) ->
    collect (event_of_group has_score) gs = Ok events ->
    (Qsum (map duration_mins events) * 60
     <= inject_Z (span (map row_timestamp (concat gs))))%Q.
Proof.
  intros has_score gs. induction gs as [|g rest IH]; intros events Hne Hs Hc.
  - injection Hc as <-. simpl. discriminate.
  - inversion Hne as [|? ? Hg Hrest]; subst.
    cbn [concat] in *. rewrite map_app in *.
    destruct (StronglySorted_app_parts Z.le _ _ Hs) as [HsA HsB].
    destruct (span_app (map row_timestamp g) (map row_timestamp (concat rest)))
      as [H0 Hsum]; [destruct g; [congruence|discriminate]|exact Hs|].
    cbn [collect] in Hc.
    destruct (event_of_group has_score g) as [o|x] eqn:Eg; [|discriminate].
    cbn [bind] in Hc.
    destruct (collect (event_of_group has_score) rest) as [evs|x] eqn:Er;
      [|discriminate].
    cbn [bind] in Hc. injection Hc as <-.
    specialize (IH evs Hrest HsB eq_refl).
    assert (Htot : (inject_Z (span (map row_timestamp g))
                    + inject_Z (span (map row_timestamp (concat rest)))
                    <= inject_Z (span (map row_timestamp g
                                       ++ map row_timestamp (concat rest))))%Q).
    { rewrite <- inject_Z_plus. rewrite <- Zle_Qle. exact Hsum. }
    assert (H0q : (0 <= inject_Z (span (map row_timestamp g)))%Q).
    { change 0%Q with (inject_Z 0). rewrite <- Zle_Qle. exact H0. }
    destruct o as [e|].
    + cbn [map Qsum fold_right].
      rewrite (event_of_group_sorted_duration has_score g e HsA Eg).
      fold (Qsum (map duration_mins evs)).
      eapply Qle_trans; [|exact Htot].
      assert (Heq : ((inject_Z (span (map row_timestamp g)) / 60
                      + Qsum (map duration_mins evs)) * 60
                     == inject_Z (span (map row_timestamp g))
                        + Qsum (map duration_mins evs) * 60)%Q) by field.
      rewrite Heq. apply Qplus_le_compat; [apply Qle_refl|exact IH].
    + eapply Qle_trans; [exact IH|]. eapply Qle_trans; [|exact Htot].
      rewrite <- (Qplus_0_l (inject_Z (span (map row_timestamp (concat rest))))) at 1.
      apply Qplus_le_compat; [exact H0q|apply Qle_refl].
Qed.

Lemma dataset_span :
  forall ts,
    StronglySorted Z.le ts ->
    fold_left Z.max ts (hd 0 ts) - fold_left Z.min ts (hd 0 ts) = span ts.
Proof.
  intros [|t r] Hs; [reflexivity|].
  unfold span. cbn [hd fold_left]. rewrite Z.min_id, Z.max_id.
  inversion Hs as [|? ? Hs' Hall]; subst.
  rewrite fold_min_lower_bound by exact Hall.
  rewrite (fold_max_sorted _ _ Hs). reflexivity.
Qed.

Lemma downtime_seconds_minutes :
  forall events,
    Forall (fun e => duration_mins e
                     = (inject_Z (end_time e - start_time e) / 60)%Q) events ->
    (inject_Z (downtime_seconds events)
     == Qsum (map duration_mins events) * 60)%Q.
Proof.
  intros events H. unfold downtime_seconds.
  induction H as [|e r He _ IH]; [reflexivity|].
  cbn [map fold_right Qsum]. rewrite inject_Z_plus, IH, He.
  fold (Qsum (map duration_mins r)). field.
Qed.

(** X8.  On a dataset sorted by time, with one value per row in every
    column and at least one failure row, the dashboard computes its
    figures without raising: there are events, the total duration it
    passes on is the span of the timestamps in hours, the seconds of the
    events fit in that span, the reliability is finite, and the MTTR
    and, for a cost rate that is not negative, the risk are not
    negative.  The sign of the MTBF is not stated: the program takes a
    difference of two rounded quotients, which can fall below 0 when the
    events fill the span. *)
Theorem render_anomaly_insights_figures :
  forall df threshold cost_per_min,
    well_formed df ->
    Sorted Z.le (timestamp df) ->
    Exists (fun s => isin s failure_statuses = true) (machine_status df) ->
    exists insights event events mtbf mttr,
      render_anomaly_insights df threshold cost_per_min = Return (Some insights)
      /\ insights_events insights = Records (event :: events)
      /\ downtime_seconds (event :: events) <= span (timestamp df)
      /\ (insights_total_duration_hours insights
          == inject_Z (span (timestamp df)) / 3600)%Q
      /\ insights_reliability insights
         = {| MTBF := Finite mtbf; MTTR := Finite mttr |}
      /\ (0 <= mttr)%Q
      /\ ((0 <= cost_per_min)%Q -> (0 <= insights_total_risk insights)%Q).
Proof.
  intros df threshold cost Hwf Hsorted Hex.
  assert (Hne : empty df = false).
  { unfold empty, len. destruct (machine_status df); [inversion Hex|reflexivity]. }
  assert (Hss : StronglySorted Z.le (timestamp df)).
  { apply Sorted_StronglySorted; [|exact Hsorted]. intros x y z. apply Z.le_trans. }
  destruct (get_anomaly_events df threshold) as [f|x] eqn:Eget.
  2:{ exfalso. unfold get_anomaly_events in Eget. rewrite Hne in Eget.
      rewrite (state_groups_runs df Hwf) in Eget.
      destruct (collect_events_total
                  (match anomaly_score df with Some _ => true | None => false end)
                  (runs (itertuples df))) as [events Hc].
      { eapply Forall_impl; [|exact (runs_uniform (itertuples df))].
        intros g0 [H0 _]. exact H0. }
      rewrite Hc in Eget. cbn [bind] in Eget.
      destruct events as [|e es]; [|discriminate].
      apply Exists_exists in Hex. destruct Hex as [s [Hin Hs]].
      rewrite <- (itertuples_statuses df Hwf) in Hin.
      apply in_map_iff in Hin. destruct Hin as [r [Hr Hin]].
      rewrite <- (runs_concat (itertuples df)) in Hin.
      apply in_concat in Hin. destruct Hin as [g [Hg Hrg]].
      pose proof (runs_uniform (itertuples df)) as Hu.
      rewrite Forall_forall in Hu. destruct (Hu g Hg) as [Hgne Hst].
      unfold has_status in Hst. rewrite Forall_forall in Hst.
      destruct g as [|first g']; [congruence|].
      assert (Hf : isin (row_machine_status first) failure_statuses = true).
      { rewrite <- Hs, <- Hr. rewrite (Hst r Hrg). reflexivity. }
      assert (He : exists e,
                 event_of_group
                   (match anomaly_score df with Some _ => true | None => false end)
                   (first :: g') = Ok (Some e)).
      { unfold event_of_group. rewrite Hf. eexists. reflexivity. }
      destruct He as [e He].
      apply (collect_some _ _ _ _ _ Hg He Hc). reflexivity. }
  destruct (get_anomaly_events_inversion df threshold f Hne Eget)
    as (events & Hnn & Hc & ->).
  rewrite (state_groups_runs df Hwf) in Hc.
  assert (Hbound : (Qsum (map duration_mins events) * 60
                    <= inject_Z (span (timestamp df)))%Q).
  { rewrite <- (itertuples_timestamps df Hwf).
    rewrite <- (runs_concat (itertuples df)).
    eapply collect_durations_bound; [| |exact Hc].
    - eapply Forall_impl; [|exact (runs_uniform (itertuples df))].
      intros g0 [H0 _]. exact H0.
    - rewrite runs_concat, (itertuples_timestamps df Hwf). exact Hss. }
  assert (HF : Forall (fun e => duration_mins e
                                = (inject_Z (end_time e - start_time e) / 60)%Q
                                /\ (0 <= duration_mins e)%Q
                                /\ isin (status e) failure_statuses = true)
                      (sort_by newest_first events)).
  { eapply Permutation_Forall; [apply sort_by_perm|].
    eapply collect_Forall; [|exact Hc].
    intros g e _ He. apply event_of_group_shape in He.
    destruct He as (_ & Hd & Hp & Hst). split; [exact Hd|]. split; assumption. }
  set (sorted := sort_by newest_first events) in *.
  assert (Hsn : sorted <> []).
  { intro Hnil. pose proof (sort_by_length newest_first events) as Hl.
    fold sorted in Hl. rewrite Hnil in Hl. destruct events; [congruence|discriminate]. }
  assert (Hall : failures sorted = sorted).
  { apply failures_all. eapply Forall_impl; [|exact HF].
    intros a (_ & _ & Ha). exact Ha. }
  assert (Hsum : (Qsum (map duration_mins sorted)
                  == Qsum (map duration_mins events))%Q).
  { apply Qsum_permutation. apply Permutation_map.
    apply Permutation_sym. apply sort_by_perm. }
  assert (Hpos : (0 <= Qsum (map duration_mins sorted))%Q).
  { apply Qsum_nonneg. apply Forall_map.
    eapply Forall_impl; [|exact HF]. intros a (_ & Ha & _). exact Ha. }
  assert (Hn : (0 < inject_Z (Z.of_nat (length sorted)))%Q).
  { change 0%Q with (inject_Z 0). rewrite <- Zlt_Qlt.
    destruct sorted; [congruence|simpl length; lia]. }
  assert (Hsecs : downtime_seconds sorted <= span (timestamp df)).
  { rewrite Zle_Qle. rewrite downtime_seconds_minutes.
    - rewrite Hsum. exact Hbound.
    - eapply Forall_impl; [|exact HF]. intros a (Ha & _). exact Ha. }
  unfold render_anomaly_insights. rewrite Hne, Eget. cbn [call and_then].
  rewrite (dataset_span (timestamp df) Hss).
  rewrite calculate_reliability_metrics_records by (rewrite Hall; exact Hsn).
  cbn [call and_then].
  assert (Hrisk : calculate_financial_risk (Records sorted) cost
                  = Ok (Qsum (map duration_mins sorted) * cost)%Q).
  { unfold calculate_financial_risk.
    destruct sorted; [congruence|reflexivity]. }
  rewrite Hrisk. cbn [call and_then].
  assert (Hm : exists m, get_system_health_metrics df = Return m).
  { unfold get_system_health_metrics. unfold empty in Hne. rewrite Hne.
    eexists. reflexivity. }
  destruct Hm as [m Hm]. rewrite Hm. cbn [and_then].
  destruct sorted as [|event rest] eqn:Esorted; [congruence|].
  exists {| insights_events := Records (event :: rest);
            insights_total_duration_hours :=
              (inject_Z (span (timestamp df)) / 3600)%Q;
            insights_reliability :=
              {| MTBF :=
                   Finite ((inject_Z (span (timestamp df)) / 3600
                            - Qsum (map duration_mins (failures (event :: rest))) / 60)
                           / inject_Z (Z.of_nat (length (failures (event :: rest)))));
                 MTTR :=
                   Finite (Qsum (map duration_mins (failures (event :: rest))) / 60
                           / inject_Z (Z.of_nat (length (failures (event :: rest))))
                           * 60) |};
            insights_total_risk :=
              (Qsum (map duration_mins (event :: rest)) * cost)%Q;
            insights_metrics := m |}.
  exists event, rest. eexists. eexists.
  split; [reflexivity|].
  cbn [insights_events insights_total_duration_hours insights_reliability
       insights_total_risk].
  split; [reflexivity|]. split; [exact Hsecs|].
  split; [reflexivity|]. split; [reflexivity|]. rewrite Hall.
  split.
  - assert (Heq : (Qsum (map duration_mins (event :: rest)) / 60
                   / inject_Z (Z.of_nat (length (event :: rest))) * 60
                   == Qsum (map duration_mins (event :: rest))
                      / inject_Z (Z.of_nat (length (event :: rest))))%Q).
    { field. intro Hz. rewrite Hz in Hn. apply (Qlt_irrefl 0). exact Hn. }
    rewrite Heq. apply Qle_shift_div_l; [exact Hn|]. rewrite Qmult_0_l. exact Hpos.
  - intro Hcost. apply Qmult_le_0_compat; assumption.
Qed.


Lemma render_anomaly_insights_figures_witness :
  exists insights event events,
    render_anomaly_insights
      (mkDataFrame [0; 600; 1200; 3600]
                   ["NORMAL"; "BROKEN"; "BROKEN"; "NORMAL"] None [])
      2 500
    = Return (Some insights)
    /\ insights_events insights = Records (event :: events)
    /\ downtime_seconds (event :: events) <= 3600.
Proof.
  destruct (render_anomaly_insights_figures
              (mkDataFrame [0; 600; 1200; 3600]
                           ["NORMAL"; "BROKEN"; "BROKEN"; "NORMAL"] None [])
              2 500)
    as (insights & event & events & mtbf & mttr & Hr & Hev & Hsecs & _).
  - split; [reflexivity|exact I].
  - repeat constructor; discriminate.
  - right. left. reflexivity.
  - exists insights, event, events. repeat split; assumption.
Defined.

Lemma get_anomaly_events_without_failures :
  forall df threshold,
    empty df = false ->
    Forall (fun s => isin s failure_statuses = false) (machine_status df) ->
    get_anomaly_events df threshold = Raise (KeyError "start_time").
Proof.
  intros df threshold Hne Hall. unfold get_anomaly_events. rewrite Hne.
  rewrite collect_none; [reflexivity|].
  apply Forall_map.
  eapply Forall_impl;
    [| apply (groupby_members
                (fun r => isin (row_machine_status r) failure_statuses = false))].
  - intros [k g] [Hg HP]. simpl in *.
    apply event_of_group_not_failure; assumption.
  - rewrite Forall_forall in *. intros r Hr.
    apply Hall. apply itertuples_status_in. exact Hr.
Qed.

(** X9.  On a dataset with rows of which none is BROKEN or RECOVERING
    the dashboard computes no figure: the KeyError of the extractor
    leaves the function before the reliability, the risk and the health
    metrics are computed.  On a dataset without rows it returns at
    once. *)
Theorem render_anomaly_insights_without_failures :
  forall df threshold cost_per_min,
    empty df = false ->
    Forall (fun s => isin s failure_statuses = false) (machine_status df) ->
    render_anomaly_insights df threshold cost_per_min
    = Throw (Exception (KeyError "start_time"))
    /\ (forall df0,
           empty df0 = true ->
           render_anomaly_insights df0 threshold cost_per_min = Return None).
Proof.
  intros df threshold cost Hne Hall. split.
  - unfold render_anomaly_insights.
    rewrite Hne, (get_anomaly_events_without_failures df threshold Hne Hall).
    reflexivity.
  - intros df0 H0. unfold render_anomaly_insights. rewrite H0. reflexivity.
Qed.

Lemma render_anomaly_insights_without_failures_witness :
  render_anomaly_insights
    (mkDataFrame [0; 60] ["NORMAL"; "NORMAL"] None []) 2 500
  = Throw (Exception (KeyError "start_time"))
  /\ render_anomaly_insights no_data 2 500 = Return None.
Proof.
  destruct (render_anomaly_insights_without_failures
              (mkDataFrame [0; 60] ["NORMAL"; "NORMAL"] None []) 2 500)
    as [Hraise Hempty].
  - reflexivity.
  - repeat constructor.
  - split; [exact Hraise|]. apply Hempty. reflexivity.
Defined.

End DashboardFigures.


(** ** The health monitor at its edges *)

Section HealthMonitorEdges.

Import DataQuality HealthSpec FillSpec.

Context {dev : Deviation}.

Lemma tail_zero : forall {A : Type} (xs : list A), tail 0 xs = [].
Proof.
  intros A xs. unfold tail. cbn [Z.ltb Z.compare Z.to_nat].
  rewrite Nat.sub_0_r. apply skipn_all.
Qed.

(** The deviation of no reading is NaN, the test of the missing rate
    fails on NaN, and the last value of no row does not exist. *)
Lemma sensor_health_no_row :
  forall name xs,
    sensor_health (name, tail_column 0 (Float64 xs)) = Raise IndexError.
Proof.
  intros name xs. unfold sensor_health.
  cbn [snd tail_column]. rewrite tail_zero. reflexivity.
Qed.

(** X10.  A window of zero rows is not refused at the entry: on a
    dataset with rows whose first sensor column is numeric, the monitor
    fails with an IndexError when it reads the current value of that
    sensor in the empty window. *)
Theorem check_sensor_health_zero_window :
  forall df name xs others,
    empty df = false ->
    sensor_cols df = (name, Float64 xs) :: others ->
    check_sensor_health df 0 = Raise IndexError.
Proof.
  intros df name xs others Hne Hcols. unfold check_sensor_health. rewrite Hne.
  assert (Hgt : (Z.of_nat (len df) >? 0) = true).
  { unfold empty in Hne. apply Nat.eqb_neq in Hne. apply Z.gtb_lt. lia. }
  rewrite Hgt, sensor_cols_tail_rows, Hcols.
  cbn [map for_each fst snd]. rewrite sensor_health_no_row. reflexivity.
Qed.

Lemma for_each_Forall :
  forall {A B : Type} (body : A -> result B) (P : B -> Prop) l,
    Forall (fun a => exists b, body a = Ok b /\ P b) l ->
    exists bs, for_each body l = Ok bs /\ Forall P bs.
Proof.
  intros A B body P l H. induction H as [|a r [b [Hb HP]] _ [bs [Hbs HPs]]].
  - exists []. split; [reflexivity|constructor].
  - exists (b :: bs). simpl. rewrite Hb, Hbs. split; [reflexivity|].
    constructor; assumption.
Qed.

Lemma complete_trailing_window :
  forall n xs, complete xs = true -> complete (trailing_window n xs) = true.
Proof.
  intros n xs H. unfold complete, trailing_window in *.
  apply negb_true_iff. apply negb_true_iff in H.
  destruct (existsb EtlPipeline.is_missing (skipn (length xs - n) xs)) eqn:E;
    [|reflexivity].
  apply existsb_exists in E. destruct E as [x [Hin Hx]].
  assert (Hex : existsb EtlPipeline.is_missing xs = true).
  { apply existsb_exists. exists x. split; [|exact Hx].
    rewrite <- (firstn_skipn (length xs - n) xs). apply in_or_app. right. exact Hin. }
  congruence.
Qed.

Lemma complete_missing_fraction :
  forall xs, complete xs = true -> (missing_fraction xs == 0)%Q.
Proof.
  intros xs H. unfold missing_fraction.
  assert (Hc : count_missing xs = 0%nat).
  { unfold complete in H. induction xs as [|[q|] r IH]; simpl in *;
      [reflexivity|apply IH; exact H|discriminate]. }
  rewrite Hc. unfold Qdiv. apply Qmult_0_l.
Qed.

(** X11.  On a frame whose sensor columns are numeric and complete, as
    the gap filling of the pipeline leaves them, the monitor returns a
    record for every sensor and none of them is a WARNING: every sensor
    is CRITICAL or HEALTHY. *)
Theorem check_sensor_health_complete_columns :
  forall df lookback_window,
    empty df = false ->
    0 < lookback_window ->
    Forall (fun nc => exists xs, snd nc = Float64 xs
                                 /\ length xs = len df
                                 /\ complete xs = true)
           (sensor_cols df) ->
    exists health_report,
      check_sensor_health df lookback_window = Ok (pd_DataFrame health_report)
      /\ length health_report = length (sensor_cols df)
      /\ Forall (fun h => status h = "CRITICAL" \/ status h = "HEALTHY")
                health_report.
Proof.
  intros df n Hne Hn Hcols. unfold check_sensor_health. rewrite Hne.
  set (recent := fun c : column =>
                   if Z.of_nat (len df) >? n then tail_column n c else c).
  assert (Hsc :
            sensor_cols (if Z.of_nat (len df) >? n then tail_rows n df else df)
            = map (fun nc => (fst nc, recent (snd nc))) (sensor_cols df)).
  { unfold recent. destruct (Z.of_nat (len df) >? n).
    - apply sensor_cols_tail_rows.
    - rewrite <- (map_id (sensor_cols df)) at 1.
      apply map_ext. intros [name c]. reflexivity. }
  rewrite Hsc.
  assert (Hlen : (0 < len df)%nat).
  { unfold empty in Hne. apply Nat.eqb_neq in Hne. lia. }
  destruct (for_each_Forall
              sensor_health
              (fun h => status h = "CRITICAL" \/ status h = "HEALTHY")
              (map (fun nc => (fst nc, recent (snd nc))) (sensor_cols df)))
    as [report [Hrep HF]].
  { apply Forall_map. eapply Forall_impl; [|exact Hcols].
    intros [name c] [xs [Hc [Hxs Hcomp]]]. cbn [fst snd] in *. subst c.
    assert (Hw : recent (Float64 xs)
                 = Float64 (trailing_window (Z.to_nat n) xs)).
    { unfold recent. rewrite <- (recent_window xs n Hn), Hxs.
      destruct (Z.of_nat (len df) >? n); reflexivity. }
    rewrite Hw.
    destruct (sensor_health_window name (trailing_window (Z.to_nat n) xs))
      as (h & Hh & _ & Hcrit & Hwarn & Hhealthy).
    - intro Hnil. apply (f_equal (@length float)) in Hnil.
      rewrite trailing_window_length in Hnil. simpl in Hnil. lia.
    - exists h. split; [exact Hh|].
      pose proof (complete_missing_fraction
                    _ (complete_trailing_window (Z.to_nat n) xs Hcomp)) as Hmf.
      assert (Hno : ~ (1 # 10 < missing_fraction
                                  (trailing_window (Z.to_nat n) xs))%Q).
      { rewrite Hmf. intro Hlt. discriminate Hlt. }
      unfold sensor_health in Hh.
      cbn [snd fst column_std bind] in Hh.
      destruct (AnomalyInsights.feq0 (std64 (trailing_window (Z.to_nat n) xs))) eqn:Ez.
      + left. apply Hcrit. apply feq0_std_flatline. exact Ez.
      + right. apply Hhealthy. split; [|exact Hno].
        intro Hf. apply feq0_std_flatline in Hf. congruence. }
  exists report. rewrite Hrep. cbn [bind]. split; [reflexivity|].
  split; [|exact HF].
  clear - Hrep. revert report Hrep.
  induction (sensor_cols df) as [|nc r IH]; intros report H.
  - injection H as <-. reflexivity.
  - cbn [map for_each] in H.
    destruct (sensor_health _) as [h|e]; [|discriminate]. cbn [bind] in H.
    destruct (for_each sensor_health _) as [rest|e] eqn:Er; [|discriminate].
    cbn [bind] in H. injection H as <-. cbn [length]. f_equal.
    apply IH. reflexivity.
Qed.

End HealthMonitorEdges.

Lemma check_sensor_health_zero_window_witness :
  @DataQuality.check_sensor_health binary64_Deviation HealthSpec.test_frame 0
  = Raise IndexError.
Proof.
  eapply (@check_sensor_health_zero_window
            binary64_Deviation HealthSpec.test_frame).
  - reflexivity.
  - reflexivity.
Defined.

Lemma check_sensor_health_complete_columns_witness :
  exists health_report,
    @DataQuality.check_sensor_health binary64_Deviation HealthSpec.test_frame 3
    = Ok (pd_DataFrame health_report)
    /\ Forall (fun h => DataQuality.status h = "CRITICAL"
                        \/ DataQuality.status h = "HEALTHY")
              health_report.
Proof.
  destruct (@check_sensor_health_complete_columns
              binary64_Deviation HealthSpec.test_frame 3)
    as (report & Hr & _ & HF).
  - reflexivity.
  - lia.
  - repeat constructor; eexists; repeat split; reflexivity.
  - exists report. split; assumption.
Defined.

(** ** The order of the ranking *)

Section RankingOrder.

Import AnomalyInsights.

Context {sq : SquareRoot}.

Lemma highest_first_split :
  forall ranked,
    Sorted (fun a b => highest_first a b = true) ranked ->
    exists numeric undefined,
      ranked = numeric ++ undefined
      /\ Forall (fun c => deviation_score c <> None) numeric
      /\ Forall (fun c => deviation_score c = None) undefined.
Proof.
  intros ranked H. induction H as [|a r Hs (numeric & undefined & -> & Hn & Hu) Hhd].
  - exists [], []. repeat split; constructor.
  - destruct (deviation_score a) as [x|] eqn:Ea.
    + exists (a :: numeric), undefined. split; [reflexivity|].
      split; [|exact Hu]. constructor; [congruence|exact Hn].
    + destruct numeric as [|b numeric'].
      * exists [], (a :: undefined). split; [reflexivity|].
        split; [constructor|]. constructor; assumption.
      * exfalso. cbn [app] in Hhd. inversion Hhd as [|? ? Hab]; subst.
        inversion Hn as [|? ? Hb _]; subst.
        unfold highest_first in Hab. rewrite Ea in Hab.
        destruct (deviation_score b); [discriminate|congruence].
Qed.

(** X12.  In a returned ranking the sensors with a numeric score come
    first and the sensors whose score is NaN come last; every numeric
    score is at least 0. *)
Theorem analyze_root_cause_nan_last :
  forall df event_row top_n ranked,
    analyze_root_cause df event_row top_n = Ok ranked ->
    exists numeric undefined,
      ranked = numeric ++ undefined
      /\ Forall (fun c => exists q, deviation_score c = Some q /\ (0 <= q)%Q)
                numeric
      /\ Forall (fun c => deviation_score c = None) undefined.
Proof.
  intros df ev top_n ranked H.
  destruct (analyze_root_cause_ranking df ev top_n ranked H) as (Hs & _ & Hall).
  destruct (highest_first_split ranked Hs) as (numeric & undefined & -> & Hn & Hu).
  exists numeric, undefined. split; [reflexivity|]. split; [|exact Hu].
  apply Forall_app in Hall. destruct Hall as [Hall _].
  rewrite Forall_forall in *. intros c Hc.
  destruct (Hall c Hc) as (col & sigma & _ & _ & _ & _ & _ & _ & Hpos).
  specialize (Hn c Hc).
  destruct (deviation_score c) as [q|]; [|congruence].
  exists q. split; [reflexivity|]. apply Hpos. reflexivity.
Qed.

End RankingOrder.

Lemma analyze_root_cause_nan_last_witness :
  exists numeric undefined,
    AnomalyInsights.analyze_root_cause
      (mkDataFrame [0; 60; 120; 180]
                   ["NORMAL"; "NORMAL"; "BROKEN"; "BROKEN"] None
                   [("sensor_00", Float64 [Some 1%Q; Some 3%Q; None; None]);
                    ("sensor_01", Float64 [Some 1%Q; Some 2%Q; Some 5%Q; Some 7%Q])])
      (AnomalyInsights.mkEvent 120 180 1 "BROKEN" None) 3
    = Ok (numeric ++ undefined)
    /\ length numeric = 1%nat /\ length undefined = 1%nat
    /\ Forall (fun c => AnomalyInsights.deviation_score c = None) undefined.
Proof.
  destruct (AnomalyInsights.analyze_root_cause
              (mkDataFrame [0; 60; 120; 180]
                           ["NORMAL"; "NORMAL"; "BROKEN"; "BROKEN"] None
                           [("sensor_00", Float64 [Some 1%Q; Some 3%Q; None; None]);
                            ("sensor_01",
                             Float64 [Some 1%Q; Some 2%Q; Some 5%Q; Some 7%Q])])
              (AnomalyInsights.mkEvent 120 180 1 "BROKEN" None) 3)
    as [ranked|e] eqn:E; [|vm_compute in E; discriminate].
  destruct (analyze_root_cause_nan_last _ _ _ _ E)
    as (numeric & undefined & -> & Hn & Hu).
  exists numeric, undefined. split; [reflexivity|].
  vm_compute in E. injection E as E.
  destruct numeric as [|c1 [|c2 numeric]]; cbn [app] in E.
  - destruct undefined as [|u1 [|u2 [|u3 undefined]]]; try discriminate.
    inversion Hu as [|? ? H1 _]; subst. injection E as <- _.
    discriminate H1.
  - destruct undefined as [|u1 [|u2 undefined]]; try discriminate.
    repeat split; [exact Hu].
  - exfalso. inversion Hn as [|? ? _ Hn']; subst.
    inversion Hn' as [|? ? [q [Hq _]] _]; subst.
    destruct numeric as [|c3 numeric];
      [destruct undefined; [|discriminate]|destruct numeric, undefined; discriminate].
    injection E as _ <-. discriminate Hq.
Defined.

(** ** What the pipeline returns and what it refuses *)

Section PipelineOutput.

Import EtlPipeline FillSpec ProjectionSpec.

Context {sq : SquareRoot} {pr : Projection}.

Lemma lookup_set_column :
  forall name c cols, lookup name (set_column name c cols) = Some c.
Proof.
  intros name c cols. unfold lookup.
  induction cols as [|[n c'] r IH]; cbn [set_column].
  - cbn [find fst]. rewrite String.eqb_refl. reflexivity.
  - destruct (String.eqb n name) eqn:E; cbn [find fst]; rewrite E.
    + reflexivity.
    + exact IH.
Qed.

Lemma lookup_set_column_other :
  forall name name' c cols,
    name' <> name ->
    lookup name' (set_column name c cols) = lookup name' cols.
Proof.
  intros name name' c cols Hne. unfold lookup.
  induction cols as [|[n c'] r IH]; cbn [set_column].
  - cbn [find fst]. apply String.eqb_neq in Hne.
    rewrite String.eqb_sym, Hne. reflexivity.
  - destruct (String.eqb_spec n name) as [->|Hn]; cbn [find fst].
    + apply String.eqb_neq in Hne. rewrite String.eqb_sym, Hne. reflexivity.
    + destruct (String.eqb n name'); [reflexivity|exact IH].
Qed.

(** X13.  When the pipeline returns on a frame of numeric sensor
    columns, the frame keeps the timestamps and the statuses; its
    sensor columns are the gap-filled ones and hold no
    missing value; the column [PCA_1] holds the first component of the
    scaled array and [PCA_2] the second; and the anomaly score of a row
    is the distance of its two components from the origin, a number that
    is at least 0 and never missing. *)
Theorem preprocess_output :
  forall df out,
    Forall (fun nc => exists xs, snd nc = Float64 xs) (sensor_cols df) ->
    preprocess df = Ok out ->
    timestamp out = timestamp df
    /\ machine_status out = machine_status df
    /\ sensor_cols out = sensor_cols (fill_gaps df)
    /\ Forall (fun nc => forall xs, snd nc = Float64 xs -> complete xs = true)
              (sensor_cols out)
    /\ (exists x_scaled,
           scaler_fit_transform (sensor_cols (fill_gaps df)) = Ok x_scaled
           /\ lookup "PCA_1" (columns out)
              = Some (Float64 (map Some (fst (principal_components
                                                (map dropna x_scaled)))))
           /\ lookup "PCA_2" (columns out)
              = Some (Float64 (map Some (snd (principal_components
                                                (map dropna x_scaled)))))
           /\ anomaly_score out
              = Some (distance_from_origin
                        (fst (principal_components (map dropna x_scaled)))
                        (snd (principal_components (map dropna x_scaled))))
           /\ Forall (fun s => exists q, s = Some q /\ (0 <= q)%Q)
                     (distance_from_origin
                        (fst (principal_components (map dropna x_scaled)))
                        (snd (principal_components (map dropna x_scaled))))).
Proof.
  intros df out _ H.
  destruct (preprocess_returns df out H) as (X & HX & Hs & ->).
  cbn [timestamp machine_status anomaly_score columns].
  split; [reflexivity|]. split; [reflexivity|].
  match goal with
  | |- sensor_cols ?o = _ /\ _ =>
      assert (Hsc : sensor_cols o = sensor_cols (fill_gaps df))
  end.
  { unfold sensor_cols. cbn [columns].
    rewrite !sensor_cols_set_column by reflexivity. reflexivity. }
  split; [exact Hsc|]. split.
  - rewrite Hsc. apply Forall_forall. intros [name c] Hin xs Hc.
    cbn [snd] in Hc. subst c.
    apply (fill_gaps_columns_complete df name).
    unfold sensor_cols in Hin. apply filter_In in Hin. tauto.
  - exists (map scale_feature X). split; [exact Hs|]. split.
    + rewrite lookup_set_column_other by discriminate.
      apply lookup_set_column.
    + split; [apply lookup_set_column|]. split; [reflexivity|].
      unfold distance_from_origin. apply Forall_map.
      apply Forall_forall. intros p _.
      eexists. split; [reflexivity|]. apply sqrtQ_nonneg.
Qed.

End PipelineOutput.

Lemma preprocess_output_witness :
  exists out scores,
    @EtlPipeline.preprocess sqrt_up6_SquareRoot ProjectionSpec.first_two_features
                            FillSpec.flat_sensor_frame
    = Ok out
    /\ sensor_cols out = columns FillSpec.flat_sensor_frame
    /\ anomaly_score out = Some scores
    /\ Forall (fun s => exists q, s = Some q /\ (0 <= q)%Q) scores.
Proof.
  destruct (@EtlPipeline.preprocess sqrt_up6_SquareRoot
                                    ProjectionSpec.first_two_features
                                    FillSpec.flat_sensor_frame)
    as [out|e] eqn:E; [|vm_compute in E; discriminate].
  assert (Hnum : Forall (fun nc : string * column =>
                           exists xs, snd nc = Float64 xs)
                        (sensor_cols FillSpec.flat_sensor_frame))
    by (repeat constructor; eexists; reflexivity).
  destruct (@preprocess_output
              sqrt_up6_SquareRoot ProjectionSpec.first_two_features
              FillSpec.flat_sensor_frame out Hnum E)
    as (_ & _ & Hsc & _ & x_scaled & _ & _ & _ & Hs & Hpos).
  eexists. eexists. split; [reflexivity|].
  split; [rewrite Hsc; reflexivity|].
  split; [exact Hs|exact Hpos].
Defined.

(** ** Filling twice *)

Section FillingTwice.

Import EtlPipeline FillSpec.

Lemma ffill_from_complete :
  forall xs last, complete xs = true -> ffill_from last xs = xs.
Proof.
  unfold complete. induction xs as [|[q|] r IH]; intros last H; simpl in *.
  - reflexivity.
  - rewrite IH by exact H. reflexivity.
  - discriminate.
Qed.

Lemma bfill_complete :
  forall xs, complete xs = true -> bfill xs = xs.
Proof.
  unfold complete. induction xs as [|[q|] r IH]; intro H; simpl in *.
  - reflexivity.
  - rewrite IH by exact H. reflexivity.
  - discriminate.
Qed.

Lemma filter_map_fixed :
  forall {A : Type} (f : A -> A) (p : A -> bool) l,
    Forall (fun a => f a = a /\ p a = true) l -> filter p (map f l) = l.
Proof.
  intros A f p l H. induction H as [|a r [Hf Hp] _ IH]; [reflexivity|].
  cbn [map filter]. rewrite Hf, Hp, IH. reflexivity.
Qed.

(** X15.  The gap filling of the pipeline is idempotent: a frame that
    went through it has no gap left and no empty column, so a second
    pass changes nothing. *)
Theorem fill_gaps_idempotent :
  forall df, fill_gaps (fill_gaps df) = fill_gaps df.
Proof.
  intro df.
  assert (Hcols : columns (fill_gaps (fill_gaps df)) = columns (fill_gaps df)).
  { rewrite (columns_fill_gaps (fill_gaps df)).
    apply filter_map_fixed. apply Forall_forall. intros [name c] Hin.
    cbn [fst snd].
    assert (Hq : negb (all_missing c) = true).
    { rewrite columns_fill_gaps in Hin. apply filter_In in Hin. tauto. }
    split; [|exact Hq]. f_equal.
    destruct c as [ys|ss]; [|reflexivity].
    pose proof (fill_gaps_columns_complete df name ys Hin) as Hc.
    cbn [ffill_column bfill_column]. unfold ffill.
    rewrite (ffill_from_complete ys None Hc), (bfill_complete ys Hc). reflexivity. }
  assert (Hscore : anomaly_score (fill_gaps (fill_gaps df))
                   = anomaly_score (fill_gaps df)).
  { unfold fill_gaps, dropna_columns, df_bfill, df_ffill. cbn [anomaly_score].
    destruct (anomaly_score df) as [xs|]; cbn [option_map]; [|reflexivity].
    destruct (forallb is_missing (bfill (ffill xs))) eqn:E; cbn [option_map];
      [reflexivity|].
    assert (Hc : complete (bfill (ffill xs)) = true).
    { destruct (entirely_empty xs) eqn:Ee.
      - rewrite (bfill_ffill_empty xs Ee) in E. unfold entirely_empty in Ee.
        congruence.
      - apply bfill_ffill_complete. exact Ee. }
    assert (Hfix : bfill (ffill (bfill (ffill xs))) = bfill (ffill xs)).
    { unfold ffill at 1.
      rewrite (ffill_from_complete _ None Hc). apply bfill_complete. exact Hc. }
    rewrite Hfix, E. reflexivity. }
  change (fill_gaps (fill_gaps df))
    with {| timestamp := timestamp (fill_gaps df);
            machine_status := machine_status (fill_gaps df);
            anomaly_score := anomaly_score (fill_gaps (fill_gaps df));
            columns := columns (fill_gaps (fill_gaps df)) |}.
  rewrite Hcols, Hscore. reflexivity.
Qed.

End FillingTwice.

(** ** Column names *)

Section ColumnNames.

Import Processing ProjectionSpec.

Lemma lower_char_fixed : forall c, lower_char (lower_char c) = lower_char c.
Proof.
  intros [[] [] [] [] [] [] [] []]; reflexivity.
Qed.

Lemma underscore_char_fixed :
  forall c, underscore_char (underscore_char c) = underscore_char c.
Proof.
  intros [[] [] [] [] [] [] [] []]; reflexivity.
Qed.

Lemma lower_underscore_commute :
  forall c, lower_char (underscore_char c) = underscore_char (lower_char c).
Proof.
  intros [[] [] [] [] [] [] [] []]; reflexivity.
Qed.

Lemma clean_char_result :
  forall c,
    underscore_char (lower_char c) <> " "%char
    /\ is_upper (underscore_char (lower_char c)) = false.
Proof.
  intros [[] [] [] [] [] [] [] []]; split; (discriminate || reflexivity).
Qed.

Lemma string_map_map :
  forall f g s, string_map f (string_map g s) = string_map (fun c => f (g c)) s.
Proof.
  intros f g s. induction s as [|c r IH]; simpl; [reflexivity|].
  rewrite IH. reflexivity.
Qed.

Lemma string_map_ext :
  forall f g s, (forall c, f c = g c) -> string_map f s = string_map g s.
Proof.
  intros f g s H. induction s as [|c r IH]; simpl; [reflexivity|].
  rewrite H, IH. reflexivity.
Qed.

Lemma string_map_length :
  forall f s, String.length (string_map f s) = String.length s.
Proof.
  intros f s. induction s as [|c r IH]; simpl; [reflexivity|].
  rewrite IH. reflexivity.
Qed.

Lemma clean_char_ascii :
  forall c,
    Nat.ltb (nat_of_ascii c) 128 = true ->
    Nat.ltb (nat_of_ascii (underscore_char (lower_char c))) 128 = true.
Proof.
  intros [[] [] [] [] [] [] [] []] H; (reflexivity || discriminate H).
Qed.

Lemma clean_name_ascii :
  forall name, is_ascii name = true -> is_ascii (clean_name name) = true.
Proof.
  intros name. unfold is_ascii, clean_name. rewrite string_map_map.
  induction name as [|ch r IH]; cbn [string_map list_ascii_of_string forallb];
    [reflexivity|].
  intro H. apply andb_true_iff in H. destruct H as [Hc Hr].
  apply andb_true_iff. split; [apply clean_char_ascii; exact Hc|apply IH; exact Hr].
Qed.

(** X16.  On a frame whose column names are ASCII, cleaning the names
    twice is cleaning them once, and the columns keep their place and
    their values; a clean name has the length of the name, is ASCII, and
    holds no space and no upper-case letter. *)
Theorem clean_column_names_idempotent :
  forall df,
    Forall (fun nc => is_ascii (fst nc) = true) (columns df) ->
    clean_column_names (clean_column_names df) = clean_column_names df
    /\ map snd (columns (clean_column_names df)) = map snd (columns df)
    /\ Forall (fun nc =>
                 String.length (clean_name (fst nc)) = String.length (fst nc)
                 /\ is_ascii (clean_name (fst nc)) = true
                 /\ Forall (fun ch => ch <> " "%char /\ is_upper ch = false)
                           (list_ascii_of_string (clean_name (fst nc))))
              (columns df).
Proof.
  assert (Hidem : forall c, clean_name (clean_name c) = clean_name c).
  { intro c. unfold clean_name. rewrite !string_map_map.
    apply string_map_ext. intro ch.
    rewrite lower_underscore_commute, lower_char_fixed, underscore_char_fixed.
    reflexivity. }
  intros df Hascii. split; [|split].
  - unfold clean_column_names. cbn [timestamp machine_status anomaly_score columns].
    f_equal. rewrite map_map. apply map_ext. intros [name c]. cbn [fst snd].
    rewrite Hidem. reflexivity.
  - unfold clean_column_names. cbn [columns]. rewrite map_map. reflexivity.
  - eapply Forall_impl; [|exact Hascii].
    intros [name c] Hname. cbn [fst] in *. split; [|split].
    + unfold clean_name. rewrite !string_map_length. reflexivity.
    + apply clean_name_ascii. exact Hname.
    + unfold clean_name. rewrite string_map_map. clear Hname.
      induction name as [|ch r IH]; cbn [string_map list_ascii_of_string];
        [constructor|].
      constructor; [apply clean_char_result|exact IH].
Qed.

Lemma clean_column_names_idempotent_witness :
  columns (clean_column_names
             (mkDataFrame [0] ["NORMAL"] None
                          [("Sensor 00", Float64 [Some 1%Q]);
                           ("Pressure Max", Float64 [Some 2%Q])]))
  = [("sensor_00", Float64 [Some 1%Q]); ("pressure_max", Float64 [Some 2%Q])]
  /\ clean_column_names
       (clean_column_names
          (mkDataFrame [0] ["NORMAL"] None
                       [("Sensor 00", Float64 [Some 1%Q]);
                        ("Pressure Max", Float64 [Some 2%Q])]))
     = clean_column_names
         (mkDataFrame [0] ["NORMAL"] None
                      [("Sensor 00", Float64 [Some 1%Q]);
                       ("Pressure Max", Float64 [Some 2%Q])]).
Proof.
  split; [reflexivity|].
  apply (clean_column_names_idempotent
           (mkDataFrame [0] ["NORMAL"] None
                        [("Sensor 00", Float64 [Some 1%Q]);
                         ("Pressure Max", Float64 [Some 2%Q])])).
  repeat constructor.
Defined.

Lemma prefix_string_map :
  forall f n h,
    String.prefix n h = true ->
    String.prefix (string_map f n) (string_map f h) = true.
Proof.
  intros f n. induction n as [|a n IH]; intros h H; [destruct h; reflexivity|].
  destruct h as [|b h]; [discriminate|].
  cbn [String.prefix string_map] in *.
  destruct (ascii_dec a b) as [->|Hab]; [|discriminate].
  destruct (ascii_dec (f b) (f b)) as [_|Hc]; [|congruence].
  apply IH. exact H.
Qed.

Lemma contains_string_map :
  forall f n h,
    contains n h = true ->
    contains (string_map f n) (string_map f h) = true.
Proof.
  intros f n h. induction h as [|b h IH]; intro H.
  - cbn [contains] in H.
    destruct (String.prefix n "") eqn:E; [|discriminate].
    pose proof (prefix_string_map f n "" E) as P. cbn [string_map] in P.
    cbn [contains string_map]. rewrite P. reflexivity.
  - cbn [contains] in H.
    destruct (String.prefix n (String b h)) eqn:E.
    + pose proof (prefix_string_map f n _ E) as P. cbn [string_map] in P.
      cbn [contains string_map]. rewrite P. reflexivity.
    + specialize (IH H). cbn [contains string_map]. rewrite IH.
      destruct (String.prefix (string_map f n) (String (f b) (string_map f h)));
        reflexivity.
Qed.

Lemma clean_name_sensor :
  forall name,
    contains "sensor" name = true -> contains "sensor" (clean_name name) = true.
Proof.
  intros name H. unfold clean_name.
  change "sensor" with (string_map underscore_char (string_map lower_char "sensor")).
  apply contains_string_map. apply contains_string_map. exact H.
Qed.

(** X17.  Cleaning the column names loses no sensor column: a column
    whose name contains "sensor" is still a sensor column under its clean
    name, in the same order; and it may add some, as a column named
    "Sensor 00" becomes the sensor column "sensor_00". *)
Theorem clean_column_names_keeps_sensors :
  forall df,
    (exists added,
        Permutation (get_sensor_columns (clean_column_names df))
                    (map clean_name (get_sensor_columns df) ++ added))
    /\ incl (map clean_name (get_sensor_columns df))
            (get_sensor_columns (clean_column_names df))
    /\ (length (get_sensor_columns df)
        <= length (get_sensor_columns (clean_column_names df)))%nat
    /\ get_sensor_columns
         (clean_column_names
            (mkDataFrame [0] ["NORMAL"] None
                         [("Sensor 00", Float64 [Some 1%Q])]))
       = ["sensor_00"].
Proof.
  intro df.
  assert (Hperm : exists added,
             Permutation (get_sensor_columns (clean_column_names df))
                         (map clean_name (get_sensor_columns df) ++ added)).
  { unfold get_sensor_columns, sensor_cols, clean_column_names. cbn [columns].
    induction (columns df) as [|[name c] r [added IH]].
    - exists []. constructor.
    - cbn [map filter fst snd].
      destruct (contains "sensor" name) eqn:Es.
      + rewrite (clean_name_sensor name Es). cbn [map fst app].
        exists added. constructor. exact IH.
      + destruct (contains "sensor" (clean_name name)).
        * exists (clean_name name :: added). cbn [map fst].
          eapply perm_trans; [apply perm_skip; exact IH|].
          apply Permutation_middle.
        * exists added. exact IH. }
  split; [exact Hperm|]. destruct Hperm as [added Hperm]. split; [|split].
  - intros x Hx. apply (Permutation_in x (Permutation_sym Hperm)).
    apply in_or_app. left. exact Hx.
  - apply Permutation_length in Hperm. rewrite Hperm, length_app, length_map. lia.
  - reflexivity.
Qed.

End ColumnNames.

(** ** A sensor column of strings *)

Section StringSensor.

Import DataQuality HealthSpec CountSpec.

Context {dev : Deviation}.

Lemma sensor_health_outcome :
  forall name c,
    column_rows c <> 0%nat ->
    match c with
    | Float64 _ => exists h, sensor_health (name, c) = Ok h
    | Object _ => sensor_health (name, c) = Raise TypeError
    end.
Proof.
  intros name [xs|ss] Hrows; cbn [column_rows] in Hrows.
  - destruct (sensor_health_window name xs) as [h [Hh _]].
    + intro Hnil. subst xs. apply Hrows. reflexivity.
    + exists h. exact Hh.
  - reflexivity.
Qed.

Lemma recent_rows :
  forall n (df : DataFrame) c,
    0 < n -> column_rows c = len df -> len df <> 0%nat ->
    column_rows (if Z.of_nat (len df) >? n then tail_column n c else c) <> 0%nat
    /\ (forall xs, c = Float64 xs ->
                   exists w, (if Z.of_nat (len df) >? n then tail_column n c else c)
                             = Float64 w)
    /\ (forall ss, c = Object ss ->
                   exists w, (if Z.of_nat (len df) >? n then tail_column n c else c)
                             = Object w).
Proof.
  intros n df c Hn Hrows Hlen.
  destruct (Z.gtb_spec (Z.of_nat (len df)) n) as [Hgt|Hle].
  - split; [|split].
    + destruct c as [xs|ss]; cbn [tail_column column_rows] in *;
        unfold tail; destruct (Z.ltb_spec n 0); try lia;
        rewrite length_skipn; lia.
    + intros xs ->. eexists. reflexivity.
    + intros ss ->. eexists. reflexivity.
  - split; [lia|]. split; intros ? ->; eexists; reflexivity.
Qed.

(** X18.  The monitor has no [try] around a sensor: when a sensor column
    holds strings, the deviation of its window raises a TypeError and the
    whole call fails with it, whatever the other sensors are. *)
Theorem check_sensor_health_string_sensor :
  forall df lookback_window,
    empty df = false ->
    0 < lookback_window ->
    Forall (fun nc => column_rows (snd nc) = len df) (sensor_cols df) ->
    Exists (fun nc => exists ss, snd nc = Object ss) (sensor_cols df) ->
    check_sensor_health df lookback_window = Raise TypeError.
Proof.
  intros df n Hne Hn Hrows Hex. unfold check_sensor_health. rewrite Hne.
  set (recent := fun c : column =>
                   if Z.of_nat (len df) >? n then tail_column n c else c).
  assert (Hsc :
            sensor_cols (if Z.of_nat (len df) >? n then tail_rows n df else df)
            = map (fun nc => (fst nc, recent (snd nc))) (sensor_cols df)).
  { unfold recent. destruct (Z.of_nat (len df) >? n).
    - apply sensor_cols_tail_rows.
    - rewrite <- (map_id (sensor_cols df)) at 1.
      apply map_ext. intros [name c]. reflexivity. }
  rewrite Hsc.
  assert (Hlen : len df <> 0%nat).
  { unfold empty in Hne. apply Nat.eqb_neq in Hne. exact Hne. }
  assert (Hfor : for_each sensor_health
                          (map (fun nc => (fst nc, recent (snd nc))) (sensor_cols df))
                 = Raise TypeError).
  { clear Hsc. induction Hex as [[name c] r [ss Hc]|[name c] r Hex IH].
    - cbn [snd] in Hc. subst c. inversion Hrows as [|? ? Hr _]; subst.
      cbn [snd] in Hr.
      destruct (recent_rows n df (Object ss) Hn Hr Hlen) as (Hnz & _ & Hobj).
      destruct (Hobj ss eq_refl) as [w Hw].
      cbn [map for_each fst snd]. unfold recent. rewrite Hw in *.
      pose proof (sensor_health_outcome name (Object w) Hnz) as Ho.
      cbn beta iota in Ho. rewrite Ho. reflexivity.
    - inversion Hrows as [|? ? Hr Hrest]; subst. cbn [snd] in Hr.
      specialize (IH Hrest).
      destruct (recent_rows n df c Hn Hr Hlen) as (Hnz & Hnum & Hobj).
      cbn [map for_each fst snd]. unfold recent in *. cbn beta.
      destruct c as [xs|ss].
      + destruct (Hnum xs eq_refl) as [w Hw]. rewrite Hw in *.
        pose proof (sensor_health_outcome name (Float64 w) Hnz) as [h Hh].
        rewrite Hh. cbn [bind]. rewrite IH. reflexivity.
      + destruct (Hobj ss eq_refl) as [w Hw]. rewrite Hw in *.
        pose proof (sensor_health_outcome name (Object w) Hnz) as Ho.
        cbn beta iota in Ho. rewrite Ho. reflexivity. }
  rewrite Hfor. reflexivity.
Qed.

End StringSensor.

Lemma check_sensor_health_string_sensor_witness :
  @DataQuality.check_sensor_health
    binary64_Deviation
    (mkDataFrame [0; 60] ["NORMAL"; "NORMAL"] None
                 [("sensor_00", Float64 [Some 1%Q; Some 2%Q]);
                  ("sensor_01", Object ["ok"; "err"])])
    500
  = Raise TypeError.
Proof.
  apply (@check_sensor_health_string_sensor binary64_Deviation).
  - reflexivity.
  - lia.
  - repeat constructor.
  - right. left. eexists. reflexivity.
Defined.
